(** * MediSense: lab rule engine, inference gateway and result merger

    A shallow embedding of [services/labAnalyzer.js], [config/labThresholds.js],
    the analysis with labs of [reportAnalyzer.js], the upload filter, text
    extraction and patient metadata of the server, and the client of
    [services/cos.js], with the properties of the specification stated over
    it.

    Conventions of the embedding.
    - A JavaScript string is a [string]; characters outside ASCII are
      carried as opaque bytes: case mapping, white space and the character
      classes of the regular expressions act on ASCII.
    - A JavaScript number is a [JS.number]: NaN, the two infinities, or a
      finite value held as an exact rational.  Arithmetic on finite values
      is exact and a decimal numeral stands for the number it writes,
      where the engine rounds to a double; what the properties say of a
      ratio they say of the quotient [JS.div] as the code computes it, and
      they use of it only what holds of the rounded quotient too.  The
      integer [parseInt] reads is rounded as the engine does.  The two zeros
      are not distinguished.
    - The thresholds table is read under whatever key the caller gives,
      hence through the prototype chain: under a name of
      [JS.objectPrototype] that it has no entry of, it gives what every
      object literal inherits ([Conf.get]).  The other objects are read
      under fixed names, none of which is inherited.
    - A JavaScript object used as a record or returned by [JSON.parse] is an
      association list in insertion order; [undefined] and [null] are values
      of [JS.value].
    - A function that may [throw] returns an [outcome]; code that talks to
      the network or reads the clock runs in the monad [M] over a [world],
      one [await] after the other.  What is thrown is an [Error] object, as
      the engine and the HTTP client throw.  Console output is left out.
    - Built-ins whose results the code only passes along (number printing,
      [JSON.parse], [JSON.stringify]) are the fields of a [Host]; the
      properties hold for every host, and [RefHost] is one to run the model
      on. *)

From Stdlib Require Import String Ascii List QArith ZArith Lia Lqa Bool Arith.
Import ListNotations.

#[local] Set Warnings "-register-all".

Close Scope Q_scope.
Local Open Scope list_scope.
Local Open Scope string_scope.

(* ================================================================== *)
(** ** JavaScript values and the built-in operations the code relies on *)
(* ================================================================== *)

Module JS.

(** Numbers. *)
Inductive number : Type :=
| NaN
| PosInf
| NegInf
| Fin (q : Q).
Arguments Fin q%_Q.

Definition Qltb (x y : Q) : bool := negb (Qle_bool y x).

(** [a < b] *)
Definition ltb (a b : number) : bool :=
  match a, b with
  | NaN, _ | _, NaN => false
  | Fin x, Fin y => Qltb x y
  | NegInf, Fin _ | NegInf, PosInf | Fin _, PosInf => true
  | _, _ => false
  end.

(** [a > b] *)
Definition gtb (a b : number) : bool := ltb b a.

(** [a <= b] *)
Definition leb (a b : number) : bool :=
  match a, b with
  | NaN, _ | _, NaN => false
  | _, _ => negb (ltb b a)
  end.

Definition Qsign (q : Q) : comparison := (Qnum q ?= 0)%Z.

(** [a / b] *)
Definition div (a b : number) : number :=
  match a, b with
  | NaN, _ | _, NaN => NaN
  | Fin x, Fin y =>
      match Qsign y with
      | Eq => match Qsign x with Eq => NaN | Gt => PosInf | Lt => NegInf end
      | _ => Fin (x / y)
      end
  | Fin _, (PosInf | NegInf) => Fin 0
  | PosInf, Fin y => match Qsign y with Lt => NegInf | _ => PosInf end
  | NegInf, Fin y => match Qsign y with Lt => PosInf | _ => NegInf end
  | (PosInf | NegInf), (PosInf | NegInf) => NaN
  end.

(** [a + b] *)
Definition add (a b : number) : number :=
  match a, b with
  | NaN, _ | _, NaN => NaN
  | Fin x, Fin y => Fin (x + y)
  | PosInf, NegInf | NegInf, PosInf => NaN
  | PosInf, _ | _, PosInf => PosInf
  | NegInf, _ | _, NegInf => NegInf
  end.

(** [a - b] *)
Definition sub (a b : number) : number :=
  match b with
  | NaN => NaN
  | PosInf => add a NegInf
  | NegInf => add a PosInf
  | Fin y => add a (Fin (- y))
  end.

(** [a * b] *)
Definition mul (a b : number) : number :=
  match a, b with
  | NaN, _ | _, NaN => NaN
  | Fin x, Fin y => Fin (x * y)
  | Fin x, PosInf | PosInf, Fin x =>
      match Qsign x with Eq => NaN | Gt => PosInf | Lt => NegInf end
  | Fin x, NegInf | NegInf, Fin x =>
      match Qsign x with Eq => NaN | Gt => NegInf | Lt => PosInf end
  | PosInf, PosInf | NegInf, NegInf => PosInf
  | PosInf, NegInf | NegInf, PosInf => NaN
  end.

(** Values. *)
Inductive value : Type :=
| Undefined
| Null
| Bool (b : bool)
| Num (n : number)
| Str (s : string)
| Arr (items : list value)
| Obj (fields : list (string * value)).

(** ToBoolean *)
Definition truthyNum (n : number) : bool :=
  match n with
  | NaN => false
  | Fin q => negb (Qeq_bool q 0%Q)
  | _ => true
  end.

Definition truthyStr (s : string) : bool :=
  match s with EmptyString => false | _ => true end.

Definition truthy (v : value) : bool :=
  match v with
  | Undefined | Null => false
  | Bool b => b
  | Num n => truthyNum n
  | Str s => truthyStr s
  | Arr _ | Obj _ => true
  end.

(** A property that may be missing ([undefined]) read as a number,
    ToNumber(undefined) = NaN. *)
Definition toNum (o : option number) : number :=
  match o with Some n => n | None => NaN end.

(** [x ?? d] on an optional property *)
Definition nullish {A : Type} (o : option A) (d : A) : A :=
  match o with Some x => x | None => d end.

(** [x || d] on an optional number *)
Definition orNum (o : option number) (d : number) : number :=
  match o with
  | Some n => if truthyNum n then n else d
  | None => d
  end.

(** [x || d] on an optional string *)
Definition orStr (o : option string) (d : string) : string :=
  match o with
  | Some s => if truthyStr s then s else d
  | None => d
  end.

Definition truthyOpt (o : option string) : bool :=
  match o with Some s => truthyStr s | None => false end.

(** Own-property lookup in an object literal. *)
Fixpoint lookup {A : Type} (k : string) (l : list (string * A)) : option A :=
  match l with
  | [] => None
  | (k', v) :: l' => if String.eqb k k' then Some v else lookup k l'
  end.

(** [obj[k] = v]: overwrite in place, or append a new property. *)
Fixpoint setProp {A : Type} (k : string) (v : A) (l : list (string * A))
  : list (string * A) :=
  match l with
  | [] => [(k, v)]
  | (k', v') :: l' =>
      if String.eqb k k' then (k', v) :: l' else (k', v') :: setProp k v l'
  end.

(** [Object.keys] *)
Definition keys {A : Type} (l : list (string * A)) : list string :=
  map fst l.

(** The names every object literal inherits from [Object.prototype]: reading
    one of them from an object that has no such property of its own gives a
    function or, for [__proto__], the prototype itself. *)
Definition objectPrototype : list string :=
  [ "constructor"; "__defineGetter__"; "__defineSetter__"; "hasOwnProperty";
    "__lookupGetter__"; "__lookupSetter__"; "isPrototypeOf";
    "propertyIsEnumerable"; "toString"; "valueOf"; "__proto__";
    "toLocaleString" ].

Definition inherited (k : string) : bool :=
  existsb (String.eqb k) objectPrototype.

(** Strings. *)
Definition between (lo hi n : nat) : bool := (lo <=? n)%nat && (n <=? hi)%nat.

Definition lowerChar (c : ascii) : ascii :=
  let n := nat_of_ascii c in
  if between 65 90 n then ascii_of_nat (n + 32) else c.

Definition upperChar (c : ascii) : ascii :=
  let n := nat_of_ascii c in
  if between 97 122 n then ascii_of_nat (n - 32) else c.

Fixpoint mapStr (f : ascii -> ascii) (s : string) : string :=
  match s with
  | EmptyString => EmptyString
  | String c s' => String (f c) (mapStr f s')
  end.

Definition toLowerCase : string -> string := mapStr lowerChar.
Definition toUpperCase : string -> string := mapStr upperChar.

Fixpoint startsWith (p s : string) : bool :=
  match p, s with
  | EmptyString, _ => true
  | String a p', String b s' => Ascii.eqb a b && startsWith p' s'
  | String _ _, EmptyString => false
  end.

(** [s.includes(p)] *)
Fixpoint includes (s p : string) : bool :=
  startsWith p s ||
  match s with
  | EmptyString => false
  | String _ s' => includes s' p
  end.

Fixpoint join (sep : string) (l : list string) : string :=
  match l with
  | [] => ""
  | [x] => x
  | x :: l' => x ++ sep ++ join sep l'
  end.

Definition isDigit (c : ascii) : bool := between 48 57 (nat_of_ascii c).

(** White space of [\s] and of [trim]. *)
Definition isSpace (c : ascii) : bool :=
  let n := nat_of_ascii c in
  between 9 13 n || (n =? 32)%nat.

Fixpoint trimStart (s : string) : string :=
  match s with
  | String c s' => if isSpace c then trimStart s' else s
  | EmptyString => EmptyString
  end.

Fixpoint rev_string (acc s : string) : string :=
  match s with
  | EmptyString => acc
  | String c s' => rev_string (String c acc) s'
  end.

Definition trimEnd (s : string) : string :=
  rev_string "" (trimStart (rev_string "" s)).

Definition trim (s : string) : string := trimEnd (trimStart s).

Definition digitVal (c : ascii) : Z := Z.of_nat (nat_of_ascii c - 48).

Fixpoint readDigits (s : string) (acc : Z) (n : nat) : Z * nat * string :=
  match s with
  | String c s' =>
      if isDigit c then readDigits s' (10 * acc + digitVal c)%Z (S n)
      else (acc, n, s)
  | EmptyString => (acc, n, s)
  end.

(** [parseFloat] on the texts the extraction patterns can capture once
    commas are removed: leading white space, then digits with an optional
    fraction; whatever follows is ignored.  No digit at all gives NaN. *)
Definition parseFloat (s : string) : number :=
  let '(ip, ni, rest) := readDigits (trimStart s) 0%Z 0%nat in
  match rest with
  | String "." rest' =>
      let '(fp, nf, _) := readDigits rest' 0%Z 0%nat in
      if ((ni =? 0) && (nf =? 0))%nat then NaN
      else Fin (inject_Z ip + (fp # Pos.of_nat (10 ^ nf)))%Q
  | _ => if (ni =? 0)%nat then NaN else Fin (inject_Z ip)
  end.

(** The double nearest to a natural number, ties to the even mantissa, as
    the engine rounds a run of decimal digits: exact up to [2^53], then a
    mantissa of 53 bits, and Infinity from [2^1024 - 2^970] on. *)
Definition nearestDouble (n : Z) : number :=
  let e := (Z.log2 n - 52)%Z in
  if (e <=? 0)%Z then Fin (inject_Z n)
  else
    let q := Z.shiftr n e in
    let r := (n - Z.shiftl q e)%Z in
    let half := Z.shiftl 1 (e - 1) in
    let q' :=
      if (r <? half)%Z then q
      else if (half <? r)%Z then (q + 1)%Z
      else if Z.even q then q else (q + 1)%Z in
    let m := Z.shiftl q' e in
    if (Z.shiftl 1 1024 <=? m)%Z then PosInf else Fin (inject_Z m).

(** [-a] *)
Definition neg (a : number) : number :=
  match a with
  | NaN => NaN
  | PosInf => NegInf
  | NegInf => PosInf
  | Fin x => Fin (- x)
  end.

(** What may be thrown: an [Error] with a message and, for a rejected
    HTTP request, the body of the response. *)
Record error : Type := Error {
  message : string;
  response : option value
}.

Inductive outcome (A : Type) : Type :=
| Returned (a : A)
| Thrown (e : error).
Arguments Returned {A} a.
Arguments Thrown {A} e.

(** [new TypeError(msg)], raised by the engine, and [new Error(msg)]. *)
Definition TypeError (msg : string) : error :=
  {| message := msg; response := None |}.

Definition newError (msg : string) : error :=
  {| message := msg; response := None |}.

(** The index an array or a string of length [len] has under the key [k]. *)
Fixpoint indexOf (k : string) (n : nat) (fuel : nat) (show : nat -> string)
  : option nat :=
  match fuel with
  | O => None
  | S fuel' =>
      if String.eqb k (show n) then Some n else indexOf k (S n) fuel' show
  end.

Definition digitChar (n : nat) : ascii := ascii_of_nat (48 + n).

Fixpoint showNatAux (fuel n : nat) (acc : string) : string :=
  match fuel with
  | O => acc
  | S fuel' =>
      let acc' := String (digitChar (n mod 10)) acc in
      if (n / 10 =? 0)%nat then acc' else showNatAux fuel' (n / 10) acc'
  end.

Definition showNat (n : nat) : string := showNatAux (S n) n "".

Definition arrayIndex (k : string) (len : nat) : option nat :=
  indexOf k 0 len showNat.

(** [v[k]]: throws on [undefined] and [null]; indexes arrays and strings;
    reads an own property of an object; [undefined] otherwise. *)
Definition get (v : value) (k : string) : outcome value :=
  match v with
  | Undefined | Null =>
      Thrown (TypeError ("Cannot read properties of null or undefined (reading '" ++ k ++ "')"))
  | Obj fields => Returned (nullish (lookup k fields) Undefined)
  | Arr items =>
      match arrayIndex k (List.length items) with
      | Some i => Returned (nth i items Undefined)
      | None => Returned Undefined
      end
  | Str s =>
      match arrayIndex k (String.length s) with
      | Some i =>
          match String.get i s with
          | Some c => Returned (Str (String c ""))
          | None => Returned Undefined
          end
      | None => Returned Undefined
      end
  | _ => Returned Undefined
  end.

Definition isObject (v : value) : bool :=
  match v with Obj _ => true | _ => false end.

(** Sequencing of computations that may throw. *)
Definition bind {A B : Type} (x : outcome A) (f : A -> outcome B) : outcome B :=
  match x with
  | Returned a => f a
  | Thrown e => Thrown e
  end.

(** [a && b], where evaluating [b] may throw. *)
Definition andThen (a : outcome value) (b : value -> outcome value)
  : outcome value :=
  bind a (fun x => if truthy x then b x else Returned x).

(** [a || b] *)
Definition orElse (a b : value) : value := if truthy a then a else b.

Fixpoint mapM {A B : Type} (f : A -> outcome B) (l : list A) : outcome (list B) :=
  match l with
  | [] => Returned []
  | x :: l' =>
      bind (f x) (fun y => bind (mapM f l') (fun ys => Returned (y :: ys)))
  end.

Definition nl : string := String "010" "".

(** The double quote, as a string. *)
Definition dq : string := String "034" "".

(** Built-ins whose results the code only passes along: what they return
    is left to the host. *)
Class Host : Type := {
  numberToString : number -> string;
  toNumber : value -> number;
  JSON_stringify : value -> string;
  JSON_parse : string -> option value;
  formEncode : list (string * string) -> string
}.

(** The text a value takes inside a template literal. *)
Fixpoint toStr `{Host} (v : value) : string :=
  match v with
  | Undefined => "undefined"
  | Null => "null"
  | Bool true => "true"
  | Bool false => "false"
  | Num n => numberToString n
  | Str s => s
  | Arr items =>
      join ","
        (map (fun x => match x with Undefined | Null => "" | _ => toStr x end)
           items)
  | Obj _ => "[object Object]"
  end.

Definition showOpt `{Host} (o : option number) : string :=
  match o with Some n => numberToString n | None => "undefined" end.

End JS.

(* ================================================================== *)
(** ** Regular expressions

    A backtracking matcher with the priorities of the JavaScript engine:
    alternatives are tried left to right, a greedy quantifier tries one more
    iteration before it tries to stop, a lazy one the other way round, and
    [search] returns the leftmost match.  The expressions of the source use
    at most one capturing group, which is all [Group] records. *)
(* ================================================================== *)

Module Regex.

Inductive t : Type :=
| Eps
| Chars (p : ascii -> bool)
| Seq (a b : t)
| Alt (a b : t)
| Rep (greedy : bool) (lo : nat) (hi : option nat) (body : t)
| Group (body : t)
| Eol.

(** What is left of the input, and the text of group 1. *)
Definition result : Type := option (string * option string).
Definition cont : Type := string -> option string -> result.

Definition below (hi : option nat) (n : nat) : bool :=
  match hi with Some h => (n <? h)%nat | None => true end.

(** Iterations of a quantified body; an iteration that consumes nothing is
    refused, as the engine does. *)
Fixpoint iter (step : string -> option string -> cont -> result)
    (greedy : bool) (lo : nat) (hi : option nat) (k : cont)
    (fuel n : nat) (s : string) (cap : option string) {struct fuel} : result :=
  let more (_ : unit) :=
    match fuel with
    | O => None
    | S fuel' =>
        if below hi n then
          step s cap (fun s' cap' =>
            if (String.length s' <? String.length s)%nat
            then iter step greedy lo hi k fuel' (S n) s' cap'
            else None)
        else None
    end in
  let stop (_ : unit) := if (lo <=? n)%nat then k s cap else None in
  if greedy then
    match more tt with Some x => Some x | None => stop tt end
  else
    match stop tt with Some x => Some x | None => more tt end.

Fixpoint run (r : t) (s : string) (cap : option string) (k : cont)
    {struct r} : result :=
  match r with
  | Eps => k s cap
  | Chars p =>
      match s with
      | String c s' => if p c then k s' cap else None
      | EmptyString => None
      end
  | Seq a b => run a s cap (fun s1 cap1 => run b s1 cap1 k)
  | Alt a b =>
      match run a s cap k with
      | Some x => Some x
      | None => run b s cap k
      end
  | Rep greedy lo hi body =>
      iter (run body) greedy lo hi k (S (String.length s)) 0 s cap
  | Group body =>
      run body s cap (fun s' _ =>
        k s' (Some (substring 0 (String.length s - String.length s') s)))
  | Eol =>
      match s with
      | EmptyString => k s cap
      | _ => None
      end
  end.

Definition accept : cont := fun s cap => Some (s, cap).

(** A match anchored at the start of [s]. *)
Definition matchAt (r : t) (s : string) : result := run r s None accept.

Record hit : Type := {
  before : string;
  matched : string;
  group1 : option string;
  after : string
}.

(** [s.match(r)] without the [g] flag: the leftmost match. *)
Fixpoint search (r : t) (s : string) : option hit :=
  match matchAt r s with
  | Some (rest, cap) =>
      Some {| before := "";
              matched := substring 0 (String.length s - String.length rest) s;
              group1 := cap;
              after := rest |}
  | None =>
      match s with
      | EmptyString => None
      | String c s' =>
          match search r s' with
          | Some h =>
              Some {| before := String c (before h);
                      matched := matched h;
                      group1 := group1 h;
                      after := after h |}
          | None => None
          end
      end
  end.

(** [r.test(s)] *)
Definition test (r : t) (s : string) : bool :=
  match search r s with Some _ => true | None => false end.

(** [s.replace(r, f)] with the [g] flag. *)
Fixpoint replaceFuel (fuel : nat) (r : t) (f : hit -> string) (s : string)
  : string :=
  match fuel with
  | O => s
  | S fuel' =>
      match search r s with
      | None => s
      | Some h =>
          match matched h, after h with
          | EmptyString, String c rest =>
              before h ++ f h ++ String c (replaceFuel fuel' r f rest)
          | EmptyString, EmptyString => before h ++ f h
          | _, rest => before h ++ f h ++ replaceFuel fuel' r f rest
          end
      end
  end.

Definition replaceAll (r : t) (f : hit -> string) (s : string) : string :=
  replaceFuel (S (String.length s)) r f s.

(** [s.replace(r, f)] without the [g] flag. *)
Definition replaceFirst (r : t) (f : hit -> string) (s : string) : string :=
  match search r s with
  | None => s
  | Some h => before h ++ f h ++ after h
  end.

(** Building blocks. *)
Definition chr (c : ascii) : t := Chars (Ascii.eqb c).

(** A literal character under the [i] flag. *)
Definition chrI (c : ascii) : t :=
  Chars (fun x => Ascii.eqb (JS.upperChar x) (JS.upperChar c)).

Fixpoint lit (s : string) : t :=
  match s with
  | EmptyString => Eps
  | String c EmptyString => chr c
  | String c s' => Seq (chr c) (lit s')
  end.

Fixpoint litI (s : string) : t :=
  match s with
  | EmptyString => Eps
  | String c EmptyString => chrI c
  | String c s' => Seq (chrI c) (litI s')
  end.

Fixpoint seq (l : list t) : t :=
  match l with
  | [] => Eps
  | [r] => r
  | r :: l' => Seq r (seq l')
  end.

Definition star (r : t) : t := Rep true 0 None r.
Definition lazyStar (r : t) : t := Rep false 0 None r.
Definition plus (r : t) : t := Rep true 1 None r.
Definition opt (r : t) : t := Rep true 0 (Some 1) r.
Definition upTo (n : nat) (r : t) : t := Rep true 0 (Some n) r.

Definition digit : t := Chars JS.isDigit.                         (* \d, [0-9] *)
Definition notDigit : t := Chars (fun c => negb (JS.isDigit c)).   (* [^0-9] *)
Definition space : t := Chars JS.isSpace.                         (* \s *)
Definition any : t := Chars (fun _ => true).                      (* [\s\S] *)

(** The text of ['$1']. *)
Definition dollar1 (h : hit) : string :=
  match group1 h with Some g => g | None => "" end.

End Regex.

(* ================================================================== *)
(** ** config/labThresholds.js *)
(* ================================================================== *)

Module Conf.

Record range : Type := {
  normalLow : option JS.number;
  normalHigh : option JS.number
}.

Record cutoffs : Type := {
  mild : option JS.number;
  moderate : option JS.number;
  severe : option JS.number
}.

(** One entry of the table.  [bounds] holds the entry's own
    [normalLow]/[normalHigh]; [bySex] its nested per-sex ranges, which are
    the only properties of an entry that carry bounds. *)
Record t : Type := {
  unit : option string;
  bounds : range;
  bySex : list (string * range);
  severity : cutoffs
}.

Definition table : Type := list (string * t).

(** What [table[key]] is for a key the table has no entry of but inherits:
    a function of [Object.prototype], or that prototype.  It is truthy, and
    neither it nor any of its properties has a [unit], a [normalLow], a
    [normalHigh] or a [severity].  (Of a function the engine refuses to
    read [caller] and [arguments]: with such a key and one of these two
    words as the patient's sex, [assessValue] throws where the embedding
    returns.) *)
Definition inherited : t :=
  {| unit := None;
     bounds := {| normalLow := None; normalHigh := None |};
     bySex := [];
     severity := {| mild := None; moderate := None; severe := None |} |}.

(** [table[key]]: the entry of the table, or what the table inherits under
    that name. *)
Definition get (key : string) (tb : table) : option t :=
  match JS.lookup key tb with
  | Some conf => Some conf
  | None => if JS.inherited key then Some inherited else None
  end.

End Conf.

Definition hemoglobin : Conf.t :=
  {| Conf.unit := Some "g/dL";
     Conf.bounds := {| Conf.normalLow := None; Conf.normalHigh := None |};
     Conf.bySex :=
       [ ("male", {| Conf.normalLow := Some (JS.Fin 13.5);
                     Conf.normalHigh := Some (JS.Fin 17.5) |});
         ("female", {| Conf.normalLow := Some (JS.Fin 12.0);
                       Conf.normalHigh := Some (JS.Fin 15.5) |}) ];
     Conf.severity := {| Conf.mild := Some (JS.Fin 0.95);
                         Conf.moderate := Some (JS.Fin 0.85);
                         Conf.severe := Some (JS.Fin 0.7) |} |}.

Definition platelet : Conf.t :=
  {| Conf.unit := Some "10^9/L";
     Conf.bounds := {| Conf.normalLow := Some (JS.Fin 150);
                       Conf.normalHigh := Some (JS.Fin 450) |};
     Conf.bySex := [];
     Conf.severity := {| Conf.mild := Some (JS.Fin 0.9);
                         Conf.moderate := Some (JS.Fin 0.7);
                         Conf.severe := Some (JS.Fin 0.5) |} |}.

Definition glucose_fasting : Conf.t :=
  {| Conf.unit := Some "mg/dL";
     Conf.bounds := {| Conf.normalLow := Some (JS.Fin 70);
                       Conf.normalHigh := Some (JS.Fin 99) |};
     Conf.bySex := [];
     Conf.severity := {| Conf.mild := Some (JS.Fin 1.1);
                         Conf.moderate := Some (JS.Fin 1.25);
                         Conf.severe := Some (JS.Fin 1.5) |} |}.

Definition labThresholds : Conf.table :=
  [ ("hemoglobin", hemoglobin);
    ("platelet", platelet);
    ("glucose_fasting", glucose_fasting) ].

(* ================================================================== *)
(** ** services/labAnalyzer.js: the rule engine *)
(* ================================================================== *)

Module Status.
Inductive t : Type := normal | low | high | unknown.

Definition name (s : t) : string :=
  match s with
  | normal => "normal" | low => "low" | high => "high" | unknown => "unknown"
  end.

Definition eqb (a b : t) : bool :=
  match a, b with
  | normal, normal | low, low | high, high | unknown, unknown => true
  | _, _ => false
  end.
End Status.

Module Severity.
Inductive t : Type := normal | mild | moderate | severe | unknown.

Definition name (s : t) : string :=
  match s with
  | normal => "normal" | mild => "mild" | moderate => "moderate"
  | severe => "severe" | unknown => "unknown"
  end.

Definition eqb (a b : t) : bool :=
  match a, b with
  | normal, normal | mild, mild | moderate, moderate
  | severe, severe | unknown, unknown => true
  | _, _ => false
  end.

(** Badness order of the specification: normal < mild < moderate < severe. *)
Definition rank (s : t) : nat :=
  match s with
  | normal => 0 | mild => 1 | moderate => 2 | severe => 3 | unknown => 0
  end.
End Severity.

Module PatientMeta.
(** [{ name, age, sex, ... }], as [extractPatientMetadata] fills it: each
    field may be missing.  [sex] is the only one the rule engine reads. *)
Record t : Type := {
  name : option string;
  dob : option string;
  sex : option string;
  age : option JS.number
}.

Definition empty : t :=
  {| name := None; dob := None; sex := None; age := None |}.

Definition field {A : Type} (k : string) (f : A -> JS.value) (o : option A)
  : list (string * JS.value) :=
  match o with Some x => [(k, f x)] | None => [] end.

Definition toValue (m : t) : JS.value :=
  JS.Obj (field "name" JS.Str (name m) ++ field "dob" JS.Str (dob m)
          ++ field "sex" JS.Str (sex m) ++ field "age" JS.Num (age m))%list.
End PatientMeta.

Module Assessment.
Record t : Type := {
  key : string;
  value : JS.number;
  unit : option string;
  normalRange : option Conf.range;
  status : Status.t;
  severity : Severity.t;
  note : option string
}.

Definition numOrUndefined (o : option JS.number) : JS.value :=
  match o with Some n => JS.Num n | None => JS.Undefined end.

(** The object literal an assessment is. *)
Definition toValue (a : t) : JS.value :=
  JS.Obj
    ([("key", JS.Str (key a)); ("value", JS.Num (value a))]
     ++ PatientMeta.field "unit" JS.Str (unit a)
     ++ PatientMeta.field "normalRange"
          (fun r => JS.Obj [("low", numOrUndefined (Conf.normalLow r));
                            ("high", numOrUndefined (Conf.normalHigh r))])
          (normalRange a)
     ++ [("status", JS.Str (Status.name (status a)));
         ("severity", JS.Str (Severity.name (severity a)))]
     ++ PatientMeta.field "note" JS.Str (note a))%list.
End Assessment.

Section RuleEngine.

(** [const thresholds = require('../config/labThresholds')] *)
Variable thresholds : Conf.table.

Definition assessValue (key : string) (value : JS.number)
    (patientMeta : PatientMeta.t) : Assessment.t :=
  match Conf.get key thresholds with
  | None =>
      {| Assessment.key := key;
         Assessment.value := value;
         Assessment.unit := None;
         Assessment.normalRange := None;
         Assessment.status := Status.unknown;
         Assessment.severity := Severity.unknown;
         Assessment.note := Some "No threshold configured" |}
  | Some conf =>
      let sex := JS.toLowerCase (JS.orStr (PatientMeta.sex patientMeta) "") in
      let normalLow := Conf.normalLow (Conf.bounds conf) in
      let normalHigh := Conf.normalHigh (Conf.bounds conf) in
      let '(normalLow, normalHigh) :=
        match JS.lookup sex (Conf.bySex conf) with
        | Some r =>
            (match Conf.normalLow r with Some x => Some x | None => normalLow end,
             match Conf.normalHigh r with Some x => Some x | None => normalHigh end)
        | None => (normalLow, normalHigh)
        end in
      let lowerIsBad :=
        match normalLow, normalHigh with
        | Some _, Some _ => JS.ltb value (JS.orNum normalLow JS.PosInf)
        | _, _ => false
        end in
      let verdict :=
        if lowerIsBad then
          let pct := JS.div value (JS.toNum normalLow) in
          if JS.ltb pct (JS.nullish (Conf.severe (Conf.severity conf)) (JS.Fin 0.7))
          then (Severity.severe, Status.low)
          else if JS.ltb pct (JS.nullish (Conf.moderate (Conf.severity conf)) (JS.Fin 0.85))
          then (Severity.moderate, Status.low)
          else if JS.ltb pct (JS.Fin 1.0)
          then (Severity.mild, Status.low)
          else (Severity.normal, Status.normal)
        else
          match normalHigh with
          | Some h =>
              if JS.gtb value h then
                let ratio := JS.div value h in
                if JS.gtb ratio (JS.nullish (Conf.severe (Conf.severity conf)) (JS.Fin 1.5))
                then (Severity.severe, Status.high)
                else if JS.gtb ratio (JS.nullish (Conf.moderate (Conf.severity conf)) (JS.Fin 1.2))
                then (Severity.moderate, Status.high)
                else (Severity.mild, Status.high)
              else (Severity.normal, Status.normal)
          | None => (Severity.normal, Status.normal)
          end in
      {| Assessment.key := key;
         Assessment.value := value;
         Assessment.unit := Some (JS.orStr (Conf.unit conf) "");
         Assessment.normalRange :=
           Some {| Conf.normalLow := normalLow; Conf.normalHigh := normalHigh |};
         Assessment.status := snd verdict;
         Assessment.severity := fst verdict;
         Assessment.note := None |}
  end.

End RuleEngine.

(** The classification in the words of the specification, for comparison
    with [assessValue]: the ratio is held against the analyte's configured
    severe, moderate and mild cutoffs, in that order, and a ratio beyond
    none of them is normal.  [below] tells a value under [normalLow], whose
    ratio is beyond a cutoff when smaller, from a value over [normalHigh],
    whose ratio is beyond a cutoff when larger. *)
Module Spec.
Definition severityByCutoffs (c : Conf.cutoffs) (below : bool)
    (ratio : JS.number) : Severity.t :=
  let beyond (cut : option JS.number) :=
    match cut with
    | Some t => if below then JS.ltb ratio t else JS.gtb ratio t
    | None => false
    end in
  if beyond (Conf.severe c) then Severity.severe
  else if beyond (Conf.moderate c) then Severity.moderate
  else if beyond (Conf.mild c) then Severity.mild
  else Severity.normal.

(** The classification as amended: a ratio below the range is held against
    the severe and the moderate cutoff, each replaced by 0.7 and 0.85 when
    the entry lacks it, and a ratio below neither is mild; a ratio above the
    range likewise, with 1.5 and 1.2. *)
Definition classBelow (c : Conf.cutoffs) (ratio : JS.number) : Severity.t :=
  if JS.ltb ratio (JS.nullish (Conf.severe c) (JS.Fin 0.7)) then Severity.severe
  else if JS.ltb ratio (JS.nullish (Conf.moderate c) (JS.Fin 0.85))
  then Severity.moderate
  else Severity.mild.

Definition classAbove (c : Conf.cutoffs) (ratio : JS.number) : Severity.t :=
  if JS.gtb ratio (JS.nullish (Conf.severe c) (JS.Fin 1.5)) then Severity.severe
  else if JS.gtb ratio (JS.nullish (Conf.moderate c) (JS.Fin 1.2))
  then Severity.moderate
  else Severity.mild.

(** The span the specification names for the extraction of JSON: it opens
    at the first opening brace and ends at the closing brace that balances
    it. *)
Fixpoint balancedFrom (s : string) (depth : nat) : option string :=
  match s with
  | EmptyString => None
  | String c s' =>
      if Ascii.eqb c "{" then option_map (String c) (balancedFrom s' (S depth))
      else if Ascii.eqb c "}" then
        match depth with
        | O => Some (String c EmptyString)
        | S d => option_map (String c) (balancedFrom s' d)
        end
      else option_map (String c) (balancedFrom s' depth)
  end.

Fixpoint firstBalancedSpan (s : string) : option string :=
  match s with
  | EmptyString => None
  | String c s' =>
      if Ascii.eqb c "{" then option_map (String c) (balancedFrom s' 0)
      else firstBalancedSpan s'
  end.
End Spec.

(** [normalizeText] *)
Definition normalizeText (s : string) : string :=
  JS.toLowerCase
    (Regex.replaceAll (Regex.chr "009") (fun _ => " ")
      (Regex.replaceAll (Regex.chr "010") (fun _ => " ")
        (Regex.replaceAll (Regex.chr "013") (fun _ => " ") s))).

Module Pattern.
Record t : Type := {
  key : string;
  names : list string;
  regex : Regex.t
}.
End Pattern.

(** [(\d+(?:\.\d+)?)] *)
Definition decimalGroup : Regex.t :=
  Regex.Group
    (Regex.Seq (Regex.plus Regex.digit)
       (Regex.opt (Regex.Seq (Regex.chr ".") (Regex.plus Regex.digit)))).

Definition patterns : list Pattern.t :=
  [ {| Pattern.key := "hemoglobin";
       Pattern.names := ["hemoglobin"; "hb"; "h b"; "hb."];
       Pattern.regex :=
         Regex.seq
           [ Regex.Alt (Regex.litI "hemoglobin")
               (Regex.Alt (Regex.litI "hgb") (Regex.litI "hb"));
             Regex.upTo 20 Regex.notDigit;
             decimalGroup ] |};
    {| Pattern.key := "platelet";
       Pattern.names := ["platelet"; "platelets"; "plt"];
       Pattern.regex :=
         Regex.seq
           [ Regex.Alt
               (Regex.Seq (Regex.litI "platelet") (Regex.opt (Regex.chrI "s")))
               (Regex.litI "plt");
             Regex.upTo 20 Regex.notDigit;
             Regex.Group
               (Regex.Seq
                  (Regex.plus
                     (Regex.Chars (fun c => JS.isDigit c || Ascii.eqb c ",")))
                  (Regex.opt
                     (Regex.Seq (Regex.chr ".") (Regex.plus Regex.digit)))) ] |};
    {| Pattern.key := "glucose_fasting";
       Pattern.names := ["glucose"; "fasting glucose"; "fbs"; "blood sugar fasting"];
       Pattern.regex :=
         Regex.seq
           [ Regex.Alt (Regex.litI "fasting glucose")
               (Regex.Alt (Regex.litI "glucose") (Regex.litI "fbs"));
             Regex.upTo 20 Regex.notDigit;
             decimalGroup ] |} ].

(** [parseLabValues]: the loop over [patterns], threading [found]. *)
Definition parseStep (norm : string) (found : list (string * JS.number))
    (p : Pattern.t) : list (string * JS.number) :=
  match Regex.search (Pattern.regex p) norm with
  | Some m =>
      let raw := Regex.replaceAll (Regex.chr ",") (fun _ => "") (Regex.dollar1 m) in
      JS.setProp (Pattern.key p) (JS.parseFloat raw) found
  | None => found
  end.

Definition parseLabValues (text : string) : list (string * JS.number) :=
  let norm := normalizeText text in
  fold_left (parseStep norm) patterns [].

(** The first loop of [analyzeLabReport]: one assessment per key of the
    parsed map, in the order of [Object.keys]. *)
Definition assessAll (parsedMap : list (string * JS.number))
    (patientMeta : PatientMeta.t) : list Assessment.t :=
  map (fun key =>
         assessValue labThresholds key (JS.toNum (JS.lookup key parsedMap))
           patientMeta)
      (JS.keys parsedMap).

(* ================================================================== *)
(** ** services/labAnalyzer.js: prompt, transport and gateway *)
(* ================================================================== *)

Import JS (Returned, Thrown, Host).

Notation "x <~ e ;; k" := (JS.bind e (fun x => k))
  (at level 61, e at next level, right associativity).

(** [createWatsonPrompt]; reading [r.normalRange.low] throws when the
    assessment has no [normalRange]. *)
Definition promptLine `{Host} (r : Assessment.t) : JS.outcome string :=
  match Assessment.normalRange r with
  | None =>
      Thrown (JS.TypeError "Cannot read properties of undefined (reading 'low')")
  | Some range =>
      Returned
        ("- " ++ Assessment.key r ++ ": "
         ++ JS.numberToString (Assessment.value r) ++ " "
         ++ JS.orStr (Assessment.unit r) ""
         ++ " (normal range: " ++ JS.showOpt (Conf.normalLow range) ++ "-"
         ++ JS.showOpt (Conf.normalHigh range) ++ " "
         ++ JS.orStr (Assessment.unit r) ""
         ++ "). Status: " ++ Status.name (Assessment.status r)
         ++ ", severity: " ++ Severity.name (Assessment.severity r))
  end.

Definition systemInstruction : string :=
  "You are a helpful, concise medical assistant that explains lab results in plain language for patients.".

Definition createWatsonPrompt `{Host} (parsedResults : list Assessment.t)
    (patientMeta : PatientMeta.t) : JS.outcome string :=
  items <~ JS.mapM promptLine parsedResults ;;
  Returned
    (JS.join JS.nl
       ([ systemInstruction;
          "Do NOT provide definitive diagnoses. Always recommend seeing a doctor for serious or severe findings.";
          "";
          "Patient metadata:";
          JS.JSON_stringify (PatientMeta.toValue patientMeta);
          "";
          "Lab results:" ]
        ++ items
        ++ [ "";
             "Task:";
             "1) For each lab item provide a 1-2 sentence plain-language explanation of what the result means for the patient.";
             ("2) If severity is moderate or severe, clearly say " ++ JS.dq
               ++ "URGENT: see a doctor" ++ JS.dq
               ++ " or similar and list 2 immediate actions.")%string;
             "3) Provide 3 suggested questions the patient may ask their doctor about these results.";
             "";
             ("Format the output as JSON with keys: " ++ JS.dq ++ "explanations"
               ++ JS.dq ++ " (array of {key, explanation, severity}), " ++ JS.dq
               ++ "action_items" ++ JS.dq ++ " (array), " ++ JS.dq ++ "questions"
               ++ JS.dq ++ " (array).")%string;
             "";
             "Be brief and use non-technical language suitable for patients.";
             "" ])%list).

(** [process.env] *)
Module Env.
Record t : Type := {
  WATSON_PREDICTION_URL : option string;
  WATSON_DEPLOYMENT_ID : option string;
  WATSON_URL : option string;
  WATSON_APIKEY : option string;
  WATSON_REQUEST_STYLE : option string;
  WATSON_AUTH_FLOW : option string;
  WATSON_IAM_URL : option string
}.

Definition none : t :=
  {| WATSON_PREDICTION_URL := None; WATSON_DEPLOYMENT_ID := None;
     WATSON_URL := None; WATSON_APIKEY := None;
     WATSON_REQUEST_STYLE := None; WATSON_AUTH_FLOW := None;
     WATSON_IAM_URL := None |}.
End Env.

(** One call of [axios.post(url, body, opts)]. *)
Module Request.
Record t : Type := {
  url : string;
  body : JS.value;
  headers : list (string * string);
  auth : option (string * string)
}.
End Request.

(** [_iamTokenCache] *)
Module TokenCache.
Record t : Type := {
  token : JS.value;
  expiresAt : JS.number
}.

Definition initial : t := {| token := JS.Null; expiresAt := JS.Fin 0 |}.
End TokenCache.

(** What the process cannot control: its environment, the fate of the
    [n]-th request it issues (rejected with an error, or resolved with the
    body of the response), and the reading of the clock at its [n]-th use. *)
Record outside : Type := {
  env : Env.t;
  net : nat -> Request.t -> JS.error + JS.value;
  clock : nat -> JS.number
}.

(** What the process changes: the requests issued so far (latest first),
    the uses of the clock and the token cache. *)
Record world : Type := {
  sent : list Request.t;
  ticks : nat;
  iamTokenCache : TokenCache.t
}.

Definition boot : world :=
  {| sent := []; ticks := 0; iamTokenCache := TokenCache.initial |}.

(** A configured process whose service answers every request with the
    given body. *)
Definition answering (body : JS.value) : outside :=
  {| env :=
       {| Env.WATSON_PREDICTION_URL := Some "https://service.test/predictions";
          Env.WATSON_DEPLOYMENT_ID := None;
          Env.WATSON_URL := None;
          Env.WATSON_APIKEY := Some "key";
          Env.WATSON_REQUEST_STYLE := None;
          Env.WATSON_AUTH_FLOW := None;
          Env.WATSON_IAM_URL := None |};
     net := fun _ _ => inr body;
     clock := fun _ => JS.Fin 0 |}.

(** A process without any of the variables, cut off from the network. *)
Definition offline : outside :=
  {| env := Env.none;
     net := fun _ _ => inl (JS.newError "getaddrinfo ENOTFOUND");
     clock := fun _ => JS.Fin 0 |}.

Definition M (A : Type) : Type := world -> JS.outcome A * world.

Definition ret {A : Type} (a : A) : M A := fun w => (Returned a, w).

Definition throw {A : Type} (e : JS.error) : M A := fun w => (Thrown e, w).

Definition bindM {A B : Type} (m : M A) (f : A -> M B) : M B :=
  fun w =>
    match m w with
    | (Returned a, w') => f a w'
    | (Thrown e, w') => (Thrown e, w')
    end.

Definition tryM {A : Type} (body : M A) (handler : JS.error -> M A) : M A :=
  fun w =>
    match body w with
    | (Returned a, w') => (Returned a, w')
    | (Thrown e, w') => handler e w'
    end.

Definition lift {A : Type} (x : JS.outcome A) : M A := fun w => (x, w).

Notation "x <- e ;; k" := (bindM e (fun x => k))
  (at level 61, e at next level, right associativity).
Notation "m >>= f" := (bindM m f) (at level 50, left associativity).

(** What [analyzeLabReport] returns. *)
Module LabResult.
Record t : Type := {
  assessments : list Assessment.t;
  result : JS.value;
  rawWatson : JS.value
}.

(** The object literal of the [return] statements. *)
Definition toValue (r : t) : JS.value :=
  JS.Obj [ ("assessments", JS.Arr (map Assessment.toValue (assessments r)));
           ("result", result r);
           ("rawWatson", rawWatson r) ].
End LabResult.

Section Gateway.

Context `{Host}.
Variable out : outside.

(** [await axios.post(url, body, opts)] then [resp.data] *)
Definition post (req : Request.t) : M JS.value :=
  fun w =>
    let w' := {| sent := req :: sent w; ticks := ticks w;
                 iamTokenCache := iamTokenCache w |} in
    match net out (List.length (sent w)) req with
    | inl err => (Thrown err, w')
    | inr data => (Returned data, w')
    end.

(** [Date.now()] *)
Definition now : M JS.number :=
  fun w =>
    (Returned (clock out (ticks w)),
     {| sent := sent w; ticks := S (ticks w);
        iamTokenCache := iamTokenCache w |}).

Definition readCache : M TokenCache.t :=
  fun w => (Returned (iamTokenCache w), w).

Definition writeCache (c : TokenCache.t) : M unit :=
  fun w =>
    (Returned tt, {| sent := sent w; ticks := ticks w; iamTokenCache := c |}).

Definition jsonHeaders : list (string * string) :=
  [("Content-Type", "application/json")].

Definition getIamToken : M JS.value :=
  t <- now ;;
  cache <- readCache ;;
  if JS.truthy (TokenCache.token cache)
     && JS.gtb (JS.sub (TokenCache.expiresAt cache) (JS.Fin 60000)) t
  then ret (TokenCache.token cache)
  else
    let iamUrl :=
      JS.orStr (Env.WATSON_IAM_URL (env out))
        "https://iam.cloud.ibm.com/identity/token" in
    match Env.WATSON_APIKEY (env out) with
    | Some apikey =>
        if JS.truthyStr apikey then
          data <- post {| Request.url := iamUrl;
                          Request.body :=
                            JS.Str (JS.formEncode
                              [("grant_type", "urn:ibm:params:oauth:grant-type:apikey");
                               ("apikey", apikey)]);
                          Request.headers :=
                            [("Content-Type", "application/x-www-form-urlencoded")];
                          Request.auth := None |} ;;
          if JS.truthy data then
            access_token <- lift (JS.get data "access_token") ;;
            if JS.truthy access_token then
              t' <- now ;;
              expires_in <- lift (JS.get data "expires_in") ;;
              _ <- writeCache
                     {| TokenCache.token := access_token;
                        TokenCache.expiresAt :=
                          JS.add t'
                            (if JS.truthy expires_in
                             then JS.mul (JS.toNumber expires_in) (JS.Fin 1000)
                             else JS.Fin 3600000) |} ;;
              ret access_token
            else throw (JS.newError "Failed to obtain IAM token")
          else throw (JS.newError "Failed to obtain IAM token")
        else throw (JS.newError "WATSON_APIKEY is required for IAM auth")
    | None => throw (JS.newError "WATSON_APIKEY is required for IAM auth")
    end.

Definition userMessage (content : string) : JS.value :=
  JS.Obj [("messages",
           JS.Arr [JS.Obj [("role", JS.Str "user"); ("content", JS.Str content)]])].

(** [callWatsonxChatStyle] *)
Definition callWatsonxChatStyle (url prompt : string)
    (axiosOpts : list (string * string) * option (string * string))
  : M JS.value :=
  post {| Request.url := url;
          Request.body := userMessage prompt;
          Request.headers := fst axiosOpts;
          Request.auth := snd axiosOpts |}.

(** [callWatsonxChatStyleAlt] *)
Definition callWatsonxChatStyleAlt (url prompt : string)
    (axiosOpts : list (string * string) * option (string * string))
  : M JS.value :=
  post {| Request.url := url;
          Request.body :=
            JS.Obj [("messages",
              JS.Arr [ JS.Obj [("author", JS.Str "system"); ("type", JS.Str "text");
                               ("text", JS.Str systemInstruction)];
                       JS.Obj [("author", JS.Str "user"); ("type", JS.Str "text");
                               ("text", JS.Str prompt)] ])];
          Request.headers := fst axiosOpts;
          Request.auth := snd axiosOpts |}.

Definition looksLikeChat (url : string) : bool :=
  JS.includes url "/text/chat"
  || String.eqb (JS.toLowerCase (JS.orStr (Env.WATSON_REQUEST_STYLE (env out)) ""))
       "chat".

Definition callWatsonx (prompt : string) : M JS.value :=
  let predictionUrl := Env.WATSON_PREDICTION_URL (env out) in
  let deploymentId := Env.WATSON_DEPLOYMENT_ID (env out) in
  let baseUrl := Env.WATSON_URL (env out) in
  if negb (JS.truthyOpt predictionUrl)
     && (negb (JS.truthyOpt baseUrl) || negb (JS.truthyOpt deploymentId))
  then
    throw (JS.TypeError
      "Either WATSON_PREDICTION_URL or (WATSON_URL and WATSON_DEPLOYMENT_ID) must be set")
  else
    let url :=
      JS.orStr predictionUrl
        (Regex.replaceFirst (Regex.Seq (Regex.chr "/") Regex.Eol) (fun _ => "")
           (JS.orStr baseUrl "")
         ++ "/v1/deployments/" ++ JS.orStr deploymentId "" ++ "/predictions") in
    let requestBody := JS.Obj [("input", JS.Obj [("text", JS.Str prompt)])] in
    let isChatEndpoint := looksLikeChat url in
    let flow := JS.toLowerCase (JS.orStr (Env.WATSON_AUTH_FLOW (env out)) "apikey") in
    axiosOpts <-
      (if String.eqb flow "iam" then
         token <- getIamToken ;;
         ret (app jsonHeaders [("Authorization", "Bearer " ++ JS.toStr token)], None)
       else
         match Env.WATSON_APIKEY (env out) with
         | Some key =>
             if JS.truthyStr key
             then ret (jsonHeaders, Some ("apikey", key))
             else throw (JS.newError "WATSON_APIKEY is required for apikey auth")
         | None => throw (JS.newError "WATSON_APIKEY is required for apikey auth")
         end) ;;
    tryM
      (if isChatEndpoint then
         post {| Request.url := url;
                 Request.body :=
                   userMessage (systemInstruction ++ JS.nl ++ JS.nl ++ prompt);
                 Request.headers := fst axiosOpts;
                 Request.auth := snd axiosOpts |}
       else
         post {| Request.url := url;
                 Request.body := requestBody;
                 Request.headers := fst axiosOpts;
                 Request.auth := snd axiosOpts |})
      (fun err =>
         (* the retries return from the function on success; when none
            does, the first error is thrown again *)
         retried <-
           tryM
             (if looksLikeChat url then
                tryM
                  (chatResp <- callWatsonxChatStyle url prompt axiosOpts ;;
                   ret (Some chatResp))
                  (fun inner =>
                     tryM
                       (altResp <- callWatsonxChatStyleAlt url prompt axiosOpts ;;
                        ret (Some altResp))
                       (fun altErr => ret None))
              else ret None)
             (fun innerErr => ret None) ;;
         match retried with
         | Some resp => ret resp
         | None => throw err
         end).

(** [extractJsonFromText] *)
Definition fence : Regex.t :=
  Regex.seq
    [ Regex.lit "```"; Regex.opt (Regex.lit "json"); Regex.opt (Regex.chr "010");
      Regex.Group (Regex.lazyStar Regex.any); Regex.lit "```" ].

Definition braces : Regex.t :=
  Regex.seq [ Regex.chr "{"; Regex.star Regex.any; Regex.chr "}" ].

Definition commaBefore (close : ascii) : Regex.t :=
  Regex.seq [ Regex.chr ","; Regex.star Regex.space; Regex.chr close ].

Definition extractJsonFromText (s : JS.value) : JS.value :=
  match s with
  | JS.Str s =>
      if negb (JS.truthyStr s) then JS.Null
      else
        let s := Regex.replaceAll fence Regex.dollar1 s in
        let s := Regex.replaceAll (Regex.chr "`") (fun _ => "") s in
        match Regex.search braces s with
        | Some m =>
            let jsonText := Regex.matched m in
            match JS.JSON_parse jsonText with
            | Some v => v
            | None =>
                let cleaned :=
                  Regex.replaceAll (commaBefore "]") (fun _ => "]")
                    (Regex.replaceAll (commaBefore "}") (fun _ => "}") jsonText) in
                match JS.JSON_parse cleaned with
                | Some v => v
                | None => JS.Null
                end
            end
        | None => JS.Null
        end
  | _ => JS.Null
  end.

(** [isWatsonConfigured] *)
Definition isWatsonConfigured : bool :=
  let predictionUrl := Env.WATSON_PREDICTION_URL (env out) in
  let deploymentId := Env.WATSON_DEPLOYMENT_ID (env out) in
  let baseUrl := Env.WATSON_URL (env out) in
  let apikey := Env.WATSON_APIKEY (env out) in
  if JS.truthyOpt predictionUrl then true
  else if JS.truthyOpt baseUrl && JS.truthyOpt deploymentId && JS.truthyOpt apikey
  then true
  else false.

(** The result synthesised locally in [analyzeLabReport], written twice in
    the source with the same text. *)
Definition localExplanation (a : Assessment.t) : JS.outcome JS.value :=
  explanation <~
    (if Status.eqb (Assessment.status a) Status.normal then
       match Assessment.normalRange a with
       | None =>
           Thrown (JS.TypeError "Cannot read properties of undefined (reading 'low')")
       | Some range =>
           Returned
             ("Your " ++ Assessment.key a ++ " is within the normal range ("
              ++ JS.showOpt (Conf.normalLow range) ++ "-"
              ++ JS.showOpt (Conf.normalHigh range) ++ " "
              ++ JS.nullish (Assessment.unit a) "undefined" ++ ").")
       end
     else
       Returned
         ("Your " ++ Assessment.key a ++ " is " ++ Status.name (Assessment.status a)
          ++ " (value " ++ JS.numberToString (Assessment.value a) ++ " "
          ++ JS.nullish (Assessment.unit a) "undefined"
          ++ "). Severity: " ++ Severity.name (Assessment.severity a)
          ++ ". We recommend medical follow-up.")) ;;
  Returned
    (JS.Obj [ ("key", JS.Str (Assessment.key a));
              ("explanation", JS.Str explanation);
              ("severity", JS.Str (Severity.name (Assessment.severity a))) ]).

Definition isSevere (a : Assessment.t) : bool :=
  Severity.eqb (Assessment.severity a) Severity.severe.

Definition urgent (a : Assessment.t) : JS.value :=
  JS.Str ("URGENT: see a doctor for " ++ Assessment.key a).

Definition localFallback (assessments : list Assessment.t)
  : JS.outcome LabResult.t :=
  localExplanations <~ JS.mapM localExplanation assessments ;;
  Returned
    {| LabResult.assessments := assessments;
       LabResult.result :=
         JS.Obj [ ("explanations", JS.Arr localExplanations);
                  ("action_items", JS.Arr (map urgent (filter isSevere assessments)));
                  ("questions", JS.Arr [JS.Str "Please consult a doctor for next steps."]) ];
       LabResult.rawWatson := JS.Null |}.

(** The shape sniffing of [analyzeLabReport], inside its [try]. *)
Definition sniff (watsonResp : JS.value) : JS.outcome JS.value :=
  content <~
    JS.andThen (Returned watsonResp) (fun _ =>
    JS.andThen (JS.get watsonResp "choices") (fun choices =>
    JS.andThen (JS.get choices "0") (fun choice =>
    JS.andThen (JS.get choice "message") (fun message =>
    JS.get message "content")))) ;;
  if JS.truthy content then
    let parsed := extractJsonFromText content in
    if JS.truthy parsed then Returned parsed
    else Returned (JS.Obj [("raw_assistant", content)])
  else
    first <~
      JS.andThen (JS.get watsonResp "predictions") (fun predictions =>
      JS.get predictions "0") ;;
    if JS.truthy first then
      result <~ JS.get first "result" ;;
      if JS.truthy result then Returned result
      else
        output <~ JS.get first "output" ;;
        Returned (JS.orElse output first)
    else
      generations <~
        JS.andThen (JS.get watsonResp "output") (fun output =>
        JS.get output "generations") ;;
      if JS.truthy generations then Returned generations
      else Returned watsonResp.

(** [analyzeLabReport] *)
Definition analyzeLabReport (rawText : string) (patientMeta : PatientMeta.t)
  : M LabResult.t :=
  let parsedMap := parseLabValues rawText in
  let assessments := assessAll parsedMap patientMeta in
  prompt <- lift (createWatsonPrompt assessments patientMeta) ;;
  if negb isWatsonConfigured then lift (localFallback assessments)
  else
    tryM
      (watsonResp <- callWatsonx prompt ;;
       ret (Some watsonResp))
      (fun err => ret None)
    >>= fun called =>
    match called with
    | None => lift (localFallback assessments)
    | Some watsonResp =>
        let generated :=
          match sniff watsonResp with
          | Returned g => g
          | Thrown _ => watsonResp
          end in
        ret {| LabResult.assessments := assessments;
               LabResult.result := generated;
               LabResult.rawWatson := watsonResp |}
    end.

End Gateway.

(* ================================================================== *)
(** ** reportAnalyzer.js: merging the lab insights *)
(* ================================================================== *)

(** The fields of a base analysis the merge reads or writes.  [None] is a
    field that is [undefined] or [null]. *)
Module Analysis.
Record t : Type := {
  summary : option string;
  findings : option string;
  recommendations : option string;
  labAnalysis : JS.value
}.
End Analysis.

Section Merger.

Context `{Host}.

Definition items (v : JS.value) : list JS.value :=
  match v with JS.Arr l => l | _ => [] end.

(** One bullet of [explanationBullets]. *)
Definition bullet (exp : JS.value) : JS.outcome string :=
  key <~ JS.get exp "key" ;;
  label <~
    (if JS.truthy key then
       match key with
       | JS.Str k =>
           Returned
             (JS.toUpperCase (Regex.replaceAll (Regex.chr "_") (fun _ => " ") k))
       | _ => Thrown (JS.TypeError "exp.key.replace is not a function")
       end
     else Returned "LAB RESULT") ;;
  sev <~ JS.get exp "severity" ;;
  let severity := if JS.truthy sev then " (" ++ JS.toStr sev ++ ")" else "" in
  explanation <~ JS.get exp "explanation" ;;
  raw_assistant <~
    (if JS.truthy explanation then Returned explanation
     else JS.get exp "raw_assistant") ;;
  let detail := JS.orElse raw_assistant (JS.Str "") in
  Returned (JS.trim ("• " ++ label ++ severity ++ ": " ++ JS.toStr detail)).

(** [mergeLabInsightsIntoSections]; the analysis is updated in place, so the
    function is given as the analysis it leaves behind. *)
Definition mergeLabInsightsIntoSections (analysis : Analysis.t)
  : JS.outcome Analysis.t :=
  if negb (JS.truthy (Analysis.labAnalysis analysis)) then Returned analysis
  else
    result <~ JS.get (Analysis.labAnalysis analysis) "result" ;;
    if negb (JS.truthy result) then Returned analysis
    else
      explanationsV <~ JS.get result "explanations" ;;
      actionItemsV <~ JS.get result "action_items" ;;
      let explanations := items explanationsV in
      let actionItems := items actionItemsV in
      analysis <~
        (match explanations with
         | [] => Returned analysis
         | _ =>
             bullets <~ JS.mapM bullet (firstn 3 explanations) ;;
             let explanationBullets := JS.join JS.nl bullets in
             let summary :=
               match Analysis.summary analysis with
               | Some s =>
                   if JS.truthyStr s && negb (JS.includes s "Watson Lab Highlights")
                   then Some (s ++ JS.nl ++ JS.nl ++ "🔬 **Watson AI Lab Analysis**"
                                ++ JS.nl ++ explanationBullets)
                   else Some s
               | None => None
               end in
             let findings :=
               match Analysis.findings analysis with
               | Some f =>
                   if negb (JS.truthyStr f)
                      || Regex.test (Regex.litI "No text could be extracted") f
                   then
                     let prefix := if JS.truthyStr f then f ++ JS.nl ++ JS.nl else "" in
                     Some (JS.trim (prefix ++ "**AI-Powered Lab Analysis:**"
                                      ++ JS.nl ++ explanationBullets))
                   else if negb (JS.includes f "Watson Lab")
                   then Some (f ++ JS.nl ++ JS.nl ++ "**Watson AI Insights:**"
                                ++ JS.nl ++ explanationBullets)
                   else Some f
               | None =>
                   Some (JS.trim ("**AI-Powered Lab Analysis:**"
                                    ++ JS.nl ++ explanationBullets))
               end in
             Returned
               {| Analysis.summary := summary;
                  Analysis.findings := findings;
                  Analysis.recommendations := Analysis.recommendations analysis;
                  Analysis.labAnalysis := Analysis.labAnalysis analysis |}
         end) ;;
      match actionItems, Analysis.recommendations analysis with
      | _ :: _, Some r =>
          if JS.truthyStr r && negb (JS.includes r "AI Lab Follow-ups") then
            let actionList :=
              JS.join JS.nl (map (fun item => "• " ++ JS.toStr item) actionItems) in
            Returned
              {| Analysis.summary := Analysis.summary analysis;
                 Analysis.findings := Analysis.findings analysis;
                 Analysis.recommendations :=
                   Some (r ++ JS.nl ++ JS.nl ++ "🤖 **AI-Recommended Actions**"
                           ++ JS.nl ++ actionList);
                 Analysis.labAnalysis := Analysis.labAnalysis analysis |}
          else Returned analysis
      | _, _ => Returned analysis
      end.

End Merger.

(* ================================================================== *)
(** ** reportAnalyzer.js: the narrative and the analysis with labs *)
(* ================================================================== *)

(** The analysis object of [analyzeReport] and what
    [analyzeReportWithLabs] adds to it.  The four fields the merge works on
    are kept together in [sections]. *)
Module Report.
Record t : Type := {
  sections : Analysis.t;
  terms : JS.value;
  diagnosis : JS.value;
  medications : JS.value;
  medicationInstructions : JS.value;
  alternativeMedications : JS.value;
  originalText : string;
  filename : string;
  patientMeta : option PatientMeta.t;
  labNarrative : option string
}.

(** [base.patientMeta = m] *)
Definition setPatientMeta (base : t) (m : PatientMeta.t) : t :=
  {| sections := sections base; terms := terms base;
     diagnosis := diagnosis base; medications := medications base;
     medicationInstructions := medicationInstructions base;
     alternativeMedications := alternativeMedications base;
     originalText := originalText base; filename := filename base;
     patientMeta := Some m; labNarrative := labNarrative base |}.

(** What the merge leaves in place of the four sections. *)
Definition setSections (base : t) (a : Analysis.t) : t :=
  {| sections := a; terms := terms base;
     diagnosis := diagnosis base; medications := medications base;
     medicationInstructions := medicationInstructions base;
     alternativeMedications := alternativeMedications base;
     originalText := originalText base; filename := filename base;
     patientMeta := patientMeta base; labNarrative := labNarrative base |}.

(** [base.labAnalysis = v] *)
Definition setLabAnalysis (base : t) (v : JS.value) : t :=
  setSections base
    {| Analysis.summary := Analysis.summary (sections base);
       Analysis.findings := Analysis.findings (sections base);
       Analysis.recommendations := Analysis.recommendations (sections base);
       Analysis.labAnalysis := v |}.

(** [base.labNarrative = n] *)
Definition setLabNarrative (base : t) (n : string) : t :=
  {| sections := sections base; terms := terms base;
     diagnosis := diagnosis base; medications := medications base;
     medicationInstructions := medicationInstructions base;
     alternativeMedications := alternativeMedications base;
     originalText := originalText base; filename := filename base;
     patientMeta := patientMeta base; labNarrative := Some n |}.
End Report.

(** The three tests of [analyzeReport] for a text that reports a failed
    extraction. *)
Definition extractionFailure (text : string) : bool :=
  Regex.test (Regex.litI "unable to extract text") text
  || Regex.test (Regex.litI "ocr is disabled") text
  || Regex.test (Regex.litI "unable to extract") text.

(** What [analyzeReport] returns for such a text. *)
Definition extractionFailureReport (text filename : string) : Report.t :=
  {| Report.sections :=
       {| Analysis.summary :=
            Some ("📋 **Report Overview**" ++ JS.nl ++ JS.nl
                  ++ "Unable to extract text from the uploaded file. This may be a scanned image or an unsupported file type."
                  ++ JS.nl ++ JS.nl ++ "🔍 **Key Points**" ++ JS.nl ++ JS.nl
                  ++ "• No textual content could be extracted from this file."
                  ++ JS.nl ++ JS.nl ++ "💡 **What You Should Do**" ++ JS.nl ++ JS.nl
                  ++ "1. Re-upload a machine-readable (searchable) PDF if available."
                  ++ JS.nl
                  ++ "2. If this is a scanned document, enable OCR and try again."
                  ++ JS.nl ++ "3. Contact support for help if needed.");
          Analysis.findings := Some "• No text could be extracted from this file.";
          Analysis.recommendations :=
            Some "• Please re-upload a readable document or enable OCR.";
          Analysis.labAnalysis := JS.Undefined |};
     Report.terms := JS.Str "No medical terminology could be identified.";
     Report.diagnosis := JS.Null;
     Report.medications := JS.Null;
     Report.medicationInstructions :=
       JS.Str "No medication information could be extracted.";
     Report.alternativeMedications := JS.Null;
     Report.originalText := text;
     Report.filename := filename;
     Report.patientMeta := None;
     Report.labNarrative := None |}.

Section ReportAnalyzer.

Context `{Host}.
Variable out : outside.

(** [Array.prototype.join] *)
Definition arrayJoin (sep : string) (l : list JS.value) : string :=
  JS.join sep
    (map (fun x => match x with
                   | JS.Undefined | JS.Null => ""
                   | _ => JS.toStr x
                   end) l).

(** The callback of [forEach] in [buildLabNarrative]: the sentence an
    explanation pushes, if any. *)
Definition narrativeSentence (item : JS.value) : JS.outcome (list string) :=
  k <~ JS.get item "key" ;;
  key <~
    (if JS.truthy k then
       match k with
       | JS.Str s =>
           Returned
             (JS.trim (Regex.replaceAll (Regex.chr "_") (fun _ => " ") s))
       | _ => Thrown (JS.TypeError "item.key.replace is not a function")
       end
     else Returned "This result") ;;
  sev <~ JS.get item "severity" ;;
  let severity :=
    if JS.truthy sev
    then " (severity: " ++ JS.trim (JS.toStr sev) ++ ")"
    else "" in
  explanation <~ JS.get item "explanation" ;;
  raw_assistant <~
    (if JS.truthy explanation then Returned explanation
     else JS.get item "raw_assistant") ;;
  let text := JS.orElse raw_assistant (JS.Str "") in
  if JS.truthy text
  then Returned [key ++ ": " ++ JS.toStr text ++ severity ++ "."]
  else Returned [].

(** The sentence of a list that is a non-empty array. *)
Definition listSentence (lead : string) (v : JS.value) : list string :=
  match v with
  | JS.Arr (x :: l) => [lead ++ arrayJoin "; " (x :: l) ++ "."]
  | _ => []
  end.

(** [buildLabNarrative]; [None] is [null]. *)
Definition buildLabNarrative (labAnalysis : JS.value)
  : JS.outcome (option string) :=
  if negb (JS.truthy labAnalysis) then Returned None
  else
    result <~ JS.get labAnalysis "result" ;;
    if negb (JS.truthy result) then Returned None
    else
      explanations <~ JS.get result "explanations" ;;
      pushed <~
        (match explanations with
         | JS.Arr l => JS.mapM narrativeSentence l
         | _ => Returned []
         end) ;;
      action_items <~ JS.get result "action_items" ;;
      questions <~ JS.get result "questions" ;;
      let sentences :=
        (concat pushed
         ++ listSentence "Recommended actions: " action_items
         ++ listSentence "Questions to discuss with your doctor: " questions)%list in
      match sentences with
      | [] => Returned None
      | _ => Returned (Some (JS.join " " sentences))
      end.

(** The branch of [analyzeReport] for a text that was extracted calls
    methods of the class that the file leaves out; what it returns or
    throws is left open. *)
Variable analyzeExtracted : string -> string -> JS.outcome Report.t.

(** [analyzeReport] *)
Definition analyzeReport (text filename : string) : JS.outcome Report.t :=
  if extractionFailure text then Returned (extractionFailureReport text filename)
  else analyzeExtracted text filename.

(** [String(e)] and [e.stack], which the engine provides. *)
Variable errorString : JS.error -> string.
Variable errorStack : JS.error -> JS.value.

(** The [catch] of [analyzeReportWithLabs]. *)
Definition labAnalysisFailed (base : Report.t) (e : JS.error) : Report.t :=
  Report.setLabAnalysis base
    (JS.Obj [ ("error",
               JS.Str (if JS.truthyStr (JS.message e) then JS.message e
                       else errorString e));
              ("stack",
               if JS.truthy (errorStack e) then errorStack e
               else JS.Undefined) ]).

(** [analyzeReportWithLabs].  The base analysis is updated in place, so
    what the [catch] finds is the analysis as the statements before the
    throw left it. *)
Definition analyzeReportWithLabs (text filename : string)
    (patientMeta : PatientMeta.t) : M Report.t :=
  base <- lift (analyzeReport text filename) ;;
  let base := Report.setPatientMeta base patientMeta in
  tryM
    (labResult <- analyzeLabReport out text patientMeta ;;
     if JS.truthy (LabResult.result labResult) then
       let base := Report.setLabAnalysis base (LabResult.toValue labResult) in
       match mergeLabInsightsIntoSections (Report.sections base) with
       | Thrown e => ret (labAnalysisFailed base e)
       | Returned merged =>
           let base := Report.setSections base merged in
           match buildLabNarrative (LabResult.toValue labResult) with
           | Thrown e => ret (labAnalysisFailed base e)
           | Returned (Some labNarrative) =>
               if JS.truthyStr labNarrative
               then ret (Report.setLabNarrative base labNarrative)
               else ret base
           | Returned None => ret base
           end
       end
     else
       ret (Report.setLabAnalysis base
              (JS.Obj [ ("error", JS.Str "Watson analysis returned no results");
                        ("rawResponse", LabResult.toValue labResult) ])))
    (fun e => ret (labAnalysisFailed base e)).

End ReportAnalyzer.

(* ================================================================== *)
(** ** app.js: the upload filter, text extraction and patient metadata *)
(* ================================================================== *)

(** [/\.(pdf|png|jpg|jpeg|txt)$/i] *)
Definition allowedTypes : Regex.t :=
  Regex.seq
    [ Regex.chr ".";
      Regex.Group
        (Regex.Alt (Regex.litI "pdf")
           (Regex.Alt (Regex.litI "png")
              (Regex.Alt (Regex.litI "jpg")
                 (Regex.Alt (Regex.litI "jpeg") (Regex.litI "txt")))));
      Regex.Eol ].

(** The [fileFilter] of the upload: [cb(null, true)] is [Returned true],
    [cb(new Error(...))] is [Thrown]. *)
Definition fileFilter (originalname : string) : JS.outcome bool :=
  if Regex.test allowedTypes originalname then Returned true
  else
    Thrown
      (JS.newError
         "Invalid file type. Only PDF, PNG, JPG, JPEG, and TXT files are allowed.").

(** What [extractTextFromFile] finds outside the program. *)
Module Files.
Record t : Type := {
  (** [process.env.ENABLE_OCR] and [process.env.OCR_LANG] *)
  ENABLE_OCR_env : option string;
  OCR_LANG_env : option string;
  (** [path.extname] *)
  extname : string -> string;
  (** [fs.readFileSync(path, 'utf8')] *)
  readText : string -> JS.error + string;
  (** [require('pdf-parse')], [fs.readFileSync(path)] and [pdfParse]: what
      one of them throws or the parser rejects with, or what the parser
      resolves with *)
  pdfParse : string -> JS.error + JS.value;
  (** [extractTextFromFile] of [services/ocr], with its [require] *)
  extractWithOcr : string -> string -> JS.error + JS.value
}.
End Files.

Section TextExtraction.

Variable files : Files.t.

Definition ENABLE_OCR : bool :=
  match Files.ENABLE_OCR_env files with
  | Some v => String.eqb v "true"
  | None => false
  end.

Definition OCR_LANG : string := JS.orStr (Files.OCR_LANG_env files) "eng".

(** [t && t.trim().length > 0] for a string *)
Definition hasText (t : string) : bool :=
  JS.truthyStr t && (0 <? String.length (JS.trim t))%nat.

(** [v && v.trim().length > 0]: the text when the test succeeds; a truthy
    value that is no string has no [trim], and the test throws. *)
Definition textOf (what : string) (v : JS.value) : JS.outcome (option string) :=
  match v with
  | JS.Str t => Returned (if hasText t then Some t else None)
  | _ =>
      if JS.truthy v
      then Thrown (JS.TypeError (what ++ ".trim is not a function"))
      else Returned None
  end.

(** The attempt with OCR, inside its [try]. *)
Definition ocrAttempt (filePath : string) : JS.outcome (option string) :=
  match Files.extractWithOcr files filePath OCR_LANG with
  | inl err => Thrown err
  | inr ocrText => textOf "ocrText" ocrText
  end.

(** The three blocks of [extractTextFromFile], last first: image files,
    which end in the final [throw]; PDF files; text files. *)
Definition fromImage (filePath fileExtension : string) : JS.outcome string :=
  if existsb (String.eqb fileExtension)
       [".png"; ".jpg"; ".jpeg"; ".tif"; ".tiff"; ".bmp"]
  then
    if negb ENABLE_OCR then
      Thrown
        (JS.newError
           "Image files require OCR to be enabled. Please set ENABLE_OCR=true in your environment or upload a text-based file.")
    else
      match
        (found <~ ocrAttempt filePath ;;
         match found with
         | Some ocrText => Returned ocrText
         | None =>
             Thrown (JS.newError "OCR did not extract any text from the image")
         end)
      with
      | Returned ocrText => Returned ocrText
      | Thrown err =>
          Thrown
            (JS.newError
               ("Failed to extract text from image: " ++ JS.message err))
      end
  else Thrown (JS.newError ("Unsupported file type: " ++ fileExtension)).

Definition fromPdf (filePath fileExtension : string) : JS.outcome string :=
  if String.eqb fileExtension ".pdf" then
    let parsedText :=
      match Files.pdfParse files filePath with
      | inl _ => None
      | inr parsed =>
          if JS.truthy parsed then
            match JS.bind (JS.get parsed "text") (textOf "parsed.text") with
            | Returned found => found
            | Thrown _ => None
            end
          else None
      end in
    match parsedText with
    | Some text => Returned text
    | None =>
        let ocrText :=
          if ENABLE_OCR then
            match ocrAttempt filePath with
            | Returned found => found
            | Thrown _ => None
            end
          else None in
        match ocrText with
        | Some text => Returned text
        | None =>
            Thrown
              (JS.newError
                 "Unable to extract text from PDF. The file may be scanned or image-based. Please enable OCR or upload a searchable PDF.")
        end
    end
  else fromImage filePath fileExtension.

(** [extractTextFromFile] of the server *)
Definition extractTextFromFile (filePath : string) : JS.outcome string :=
  let fileExtension := JS.toLowerCase (Files.extname files filePath) in
  if String.eqb fileExtension ".txt" then
    match Files.readText files filePath with
    | inl _ => Thrown (JS.newError "Failed to read text file")
    | inr text =>
        if hasText text then Returned text
        else fromPdf filePath fileExtension
    end
  else fromPdf filePath fileExtension.

End TextExtraction.

(** [.], without the [s] flag: any character but a line terminator. *)
Definition dot : Regex.t :=
  Regex.Chars (fun c => negb (Ascii.eqb c "010" || Ascii.eqb c "013")).

(** [/Patient Name:\s*(.+?)(?:\n|$)/i] and its like for the date of birth *)
Definition lineAfter (label : string) : Regex.t :=
  Regex.seq
    [ Regex.litI label; Regex.star Regex.space;
      Regex.Group (Regex.Rep false 1 None dot);
      Regex.Alt (Regex.chr "010") Regex.Eol ].

Definition reName : Regex.t := lineAfter "Patient Name:".
Definition reDob : Regex.t := lineAfter "Date of Birth:".

(** [/Sex:\s*(Male|Female|Other)/i] *)
Definition reSex : Regex.t :=
  Regex.seq
    [ Regex.litI "Sex:"; Regex.star Regex.space;
      Regex.Group
        (Regex.Alt (Regex.litI "Male")
           (Regex.Alt (Regex.litI "Female") (Regex.litI "Other"))) ].

(** [/\((\d+)\s+years?\)/i] *)
Definition reAge : Regex.t :=
  Regex.seq
    [ Regex.chr "("; Regex.Group (Regex.plus Regex.digit);
      Regex.plus Regex.space; Regex.litI "year"; Regex.opt (Regex.chrI "s");
      Regex.chr ")" ].

(** [parseInt(s, 10)]: the integer its digits write, as a double *)
Definition parseInt (s : string) : JS.number :=
  let t := JS.trimStart s in
  let '(negative, digits) :=
    match t with
    | String "-" t' => (true, t')
    | String "+" t' => (false, t')
    | _ => (false, t)
    end in
  let '(n, count, _) := JS.readDigits digits 0%Z 0%nat in
  if (count =? 0)%nat then JS.NaN
  else if negative then JS.neg (JS.nearestDouble n) else JS.nearestDouble n.

(** [const m = text.match(re); if (m) ... m[1]] *)
Definition firstGroup (re : Regex.t) (text : string) : option string :=
  option_map Regex.dollar1 (Regex.search re text).

(** [extractPatientMetadata] *)
Definition extractPatientMetadata (text : string) : PatientMeta.t :=
  if negb (JS.truthyStr text) then PatientMeta.empty
  else
    {| PatientMeta.name := option_map JS.trim (firstGroup reName text);
       PatientMeta.dob := option_map JS.trim (firstGroup reDob text);
       PatientMeta.sex := option_map JS.trim (firstGroup reSex text);
       PatientMeta.age := option_map parseInt (firstGroup reAge text) |}.

(* ================================================================== *)
(** ** services/cos.js: the client *)
(* ================================================================== *)

Module CosEnv.
Record t : Type := {
  COS_ENDPOINT : option string;
  COS_API_KEY_ID : option string;
  COS_RESOURCE_INSTANCE_ID : option string;
  COS_SERVICE_INSTANCE_ID : option string;
  COS_REGION : option string
}.
End CosEnv.

(** The options [createClient] hands to [new COS.S3]. *)
Module CosOptions.
Record t : Type := {
  endpoint : string;
  apiKeyId : string;
  serviceInstanceId : string;
  region : string;
  signatureVersion : string
}.
End CosOptions.

(** [/^https?:\/\//i], which can match at the start only *)
Definition scheme : Regex.t :=
  Regex.seq [ Regex.litI "http"; Regex.opt (Regex.chrI "s"); Regex.lit "://" ].

Definition testAtStart (r : Regex.t) (s : string) : bool :=
  match Regex.matchAt r s with Some _ => true | None => false end.

Section Cos.

Variable cosEnv : CosEnv.t.

(** [new COS.S3(options)]: the error the constructor throws, if any.  A
    client that was built is told by its options. *)
Variable newS3 : CosOptions.t -> option JS.error.

(** [String(err)] *)
Variable errorString : JS.error -> string.

(** [createClient] *)
Definition createClient : JS.outcome CosOptions.t :=
  let endpoint := CosEnv.COS_ENDPOINT cosEnv in
  let apiKeyId := CosEnv.COS_API_KEY_ID cosEnv in
  let serviceInstanceId :=
    if JS.truthyOpt (CosEnv.COS_RESOURCE_INSTANCE_ID cosEnv)
    then CosEnv.COS_RESOURCE_INSTANCE_ID cosEnv
    else CosEnv.COS_SERVICE_INSTANCE_ID cosEnv in
  let region := JS.orStr (CosEnv.COS_REGION cosEnv) "us-standard" in
  if negb (JS.truthyOpt endpoint) || negb (JS.truthyOpt apiKeyId)
     || negb (JS.truthyOpt serviceInstanceId)
  then
    Thrown
      (JS.newError
         "IBM COS not configured. Set COS_ENDPOINT, COS_API_KEY_ID and COS_RESOURCE_INSTANCE_ID in env.")
  else
    let endpoint := JS.orStr endpoint "" in
    let normalizedEndpoint :=
      if negb (testAtStart scheme endpoint) then "https://" ++ endpoint
      else endpoint in
    let options :=
      {| CosOptions.endpoint := normalizedEndpoint;
         CosOptions.apiKeyId := JS.orStr apiKeyId "";
         CosOptions.serviceInstanceId := JS.orStr serviceInstanceId "";
         CosOptions.region := region;
         CosOptions.signatureVersion := "iam" |} in
    match newS3 options with
    | None => Returned options
    | Some err =>
        Thrown
          (JS.newError
             ("Failed to create IBM COS client for endpoint="
              ++ normalizedEndpoint ++ " region=" ++ region ++ ": "
              ++ (if JS.truthyStr (JS.message err) then JS.message err
                  else errorString err)))
    end.

End Cos.

(* ================================================================== *)
(** ** A reference host

    One implementation of the built-ins, for running the model: numbers are
    printed exactly when their decimal expansion ends within twenty places,
    and [JSON_parse] follows the JSON grammar over ASCII. *)
(* ================================================================== *)

Module RefHost.

Fixpoint showPosAux (fuel : nat) (n : Z) (acc : string) : string :=
  match fuel with
  | O => acc
  | S fuel' =>
      let acc' := String (ascii_of_nat (48 + Z.to_nat (n mod 10))) acc in
      if (n / 10 =? 0)%Z then acc' else showPosAux fuel' (n / 10) acc'
  end.

Definition showZ (n : Z) : string :=
  let body := showPosAux (S (Z.to_nat (Z.log2 (Z.abs n)))) (Z.abs n) "" in
  if (n <? 0)%Z then "-" ++ body else body.

Fixpoint showFrac (fuel : nat) (r d : Z) : string :=
  match fuel with
  | O => ""
  | S fuel' =>
      if (r =? 0)%Z then ""
      else String (ascii_of_nat (48 + Z.to_nat (r * 10 / d)))
             (showFrac fuel' (r * 10 mod d) d)
  end.

Definition numberToString (n : JS.number) : string :=
  match n with
  | JS.NaN => "NaN"
  | JS.PosInf => "Infinity"
  | JS.NegInf => "-Infinity"
  | JS.Fin q =>
      let a := Z.abs (Qnum q) in
      let d := Zpos (Qden q) in
      let frac := showFrac 20 (a mod d) d in
      (if (Qnum q <? 0)%Z then "-" else "") ++ showZ (a / d)
      ++ (if JS.truthyStr frac then "." ++ frac else "")
  end.

(** Numbers of the JSON grammar: an optional minus sign, an integer part
    without a leading zero, an optional fraction, an optional exponent. *)
Definition pow10 (e : Z) : Q :=
  if (e <? 0)%Z then (1 # Pos.of_nat (10 ^ Z.to_nat (- e)))%Q
  else inject_Z (10 ^ e).

Definition readExponent (s : string) : option (Z * string) :=
  match s with
  | String c r =>
      if Ascii.eqb c "e" || Ascii.eqb c "E" then
        let '(neg, r) :=
          match r with
          | String "-" r' => (true, r')
          | String "+" r' => (false, r')
          | _ => (false, r)
          end in
        let '(e, n, rest) := JS.readDigits r 0%Z 0 in
        if (n =? 0)%nat then None
        else Some (if neg then (- e)%Z else e, rest)
      else Some (0%Z, s)
  | EmptyString => Some (0%Z, s)
  end.

Definition readNumber (s : string) : option (JS.number * string) :=
  let '(neg, s) :=
    match s with String "-" r => (true, r) | _ => (false, s) end in
  let '(ip, ni, rest) := JS.readDigits s 0%Z 0 in
  if (ni =? 0)%nat then None
  else if JS.startsWith "0" s && (1 <? ni)%nat then None
  else
    let fraction :=
      match rest with
      | String "." r =>
          let '(fp, nf, rest') := JS.readDigits r 0%Z 0 in
          if (nf =? 0)%nat then None
          else Some ((fp # Pos.of_nat (10 ^ nf))%Q, rest')
      | _ => Some (0%Q, rest)
      end in
    match fraction with
    | None => None
    | Some (f, rest) =>
        match readExponent rest with
        | None => None
        | Some (e, rest) =>
            let m := ((inject_Z ip + f) * pow10 e)%Q in
            Some (JS.Fin (Qred (if neg then - m else m)%Q), rest)
        end
    end.

Definition hexVal (c : ascii) : option nat :=
  let n := nat_of_ascii c in
  if JS.between 48 57 n then Some (n - 48)
  else if JS.between 97 102 n then Some (n - 87)
  else if JS.between 65 70 n then Some (n - 55)
  else None.

(** The characters of a string literal after its opening quote. *)
Fixpoint readString (s : string) : option (string * string) :=
  match s with
  | EmptyString => None
  | String "034" rest => Some (EmptyString, rest)
  | String "\" (String e rest) =>
      let simple (c : ascii) :=
        match readString rest with
        | Some (body, rest') => Some (String c body, rest')
        | None => None
        end in
      if Ascii.eqb e "034" then simple "034"%char
      else if Ascii.eqb e "\" then simple "\"%char
      else if Ascii.eqb e "/" then simple "/"%char
      else if Ascii.eqb e "b" then simple "008"%char
      else if Ascii.eqb e "f" then simple "012"%char
      else if Ascii.eqb e "n" then simple "010"%char
      else if Ascii.eqb e "r" then simple "013"%char
      else if Ascii.eqb e "t" then simple "009"%char
      else if Ascii.eqb e "u" then
        match rest with
        | String a (String b (String c (String d rest')) as tail) =>
            match hexVal a, hexVal b, hexVal c, hexVal d with
            | Some 0, Some 0, Some h, Some l =>
                if (h <? 8)%nat then
                  match readString (match tail with String _ (String _ r) => r | _ => tail end) with
                  | Some (body, rest'') =>
                      Some (String (ascii_of_nat (16 * h + l)) body, rest'')
                  | None => None
                  end
                else None
            | _, _, _, _ => None
            end
        | _ => None
        end
      else None
  | String c rest =>
      if (nat_of_ascii c <? 32)%nat then None
      else
        match readString rest with
        | Some (body, rest') => Some (String c body, rest')
        | None => None
        end
  end.

Fixpoint skipWs (s : string) : string :=
  match s with
  | String c s' =>
      let n := nat_of_ascii c in
      if (n =? 32)%nat || (n =? 9)%nat || (n =? 10)%nat || (n =? 13)%nat
      then skipWs s' else s
  | EmptyString => s
  end.

Fixpoint readValue (fuel : nat) (s : string) : option (JS.value * string) :=
  match fuel with
  | O => None
  | S fuel' =>
      match skipWs s with
      | String "{" r =>
          match skipWs r with
          | String "}" r' => Some (JS.Obj [], r')
          | r' => readMembers fuel' r' []
          end
      | String "[" r =>
          match skipWs r with
          | String "]" r' => Some (JS.Arr [], r')
          | r' => readElements fuel' r' []
          end
      | String "034" r =>
          match readString r with
          | Some (str, r') => Some (JS.Str str, r')
          | None => None
          end
      | String _ _ as s' =>
          if JS.startsWith "true" s' then Some (JS.Bool true, substring 4 (String.length s') s')
          else if JS.startsWith "false" s' then Some (JS.Bool false, substring 5 (String.length s') s')
          else if JS.startsWith "null" s' then Some (JS.Null, substring 4 (String.length s') s')
          else
            match readNumber s' with
            | Some (n, r') => Some (JS.Num n, r')
            | None => None
            end
      | EmptyString => None
      end
  end
with readMembers (fuel : nat) (s : string) (acc : list (string * JS.value))
  : option (JS.value * string) :=
  match fuel with
  | O => None
  | S fuel' =>
      match skipWs s with
      | String "034" r =>
          match readString r with
          | Some (k, r1) =>
              match skipWs r1 with
              | String ":" r2 =>
                  match readValue fuel' r2 with
                  | Some (v, r3) =>
                      match skipWs r3 with
                      | String "," r4 => readMembers fuel' r4 (JS.setProp k v acc)
                      | String "}" r4 => Some (JS.Obj (JS.setProp k v acc), r4)
                      | _ => None
                      end
                  | None => None
                  end
              | _ => None
              end
          | None => None
          end
      | _ => None
      end
  end
with readElements (fuel : nat) (s : string) (acc : list JS.value)
  : option (JS.value * string) :=
  match fuel with
  | O => None
  | S fuel' =>
      match readValue fuel' s with
      | Some (v, r) =>
          match skipWs r with
          | String "," r' => readElements fuel' r' (acc ++ [v])%list
          | String "]" r' => Some (JS.Arr (acc ++ [v])%list, r')
          | _ => None
          end
      | None => None
      end
  end.

(** [JSON.parse]; [None] for a [SyntaxError]. *)
Definition JSON_parse (s : string) : option JS.value :=
  match readValue (S (String.length s)) s with
  | Some (v, rest) =>
      match skipWs rest with
      | EmptyString => Some v
      | _ => None
      end
  | None => None
  end.

(** [JSON.stringify] *)
Fixpoint quoteBody (s : string) : string :=
  match s with
  | EmptyString => ""
  | String c s' =>
      (if Ascii.eqb c "034" then String "\" (String "034" EmptyString)
       else if Ascii.eqb c "\" then "\\"
       else if Ascii.eqb c "010" then "\n"
       else if Ascii.eqb c "013" then "\r"
       else if Ascii.eqb c "009" then "\t"
       else String c "") ++ quoteBody s'
  end.

Definition quote (s : string) : string :=
  String "034" (quoteBody s ++ String "034" EmptyString).

Fixpoint JSON_stringify (v : JS.value) : string :=
  match v with
  | JS.Undefined | JS.Null => "null"
  | JS.Bool true => "true"
  | JS.Bool false => "false"
  | JS.Num (JS.Fin q) => numberToString (JS.Fin q)
  | JS.Num _ => "null"
  | JS.Str s => quote s
  | JS.Arr l => "[" ++ JS.join "," (map JSON_stringify l) ++ "]"
  | JS.Obj fields =>
      "{" ++ JS.join ","
               ((fix members (l : list (string * JS.value)) : list string :=
                   match l with
                   | [] => []
                   | (_, JS.Undefined) :: l' => members l'
                   | (k, x) :: l' =>
                       (quote k ++ ":" ++ JSON_stringify x) :: members l'
                   end) fields)
      ++ "}"
  end.

(** ToNumber *)
Definition toNumber (v : JS.value) : JS.number :=
  match v with
  | JS.Undefined => JS.NaN
  | JS.Null => JS.Fin 0
  | JS.Bool true => JS.Fin 1
  | JS.Bool false => JS.Fin 0
  | JS.Num n => n
  | JS.Str s =>
      match JS.trim s with
      | EmptyString => JS.Fin 0
      | t =>
          match readNumber t with
          | Some (n, EmptyString) => n
          | _ => JS.NaN
          end
      end
  | _ => JS.NaN
  end.

(** [URLSearchParams.prototype.toString] *)
Definition hexDigit (n : nat) : ascii :=
  if (n <? 10)%nat then ascii_of_nat (48 + n) else ascii_of_nat (55 + n).

Fixpoint encode (s : string) : string :=
  match s with
  | EmptyString => ""
  | String c s' =>
      let n := nat_of_ascii c in
      (if JS.between 48 57 n || JS.between 65 90 n || JS.between 97 122 n
          || Ascii.eqb c "*" || Ascii.eqb c "-" || Ascii.eqb c "." || Ascii.eqb c "_"
       then String c ""
       else if Ascii.eqb c " " then "+"
       else String "%" (String (hexDigit (n / 16)) (String (hexDigit (n mod 16)) "")))
      ++ encode s'
  end.

Definition formEncode (fields : list (string * string)) : string :=
  JS.join "&" (map (fun kv => encode (fst kv) ++ "=" ++ encode (snd kv)) fields).

#[export] Instance host : Host :=
  {| JS.numberToString := numberToString;
     JS.toNumber := toNumber;
     JS.JSON_stringify := JSON_stringify;
     JS.JSON_parse := JSON_parse;
     JS.formEncode := formEncode |}.

End RefHost.

(* ================================================================== *)
(** ** Inputs used in the examples *)
(* ================================================================== *)

Definition male : PatientMeta.t :=
  {| PatientMeta.name := None; PatientMeta.dob := None;
     PatientMeta.sex := Some "Male"; PatientMeta.age := None |}.

Definition dq : string := JS.dq.

(** The texts [{"a":1}], [{"a":1,}], [{"a":1} and {"b":2}], and an object
    whose only value is a string holding one backtick. *)
Definition objA : string := "{" ++ dq ++ "a" ++ dq ++ ":1}".
Definition objAComma : string := "{" ++ dq ++ "a" ++ dq ++ ":1,}".
Definition twoObjects : string := objA ++ " and {" ++ dq ++ "b" ++ dq ++ ":2}".
Definition objTick : string :=
  "{" ++ dq ++ "a" ++ dq ++ ":" ++ dq ++ "`" ++ dq ++ "}".

(** An object wrapped in a json fence. *)
Definition fenced (t : string) : string :=
  "```json" ++ JS.nl ++ t ++ JS.nl ++ "```".

(** A base analysis with the result of a lab analysis attached. *)
Definition sampleBase : Analysis.t :=
  {| Analysis.summary := Some "Summary.";
     Analysis.findings := Some "Findings.";
     Analysis.recommendations := Some "Rest.";
     Analysis.labAnalysis :=
       JS.Obj
         [ ("assessments", JS.Arr []);
           ("result",
            JS.Obj
              [ ("explanations",
                 JS.Arr [ JS.Obj [ ("key", JS.Str "hemoglobin");
                                   ("explanation", JS.Str "Low.");
                                   ("severity", JS.Str "severe") ] ]);
                ("action_items",
                 JS.Arr [ JS.Str "URGENT: see a doctor for hemoglobin" ]);
                ("questions",
                 JS.Arr [ JS.Str "Please consult a doctor for next steps." ]) ]);
           ("rawWatson", JS.Null) ] |}.

(** What follows the quantifier in [braces], and the verdict of
    [commaBefore] once its comma is read. *)
Definition closing : Regex.cont :=
  fun s cap => Regex.run (Regex.chr "}") s cap Regex.accept.

Definition closes (close : ascii) (s : string) : Regex.result :=
  match JS.trimStart s with
  | String d rest => if Ascii.eqb close d then Some (rest, None) else None
  | EmptyString => None
  end.

(** A table whose only entry has an upper bound and nothing else: no lower
    bound, no unit, no cutoffs. *)
Definition upperOnly : Conf.table :=
  [ ("ldl",
     {| Conf.unit := None;
        Conf.bounds := {| Conf.normalLow := None;
                          Conf.normalHigh := Some (JS.Fin 100) |};
        Conf.bySex := [];
        Conf.severity := {| Conf.mild := None; Conf.moderate := None;
                            Conf.severe := None |} |}) ].

(** A table whose only entry has a lower bound of zero. *)
Definition zeroFloor : Conf.table :=
  [ ("crp",
     {| Conf.unit := Some "mg/L";
        Conf.bounds := {| Conf.normalLow := Some (JS.Fin 0);
                          Conf.normalHigh := Some (JS.Fin 3) |};
        Conf.bySex := [];
        Conf.severity := {| Conf.mild := None; Conf.moderate := None;
                            Conf.severe := None |} |}) ].

(** A process set up for the token flow, whose token service grants a token
    for an hour. *)
Definition iamService : outside :=
  {| env :=
       {| Env.WATSON_PREDICTION_URL := Some "https://service.test/predictions";
          Env.WATSON_DEPLOYMENT_ID := None;
          Env.WATSON_URL := None;
          Env.WATSON_APIKEY := Some "key";
          Env.WATSON_REQUEST_STYLE := None;
          Env.WATSON_AUTH_FLOW := Some "IAM";
          Env.WATSON_IAM_URL := None |};
     net := fun _ _ =>
              inr (JS.Obj [ ("access_token", JS.Str "t0");
                            ("expires_in", JS.Num (JS.Fin 3600)) ]);
     clock := fun _ => JS.Fin 0 |}.

(** A process set up with a base URL that ends in a slash and a deployment
    identifier. *)
Definition deployed : outside :=
  {| env :=
       {| Env.WATSON_PREDICTION_URL := None;
          Env.WATSON_DEPLOYMENT_ID := Some "d1";
          Env.WATSON_URL := Some "https://service.test/";
          Env.WATSON_APIKEY := Some "key";
          Env.WATSON_REQUEST_STYLE := None;
          Env.WATSON_AUTH_FLOW := None;
          Env.WATSON_IAM_URL := None |};
     net := fun _ _ => inr (JS.Obj []);
     clock := fun _ => JS.Fin 0 |}.

(** A chat endpoint that rejects every request, each with an error of its
    own. *)
Definition refusing : outside :=
  {| env :=
       {| Env.WATSON_PREDICTION_URL := Some "https://service.test/text/chat";
          Env.WATSON_DEPLOYMENT_ID := None;
          Env.WATSON_URL := None;
          Env.WATSON_APIKEY := Some "key";
          Env.WATSON_REQUEST_STYLE := None;
          Env.WATSON_AUTH_FLOW := None;
          Env.WATSON_IAM_URL := None |};
     net := fun n _ => inl (JS.newError ("attempt " ++ JS.showNat n));
     clock := fun _ => JS.Fin 0 |}.

(** A process with a prediction URL and nothing else. *)
Definition keyless : outside :=
  {| env :=
       {| Env.WATSON_PREDICTION_URL := Some "https://service.test/predictions";
          Env.WATSON_DEPLOYMENT_ID := None;
          Env.WATSON_URL := None;
          Env.WATSON_APIKEY := None;
          Env.WATSON_REQUEST_STYLE := None;
          Env.WATSON_AUTH_FLOW := None;
          Env.WATSON_IAM_URL := None |};
     net := fun _ _ => inr (JS.Obj []);
     clock := fun _ => JS.Fin 0 |}.

(* ================================================================== *)
(** ** What the expressions match *)
(* ================================================================== *)

(** What an expression can match, whatever the order in which the matcher
    tries things: [Matches r s cap s' cap'] when [r] matches a prefix of [s]
    and leaves [s'], taking the text of group 1 from [cap] to [cap']. *)
Inductive Matches :
  Regex.t -> string -> option string -> string -> option string -> Prop :=
| M_Eps s cap : Matches Regex.Eps s cap s cap
| M_Chars (p : ascii -> bool) c s cap :
    p c = true -> Matches (Regex.Chars p) (String c s) cap s cap
| M_Seq a b s cap s1 cap1 s2 cap2 :
    Matches a s cap s1 cap1 -> Matches b s1 cap1 s2 cap2 ->
    Matches (Regex.Seq a b) s cap s2 cap2
| M_AltL a b s cap s' cap' :
    Matches a s cap s' cap' -> Matches (Regex.Alt a b) s cap s' cap'
| M_AltR a b s cap s' cap' :
    Matches b s cap s' cap' -> Matches (Regex.Alt a b) s cap s' cap'
| M_RepStop g hi body s cap : Matches (Regex.Rep g 0 hi body) s cap s cap
| M_RepMore g lo hi body s cap s1 cap1 s' cap' :
    Regex.below hi 0 = true ->
    Matches body s cap s1 cap1 ->
    String.length s1 < String.length s ->
    Matches (Regex.Rep g (pred lo) (option_map pred hi) body) s1 cap1 s' cap' ->
    Matches (Regex.Rep g lo hi body) s cap s' cap'
| M_Group body s cap s' cap0 :
    Matches body s cap s' cap0 ->
    Matches (Regex.Group body) s cap s'
      (Some (substring 0 (String.length s - String.length s') s))
| M_Eol cap : Matches Regex.Eol "" cap "" cap.

(** The upper bound that is left after [n] iterations. *)
Definition less (hi : option nat) (n : nat) : option nat :=
  option_map (fun h => h - n) hi.


(** Expressions that hold no group. *)
Fixpoint groupless (r : Regex.t) : bool :=
  match r with
  | Regex.Seq a b | Regex.Alt a b => groupless a && groupless b
  | Regex.Rep _ _ _ body => groupless body
  | Regex.Group _ => false
  | _ => true
  end.

(* ================================================================== *)
(** ** Shapes of lab results *)
(* ================================================================== *)

(** The explanations of the local fallback are objects with three strings. *)
Definition explained (e : JS.value) : Prop :=
  exists k x s,
    e = JS.Obj [("key", JS.Str k); ("explanation", JS.Str x); ("severity", JS.Str s)]
    /\ x <> "" /\ s <> "".

(** Whether the field holds the result of the lab analysis or the record of
    a failure. *)
Definition labOutcome (v : JS.value) (lr : JS.outcome LabResult.t) : Prop :=
  match lr with
  | Returned r =>
      (JS.truthy (LabResult.result r) = true /\
       (v = LabResult.toValue r
        \/ exists msg stack, v = JS.Obj [("error", JS.Str msg); ("stack", stack)]))
      \/ (JS.truthy (LabResult.result r) = false /\
          v = JS.Obj [ ("error", JS.Str "Watson analysis returned no results");
                       ("rawResponse", LabResult.toValue r) ])
  | Thrown e =>
      exists msg stack, v = JS.Obj [("error", JS.Str msg); ("stack", stack)]
  end.

(* ================================================================== *)
(** ** More example inputs *)
(* ================================================================== *)

(** A run of nines. *)
Fixpoint nines (n : nat) : string :=
  match n with
  | O => ""
  | S n' => String "9" (nines n')
  end.

(** A machine where every path is a text file that holds one reading, with
    no PDF parser and no OCR at hand; and the same machine with a text file
    of white space. *)
Definition textFiles : Files.t :=
  {| Files.ENABLE_OCR_env := None;
     Files.OCR_LANG_env := None;
     Files.extname := fun _ => ".TXT";
     Files.readText := fun _ => inr "Hemoglobin: 8.9 g/dL";
     Files.pdfParse := fun _ => inl (JS.newError "Invalid PDF structure");
     Files.extractWithOcr := fun _ _ => inl (JS.newError "Cannot find module") |}.

Definition blankFiles : Files.t :=
  {| Files.ENABLE_OCR_env := None;
     Files.OCR_LANG_env := None;
     Files.extname := fun _ => ".TXT";
     Files.readText := fun _ => inr ("  " ++ JS.nl);
     Files.pdfParse := fun _ => inl (JS.newError "Invalid PDF structure");
     Files.extractWithOcr := fun _ _ => inl (JS.newError "Cannot find module") |}.

(** An account whose endpoint is given without a scheme and whose instance
    is named by the older variable. *)
Definition cosAccount : CosEnv.t :=
  {| CosEnv.COS_ENDPOINT := Some "s3.service.test";
     CosEnv.COS_API_KEY_ID := Some "key";
     CosEnv.COS_RESOURCE_INSTANCE_ID := None;
     CosEnv.COS_SERVICE_INSTANCE_ID := Some "crn:1";
     CosEnv.COS_REGION := None |}.

(** A stand-in for the branch of [analyzeReport] the file leaves out: it
    returns the same three sections for every text. *)
Definition plainAnalysis (text filename : string) : JS.outcome Report.t :=
  Returned
    {| Report.sections :=
         {| Analysis.summary := Some "Summary.";
            Analysis.findings := Some "Findings.";
            Analysis.recommendations := Some "Rest.";
            Analysis.labAnalysis := JS.Undefined |};
       Report.terms := JS.Str "";
       Report.diagnosis := JS.Str "No specific diagnosis mentioned in the report.";
       Report.medications := JS.Null;
       Report.medicationInstructions := JS.Str "";
       Report.alternativeMedications := JS.Null;
       Report.originalText := substring 0 500 text ++ "...";
       Report.filename := filename;
       Report.patientMeta := None;
       Report.labNarrative := None |}.

(** The body of a chat answer whose message is the given text. *)
Definition chatAnswer (content : string) : JS.value :=
  JS.Obj [ ("choices",
            JS.Arr [ JS.Obj [ ("message",
                               JS.Obj [ ("role", JS.Str "assistant");
                                        ("content", JS.Str content) ]) ] ]) ].

(** The options [createClient] builds for [cosAccount]. *)
Definition cosOptions : CosOptions.t :=
  {| CosOptions.endpoint := "https://s3.service.test";
     CosOptions.apiKeyId := "key";
     CosOptions.serviceInstanceId := "crn:1";
     CosOptions.region := "us-standard";
     CosOptions.signatureVersion := "iam" |}.

(** A text with one reading far below its range, and an answer of the
    service whose list of explanations holds [null]. *)
Definition severeText : string := "Hemoglobin: 5.1 g/dL".

Definition brokenAnswer : JS.value :=
  chatAnswer ("{" ++ dq ++ "explanations" ++ dq ++ ":[null]}").

(* ================================================================== *)
(** * Properties *)
(* ================================================================== *)


(** ** Numbers *)

Lemma Qltb_lt x y : JS.Qltb x y = true <-> (x < y)%Q.
Proof.
  unfold JS.Qltb. rewrite negb_true_iff.
  split; intro Hxy.
  - apply Qnot_le_lt. intro Hle. apply Qle_bool_iff in Hle. congruence.
  - apply not_true_is_false. intro Hle. apply Qle_bool_iff in Hle. lra.
Qed.

Lemma Qltb_ge x y : JS.Qltb x y = false <-> (y <= x)%Q.
Proof.
  unfold JS.Qltb. rewrite negb_false_iff. apply Qle_bool_iff.
Qed.

Lemma Qsign_Eq q : JS.Qsign q = Eq <-> (q == 0)%Q.
Proof.
  unfold JS.Qsign, Qeq. destruct q as [n d]; simpl.
  rewrite Z.compare_eq_iff. lia.
Qed.

Lemma Qsign_Lt q : JS.Qsign q = Lt <-> (q < 0)%Q.
Proof.
  unfold JS.Qsign, Qlt. destruct q as [n d]; simpl.
  rewrite Z.compare_lt_iff. lia.
Qed.

Lemma Qsign_Gt q : JS.Qsign q = Gt <-> (0 < q)%Q.
Proof.
  unfold JS.Qsign, Qlt. destruct q as [n d]; simpl.
  rewrite Z.compare_gt_iff. lia.
Qed.

Lemma leb_not_ltb a b : JS.leb a b = true -> JS.ltb b a = false.
Proof.
  destruct a, b; simpl; try discriminate; try reflexivity;
    intro Hle; apply negb_true_iff in Hle; exact Hle.
Qed.

Lemma truthyNum_false n :
  JS.truthyNum n = false -> n = JS.NaN \/ exists q, n = JS.Fin q /\ (q == 0)%Q.
Proof.
  destruct n; simpl; try discriminate; auto.
  intro Hq. apply negb_false_iff in Hq. apply Qeq_bool_iff in Hq. eauto.
Qed.

Lemma truthyNum_pos l : (0 < l)%Q -> JS.truthyNum (JS.Fin l) = true.
Proof.
  intro Hl. simpl. apply negb_true_iff. apply not_true_is_false.
  intro Heq. apply Qeq_bool_iff in Heq. lra.
Qed.

Lemma ltb_PosInf_l b : JS.ltb JS.PosInf b = false.
Proof. destruct b; reflexivity. Qed.

Lemma ltb_NaN_l b : JS.ltb JS.NaN b = false.
Proof. destruct b; reflexivity. Qed.

Lemma ltb_leb_trans a b c :
  JS.leb a b = true -> JS.ltb b c = true -> JS.ltb a c = true.
Proof.
  destruct a as [| | |x], b as [| | |y], c as [| | |z]; simpl;
    try discriminate; try reflexivity.
  rewrite negb_true_iff, Qltb_ge, !Qltb_lt. intros. lra.
Qed.

Lemma ltb_trans a b c :
  JS.ltb a b = true -> JS.ltb b c = true -> JS.ltb a c = true.
Proof.
  destruct a as [| | |x], b as [| | |y], c as [| | |z]; simpl;
    try discriminate; try reflexivity.
  rewrite !Qltb_lt. intros. lra.
Qed.

Lemma leb_trans a b c :
  JS.leb a b = true -> JS.leb b c = true -> JS.leb a c = true.
Proof.
  destruct a as [| | |x], b as [| | |y], c as [| | |z]; simpl;
    try discriminate; try reflexivity.
  rewrite !negb_true_iff, !Qltb_ge. intros. lra.
Qed.

Lemma div_Fin_pos x l :
  (0 < l)%Q -> JS.div (JS.Fin x) (JS.Fin l) = JS.Fin (x / l).
Proof.
  intro Hl. simpl. apply Qsign_Gt in Hl. rewrite Hl. reflexivity.
Qed.

Lemma div_pos_mono x1 x2 l :
  (0 < l)%Q -> (x2 < x1)%Q -> (x2 / l <= x1 / l)%Q.
Proof.
  intros Hl Hx. unfold Qdiv.
  apply Qmult_le_compat_r; [lra|].
  apply Qinv_le_0_compat. lra.
Qed.

Lemma div_neg_above_one x l :
  (l < 0)%Q -> (x < l)%Q -> (1 < x / l)%Q.
Proof.
  intros Hl Hx.
  assert (Heq : (x / l == (- x) / (- l))%Q) by (field; lra).
  rewrite Heq. apply Qlt_shift_div_l; lra.
Qed.

Lemma div_lt_iff x l s : (0 < l)%Q -> (x / l < s)%Q <-> (x < s * l)%Q.
Proof.
  intro Hl. split; intro Hlt.
  - assert (Heq : (x == x / l * l)%Q) by (field; lra).
    rewrite Heq. apply Qmult_lt_r; assumption.
  - apply Qlt_shift_div_r; assumption.
Qed.

Lemma div_gt_iff x h s : (0 < h)%Q -> (s < x / h)%Q <-> (s * h < x)%Q.
Proof.
  intro Hh. split; intro Hlt.
  - assert (Heq : (x == x / h * h)%Q) by (field; lra).
    rewrite Heq. apply Qmult_lt_r; assumption.
  - apply Qlt_shift_div_l; assumption.
Qed.

Lemma Qltb_below_true x l s :
  (0 < l)%Q -> JS.Qltb (x / l) s = true -> (x < s * l)%Q.
Proof. intros Hl E. apply Qltb_lt in E. apply div_lt_iff in E; assumption. Qed.

Lemma Qltb_below_false x l s :
  (0 < l)%Q -> JS.Qltb (x / l) s = false -> (s * l <= x)%Q.
Proof.
  intros Hl E. apply Qltb_ge in E. apply Qnot_lt_le. intro Hlt.
  apply (div_lt_iff x l s Hl) in Hlt. lra.
Qed.

Lemma Qltb_above_true x h s :
  (0 < h)%Q -> JS.Qltb s (x / h) = true -> (s * h < x)%Q.
Proof. intros Hh E. apply Qltb_lt in E. apply div_gt_iff in E; assumption. Qed.

Lemma Qltb_above_false x h s :
  (0 < h)%Q -> JS.Qltb s (x / h) = false -> (x <= s * h)%Q.
Proof.
  intros Hh E. apply Qltb_ge in E. apply Qnot_lt_le. intro Hlt.
  apply (div_gt_iff x h s Hh) in Hlt. lra.
Qed.

(** ** The rule engine *)

(** An entry of the table is what the table gives under its key. *)
Lemma get_own (key : string) (tb : Conf.table) (conf : Conf.t) :
  JS.lookup key tb = Some conf -> Conf.get key tb = Some conf.
Proof. intro Hown. unfold Conf.get. rewrite Hown. reflexivity. Qed.

(** Opens [assessValue] on its two cases and names the resolved bounds. *)
Ltac resolve_range conf lo hi :=
  unfold assessValue;
  match goal with
  | |- context [Conf.get ?k ?t] =>
      destruct (Conf.get k t) as [conf|]
  end;
  [ match goal with
    | |- context [match JS.lookup ?sx (Conf.bySex conf) with _ => _ end] =>
        destruct (match JS.lookup sx (Conf.bySex conf) with
                  | Some r =>
                      (match Conf.normalLow r with
                       | Some x => Some x
                       | None => Conf.normalLow (Conf.bounds conf) end,
                       match Conf.normalHigh r with
                       | Some x => Some x
                       | None => Conf.normalHigh (Conf.bounds conf) end)
                  | None => (Conf.normalLow (Conf.bounds conf),
                             Conf.normalHigh (Conf.bounds conf))
                  end) as [lo hi]
    end
  | ].

(** C4. For every analyte whose reference range, once the patient's sex is
    taken into account, has both bounds [L] and [H], and every value [v]
    with [L <= v <= H], [assessValue] returns severity normal and status
    normal.  The resolved range is read off the assessment itself. *)
Theorem assessValue_normal_within_range :
  forall (thresholds : Conf.table) (key : string) (v : JS.number)
         (meta : PatientMeta.t) (L H : JS.number),
    Assessment.normalRange (assessValue thresholds key v meta)
      = Some {| Conf.normalLow := Some L; Conf.normalHigh := Some H |} ->
    JS.leb L v = true ->
    JS.leb v H = true ->
    Assessment.severity (assessValue thresholds key v meta) = Severity.normal
    /\ Assessment.status (assessValue thresholds key v meta) = Status.normal.
Proof.
  intros thresholds key v meta L H.
  resolve_range conf lo hi; [|discriminate].
  cbn [Assessment.normalRange Assessment.severity Assessment.status].
  intros Hrange HL HH. injection Hrange as -> ->.
  assert (Hhigh : JS.gtb v H = false) by (apply leb_not_ltb; exact HH).
  cbn [JS.orNum JS.toNum].
  destruct (JS.truthyNum L) eqn:HtL.
  - rewrite (leb_not_ltb _ _ HL). rewrite Hhigh. split; reflexivity.
  - apply truthyNum_false in HtL. destruct HtL as [->|[q [-> Hq]]];
      [discriminate|].
    destruct (JS.ltb v JS.PosInf) eqn:Hfin.
    + destruct v as [| | |x]; try discriminate.
      assert (Hx : (q <= x)%Q).
      { simpl in HL. apply negb_true_iff in HL. apply Qltb_ge in HL. exact HL. }
      unfold JS.div. apply Qsign_Eq in Hq. rewrite Hq.
      destruct (JS.Qsign x) eqn:Hs.
      * rewrite !ltb_NaN_l. split; reflexivity.
      * apply Qsign_Lt in Hs. apply Qsign_Eq in Hq. lra.
      * rewrite !ltb_PosInf_l. split; reflexivity.
    + rewrite Hhigh. split; reflexivity.
Qed.

Lemma assessValue_normal_within_range_witness :
  Assessment.severity
    (assessValue labThresholds "hemoglobin" (JS.Fin 14.2) male) = Severity.normal
  /\ Assessment.status
       (assessValue labThresholds "hemoglobin" (JS.Fin 14.2) male) = Status.normal.
Proof.
  apply (assessValue_normal_within_range labThresholds "hemoglobin"
           (JS.Fin 14.2) male (JS.Fin 13.5) (JS.Fin 17.5));
    reflexivity.
Defined.

(** Every assessment couples status and severity: severity is normal
    exactly when status is normal; severity is mild, moderate or severe
    exactly when status is low or high; status is unknown exactly when
    severity is unknown, and that is exactly when [thresholds[key]] is
    undefined. *)
Lemma status_severity_coupled :
  forall (thresholds : Conf.table) (key : string) (v : JS.number)
         (meta : PatientMeta.t),
    let a := assessValue thresholds key v meta in
    (Assessment.severity a = Severity.normal
       <-> Assessment.status a = Status.normal)
    /\ (In (Assessment.severity a)
           [Severity.mild; Severity.moderate; Severity.severe]
        <-> In (Assessment.status a) [Status.low; Status.high])
    /\ (Assessment.status a = Status.unknown
        <-> Assessment.severity a = Severity.unknown)
    /\ (Assessment.status a = Status.unknown
        <-> Conf.get key thresholds = None).
Proof.
  intros thresholds key v meta a. subst a.
  resolve_range conf lo hi.
  - cbn [Assessment.severity Assessment.status].
    repeat match goal with
           | |- context [if ?b then _ else _] => destruct b
           | |- context [match ?o with Some _ => _ | None => _ end] =>
               destruct o
           end;
      cbn [fst snd In];
      repeat split; intros; try discriminate; try reflexivity;
      intuition (try discriminate; auto).
  - cbn. repeat split; intros; try discriminate; try reflexivity;
      intuition (try discriminate; auto).
Qed.

(** C10.  The last part of the claim fails: a key without an entry in the
    table is not always assessed unknown.  The guard that returns unknown
    tests [thresholds[key]], and for a name every object inherits
    ([constructor], [toString], [__proto__], ...) that is a function or the
    prototype, not [undefined]: with the table of [config/labThresholds.js],
    an empty patient record and the value 5, each of these keys is assessed
    normal, with an empty unit and a range without bounds, and carries no
    note that no threshold is configured. *)
Theorem assessValue_inherited_key :
  JS.lookup "constructor" labThresholds = None
  /\ assessValue labThresholds "constructor" (JS.Fin 5) PatientMeta.empty
     = {| Assessment.key := "constructor";
          Assessment.value := JS.Fin 5;
          Assessment.unit := Some "";
          Assessment.normalRange :=
            Some {| Conf.normalLow := None; Conf.normalHigh := None |};
          Assessment.status := Status.normal;
          Assessment.severity := Severity.normal;
          Assessment.note := None |}
  /\ Forall
       (fun key =>
          JS.lookup key labThresholds = None
          /\ Assessment.status
               (assessValue labThresholds key (JS.Fin 5) PatientMeta.empty)
             = Status.normal
          /\ Assessment.severity
               (assessValue labThresholds key (JS.Fin 5) PatientMeta.empty)
             = Severity.normal)
       [ "toString"; "__proto__"; "hasOwnProperty"; "valueOf" ].
Proof.
  split; [reflexivity|]. split; [reflexivity|].
  repeat constructor.
Qed.

(** The cascade of the lower branch never ranks a smaller ratio lower. *)
Lemma lower_cascade_mono (p1 p2 se mo : JS.number) :
  (forall c, JS.ltb p1 c = true -> JS.ltb p2 c = true) ->
  Severity.rank
    (fst (if JS.ltb p1 se then (Severity.severe, Status.low)
          else if JS.ltb p1 mo then (Severity.moderate, Status.low)
          else if JS.ltb p1 (JS.Fin 1.0) then (Severity.mild, Status.low)
          else (Severity.normal, Status.normal)))
  <= Severity.rank
    (fst (if JS.ltb p2 se then (Severity.severe, Status.low)
          else if JS.ltb p2 mo then (Severity.moderate, Status.low)
          else if JS.ltb p2 (JS.Fin 1.0) then (Severity.mild, Status.low)
          else (Severity.normal, Status.normal))).
Proof.
  intro Hmono.
  pose proof (Hmono se) as Hse. pose proof (Hmono mo) as Hmo.
  pose proof (Hmono (JS.Fin 1.0)) as H1.
  destruct (JS.ltb p1 se); [rewrite Hse by reflexivity; simpl; lia|].
  destruct (JS.ltb p1 mo);
    [rewrite Hmo by reflexivity; destruct (JS.ltb p2 se); simpl; lia|].
  destruct (JS.ltb p1 (JS.Fin 1.0));
    [rewrite H1 by reflexivity;
     destruct (JS.ltb p2 se), (JS.ltb p2 mo); simpl; lia|].
  simpl. lia.
Qed.

(** C5. For every configured analyte with both bounds, a finite lower bound
    and cutoffs with severe <= moderate <= mild <= 1, severity does not
    improve as the value decreases below the lower bound: for
    [v2 < v1 < normalLow] the severity of [v2] is at least as bad as that of
    [v1], on the order normal < mild < moderate < severe. *)
Theorem assessValue_lower_monotone :
  forall (thresholds : Conf.table) (key : string) (meta : PatientMeta.t)
         (conf : Conf.t) (v1 v2 : JS.number) (l : Q) (h se mo mi : JS.number),
    JS.lookup key thresholds = Some conf ->
    Conf.severity conf
      = {| Conf.mild := Some mi; Conf.moderate := Some mo; Conf.severe := Some se |} ->
    JS.leb se mo = true -> JS.leb mo mi = true -> JS.leb mi (JS.Fin 1) = true ->
    Assessment.normalRange (assessValue thresholds key v1 meta)
      = Some {| Conf.normalLow := Some (JS.Fin l); Conf.normalHigh := Some h |} ->
    JS.ltb v2 v1 = true ->
    JS.ltb v1 (JS.Fin l) = true ->
    Severity.rank (Assessment.severity (assessValue thresholds key v1 meta))
    <= Severity.rank (Assessment.severity (assessValue thresholds key v2 meta)).
Proof.
  intros thresholds key meta conf v1 v2 l h se mo mi Hconf Hsev Hsm Hmm Hm1.
  unfold assessValue. rewrite (get_own _ _ _ Hconf).
  destruct (match JS.lookup _ (Conf.bySex conf) with Some r => _ | None => _ end)
    as [lo hi].
  cbn [Assessment.normalRange Assessment.severity].
  intros Hrange H21 H1l. injection Hrange as -> ->.
  rewrite Hsev. cbn [Conf.severe Conf.moderate JS.nullish JS.orNum JS.toNum].
  assert (H2l : JS.ltb v2 (JS.Fin l) = true) by (eapply ltb_trans; eassumption).
  destruct v1 as [| | |x1]; try discriminate;
    [destruct v2; discriminate|].
  assert (Hx1 : (x1 < l)%Q) by (apply Qltb_lt; exact H1l).
  cbn [JS.truthyNum].
  destruct (Qeq_bool l 0) eqn:Hl0; cbn [negb].
  - (* a lower bound of zero: every negative value has ratio -Infinity *)
    apply Qeq_bool_iff in Hl0.
    assert (Hs1 : JS.Qsign x1 = Lt) by (apply Qsign_Lt; lra).
    assert (Hsl : JS.Qsign l = Eq) by (apply Qsign_Eq; exact Hl0).
    assert (Hp2 : JS.div v2 (JS.Fin l) = JS.NegInf /\ JS.ltb v2 JS.PosInf = true).
    { destruct v2 as [| | |x2]; try discriminate.
      - simpl. rewrite Hsl. split; reflexivity.
      - assert (Hs2 : JS.Qsign x2 = Lt).
        { apply Qsign_Lt. apply Qltb_lt in H21. lra. }
        simpl. rewrite Hsl, Hs2. split; reflexivity. }
    destruct Hp2 as [Hp2 Hf2]. rewrite Hf2, Hp2.
    simpl JS.ltb at 1. simpl JS.div. rewrite Hsl, Hs1. apply le_n.
  - rewrite H1l, H2l.
    assert (Hlne : ~ (l == 0)%Q).
    { intro Heq. apply Qeq_bool_iff in Heq. congruence. }
    destruct (JS.Qsign l) eqn:Hsl.
    + apply Qsign_Eq in Hsl. contradiction.
    + (* a negative lower bound: the ratio is above 1, hence normal *)
      apply Qsign_Lt in Hsl.
      assert (Hp1 : JS.div (JS.Fin x1) (JS.Fin l) = JS.Fin (x1 / l)).
      { simpl. apply Qsign_Lt in Hsl. rewrite Hsl. reflexivity. }
      rewrite Hp1.
      pose proof (div_neg_above_one x1 l Hsl Hx1) as Habove.
      assert (Hno : forall c, JS.leb c (JS.Fin 1) = true ->
                              JS.ltb (JS.Fin (x1 / l)) c = false).
      { intros c Hc. destruct c as [| | |z]; simpl in *; try discriminate;
          try reflexivity.
        apply negb_true_iff in Hc. apply Qltb_ge in Hc. apply Qltb_ge. lra. }
      rewrite (Hno se), (Hno mo), (Hno (JS.Fin 1.0)).
      * simpl. lia.
      * reflexivity.
      * eapply leb_trans; eassumption.
      * eapply leb_trans; [eassumption|]. eapply leb_trans; eassumption.
    + (* a positive lower bound: the ratio decreases with the value *)
      apply Qsign_Gt in Hsl.
      apply lower_cascade_mono.
      intros c. apply ltb_leb_trans.
      rewrite (div_Fin_pos x1 l Hsl).
      destruct v2 as [| | |x2]; try discriminate.
      * simpl. apply Qsign_Gt in Hsl. rewrite Hsl. reflexivity.
      * rewrite (div_Fin_pos x2 l Hsl). simpl. apply negb_true_iff, Qltb_ge.
        apply div_pos_mono; [exact Hsl|]. apply Qltb_lt. exact H21.
Qed.

Lemma assessValue_lower_monotone_witness :
  Severity.rank (Assessment.severity
      (assessValue labThresholds "platelet" (JS.Fin 140) PatientMeta.empty))
  <= Severity.rank (Assessment.severity
      (assessValue labThresholds "platelet" (JS.Fin 100) PatientMeta.empty)).
Proof.
  apply (assessValue_lower_monotone labThresholds "platelet" PatientMeta.empty
           platelet (JS.Fin 140) (JS.Fin 100) 150 (JS.Fin 450)
           (JS.Fin 0.5) (JS.Fin 0.7) (JS.Fin 0.9));
    reflexivity.
Defined.

(** C6, as stated, fails: the configured mild cutoff is not consulted.  A
    fasting glucose of 100 has ratio 100/99, which is not beyond the
    configured mild cutoff 1.1, and a male hemoglobin of 13 has ratio
    13/13.5, which is not below the configured mild cutoff 0.95; held
    against the configured cutoffs alone both are normal, and
    [assessValue] calls both mild. *)
Lemma mild_cutoff_not_consulted :
  Assessment.severity
    (assessValue labThresholds "glucose_fasting" (JS.Fin 100) PatientMeta.empty)
    = Severity.mild
  /\ Spec.severityByCutoffs (Conf.severity glucose_fasting) false
       (JS.div (JS.Fin 100) (JS.Fin 99)) = Severity.normal
  /\ Assessment.severity
       (assessValue labThresholds "hemoglobin" (JS.Fin 13) male)
     = Severity.mild
  /\ Spec.severityByCutoffs (Conf.severity hemoglobin) true
       (JS.div (JS.Fin 13) (JS.Fin 13.5)) = Severity.normal.
Proof. repeat split; reflexivity. Qed.

(** C6, amended.  For every configured analyte, whatever its bounds, and
    every value, the class of a value out of range is decided by the
    analyte's severe and moderate cutoffs alone, each replaced by a built-in
    default when the entry lacks it (0.7 and 0.85 below the range, 1.5 and
    1.2 above it).  A value assessed low has a lower bound, and its ratio
    [value / normalLow], as the code computes it, is severe when below the
    severe cutoff, otherwise moderate when below the moderate cutoff,
    otherwise mild.  A value assessed high exceeds the upper bound, and its
    ratio [value / normalHigh] is severe when above the severe cutoff,
    otherwise moderate when above the moderate cutoff, otherwise mild.
    Every value below a finite positive lower bound of a range with both
    bounds is assessed low; every value above the upper bound is assessed
    high when the range has no lower bound, or a lower bound other than
    zero and NaN that the value is not below.  The configured mild cutoff
    plays no part: two entries that differ in it alone give the same
    assessment. *)
Theorem assessValue_severity_by_cutoffs :
  forall (thresholds : Conf.table) (key : string) (meta : PatientMeta.t)
         (conf : Conf.t) (v : JS.number) (lo hi : option JS.number),
    JS.lookup key thresholds = Some conf ->
    Assessment.normalRange (assessValue thresholds key v meta)
      = Some {| Conf.normalLow := lo; Conf.normalHigh := hi |} ->
    let a := assessValue thresholds key v meta in
    (* the class of a value assessed low *)
    (Assessment.status a = Status.low ->
     exists l : JS.number,
       lo = Some l /\ hi <> None
       /\ Assessment.severity a
          = Spec.classBelow (Conf.severity conf) (JS.div v l))
    (* the class of a value assessed high *)
    /\ (Assessment.status a = Status.high ->
        exists h : JS.number,
          hi = Some h /\ JS.gtb v h = true
          /\ Assessment.severity a
             = Spec.classAbove (Conf.severity conf) (JS.div v h))
    (* the values below the range *)
    /\ (forall l : Q,
          lo = Some (JS.Fin l) -> hi <> None -> (0 < l)%Q ->
          JS.ltb v (JS.Fin l) = true ->
          Assessment.status a = Status.low)
    (* the values above the range *)
    /\ (forall h : JS.number,
          hi = Some h -> JS.gtb v h = true ->
          lo = None
          \/ (exists l, lo = Some l /\ JS.truthyNum l = true
                        /\ JS.ltb v l = false) ->
          Assessment.status a = Status.high)
    (* the configured mild cutoff plays no part *)
    /\ (forall (thresholds' : Conf.table) (conf' : Conf.t) (v' : JS.number),
          JS.lookup key thresholds' = Some conf' ->
          Conf.unit conf' = Conf.unit conf ->
          Conf.bounds conf' = Conf.bounds conf ->
          Conf.bySex conf' = Conf.bySex conf ->
          Conf.moderate (Conf.severity conf') = Conf.moderate (Conf.severity conf) ->
          Conf.severe (Conf.severity conf') = Conf.severe (Conf.severity conf) ->
          assessValue thresholds' key v' meta = assessValue thresholds key v' meta).
Proof.
  intros thresholds key meta conf v lo hi Hconf Hrange a.
  assert (Hlast :
            forall (thresholds' : Conf.table) (conf' : Conf.t) (v' : JS.number),
              JS.lookup key thresholds' = Some conf' ->
              Conf.unit conf' = Conf.unit conf ->
              Conf.bounds conf' = Conf.bounds conf ->
              Conf.bySex conf' = Conf.bySex conf ->
              Conf.moderate (Conf.severity conf')
              = Conf.moderate (Conf.severity conf) ->
              Conf.severe (Conf.severity conf') = Conf.severe (Conf.severity conf) ->
              assessValue thresholds' key v' meta
              = assessValue thresholds key v' meta).
  { intros thresholds' conf' v' Hconf' Hu Hb Hsx Hmo Hse.
    unfold assessValue.
    rewrite (get_own _ _ _ Hconf), (get_own _ _ _ Hconf'), Hu, Hb, Hsx, Hmo, Hse.
    reflexivity. }
  subst a.
  split; [|split; [|split; [|split; [|exact Hlast]]]];
    clear Hlast; revert Hrange; unfold assessValue;
    rewrite (get_own _ _ _ Hconf);
    (destruct (match JS.lookup _ (Conf.bySex conf) with
               | Some r => _
               | None => _
               end) as [lo' hi']);
    cbn [Assessment.normalRange Assessment.severity Assessment.status];
    intro Hrange; injection Hrange as -> ->;
    unfold Spec.classBelow, Spec.classAbove.
  - (* assessed low: the lower branch was taken *)
    destruct lo as [l|], hi as [h|];
      try (cbn [fst snd];
           repeat match goal with
                  | |- context [if ?b then _ else _] => destruct b
                  end; discriminate).
    destruct (JS.ltb v (JS.orNum (Some l) JS.PosInf)).
    + cbn [JS.toNum]. intro Hlow. exists l.
      split; [reflexivity|]. split; [discriminate|]. revert Hlow.
      repeat match goal with
             | |- context [if JS.ltb (JS.div v l) ?c then _ else _] =>
                 destruct (JS.ltb (JS.div v l) c)
             end; cbn [fst snd]; first [reflexivity|discriminate].
    + repeat match goal with
             | |- context [if ?b then _ else _] => destruct b
             end; discriminate.
  - (* assessed high: the upper branch was taken *)
    assert (Hupper :
              snd (match hi with
                   | Some h =>
                       if JS.gtb v h then
                         if JS.gtb (JS.div v h)
                              (JS.nullish (Conf.severe (Conf.severity conf)) (JS.Fin 1.5))
                         then (Severity.severe, Status.high)
                         else if JS.gtb (JS.div v h)
                                   (JS.nullish (Conf.moderate (Conf.severity conf))
                                      (JS.Fin 1.2))
                         then (Severity.moderate, Status.high)
                         else (Severity.mild, Status.high)
                       else (Severity.normal, Status.normal)
                   | None => (Severity.normal, Status.normal)
                   end) = Status.high ->
              exists h : JS.number,
                hi = Some h /\ JS.gtb v h = true
                /\ fst (match hi with
                        | Some h =>
                            if JS.gtb v h then
                              if JS.gtb (JS.div v h)
                                   (JS.nullish (Conf.severe (Conf.severity conf))
                                      (JS.Fin 1.5))
                              then (Severity.severe, Status.high)
                              else if JS.gtb (JS.div v h)
                                        (JS.nullish (Conf.moderate (Conf.severity conf))
                                           (JS.Fin 1.2))
                              then (Severity.moderate, Status.high)
                              else (Severity.mild, Status.high)
                            else (Severity.normal, Status.normal)
                        | None => (Severity.normal, Status.normal)
                        end)
                   = (if JS.gtb (JS.div v h)
                           (JS.nullish (Conf.severe (Conf.severity conf)) (JS.Fin 1.5))
                      then Severity.severe
                      else if JS.gtb (JS.div v h)
                                (JS.nullish (Conf.moderate (Conf.severity conf))
                                   (JS.Fin 1.2))
                      then Severity.moderate
                      else Severity.mild)).
    { destruct hi as [h|]; [|discriminate].
      destruct (JS.gtb v h) eqn:Hgt; [|discriminate].
      intros _. exists h. split; [reflexivity|]. split; [exact Hgt|].
      destruct (JS.gtb (JS.div v h) _); [reflexivity|].
      destruct (JS.gtb (JS.div v h) _); reflexivity. }
    destruct (match lo, hi with
              | Some _, Some _ => JS.ltb v (JS.orNum lo JS.PosInf)
              | _, _ => false
              end); [|exact Hupper].
    repeat match goal with
           | |- context [if ?b then _ else _] => destruct b
           end; discriminate.
  - (* below a finite positive lower bound *)
    intros l -> Hhi Hl Hlt. destruct hi as [h|]; [|contradiction].
    cbn [JS.orNum JS.toNum]. rewrite (truthyNum_pos l Hl), Hlt.
    assert (H1 : JS.ltb (JS.div v (JS.Fin l)) (JS.Fin 1.0) = true).
    { destruct v as [| | |x]; try discriminate.
      - cbn [JS.div]. assert (Hs : JS.Qsign l = Gt) by (apply Qsign_Gt; exact Hl).
        rewrite Hs. reflexivity.
      - rewrite (div_Fin_pos x l Hl). apply Qltb_lt.
        apply div_lt_iff; [exact Hl|]. apply Qltb_lt in Hlt. lra. }
    rewrite H1.
    repeat match goal with
           | |- context [if ?b then _ else _] => destruct b
           end; reflexivity.
  - (* above the upper bound *)
    intros h -> Hgt Hlo.
    assert (Hnot : match lo with
                   | Some _ => JS.ltb v (JS.orNum lo JS.PosInf)
                   | None => false
                   end = false).
    { destruct Hlo as [->|[l [-> [Ht Hlt]]]]; [reflexivity|].
      cbn [JS.orNum]. rewrite Ht. exact Hlt. }
    destruct lo as [l|]; rewrite ?Hnot, Hgt;
      repeat match goal with
             | |- context [if ?b then _ else _] => destruct b
             end; reflexivity.
Qed.

Lemma assessValue_severity_by_cutoffs_witness :
  (Assessment.status
     (assessValue labThresholds "platelet" (JS.Fin 100) PatientMeta.empty)
   = Status.low
   /\ Assessment.severity
        (assessValue labThresholds "platelet" (JS.Fin 100) PatientMeta.empty)
      = Severity.moderate)
  /\ (Assessment.status
        (assessValue upperOnly "ldl" (JS.Fin 200) PatientMeta.empty)
      = Status.high
      /\ Assessment.severity
           (assessValue upperOnly "ldl" (JS.Fin 200) PatientMeta.empty)
         = Severity.severe).
Proof.
  split.
  - destruct (assessValue_severity_by_cutoffs labThresholds "platelet"
                PatientMeta.empty platelet (JS.Fin 100)
                (Some (JS.Fin 150)) (Some (JS.Fin 450)) eq_refl eq_refl)
      as [Hclass [_ [Hbelow _]]].
    assert (Hlow : Assessment.status
                     (assessValue labThresholds "platelet" (JS.Fin 100)
                        PatientMeta.empty) = Status.low).
    { apply (Hbelow 150%Q); [reflexivity|discriminate|reflexivity|reflexivity]. }
    split; [exact Hlow|].
    destruct (Hclass Hlow) as [l [Hl [_ Hsev]]].
    injection Hl as <-. rewrite Hsev. vm_compute. reflexivity.
  - destruct (assessValue_severity_by_cutoffs upperOnly "ldl"
                PatientMeta.empty
                {| Conf.unit := None;
                   Conf.bounds := {| Conf.normalLow := None;
                                     Conf.normalHigh := Some (JS.Fin 100) |};
                   Conf.bySex := [];
                   Conf.severity := {| Conf.mild := None; Conf.moderate := None;
                                       Conf.severe := None |} |}
                (JS.Fin 200) None (Some (JS.Fin 100)) eq_refl eq_refl)
      as [_ [Hclass [_ [Habove _]]]].
    assert (Hhigh : Assessment.status
                      (assessValue upperOnly "ldl" (JS.Fin 200)
                         PatientMeta.empty) = Status.high).
    { apply (Habove (JS.Fin 100)); [reflexivity|reflexivity|left; reflexivity]. }
    split; [exact Hhigh|].
    destruct (Hclass Hhigh) as [h [Hh [_ Hsev]]].
    injection Hh as <-. rewrite Hsev. vm_compute. reflexivity.
Defined.

(** ** Strings and regular expressions *)

Lemma length_append (u v : string) :
  String.length (u ++ v) = String.length u + String.length v.
Proof. induction u as [|c u IH]; simpl; [reflexivity|rewrite IH; reflexivity]. Qed.

Lemma append_nil_r (u : string) : u ++ "" = u.
Proof. induction u as [|c u IH]; simpl; [reflexivity|rewrite IH; reflexivity]. Qed.

Lemma append_assoc (u v w : string) : (u ++ v) ++ w = u ++ (v ++ w).
Proof. induction u as [|c u IH]; simpl; [reflexivity|rewrite IH; reflexivity]. Qed.

Lemma substring_prefix (u v : string) :
  substring 0 (String.length u) (u ++ v) = u.
Proof.
  induction u as [|c u IH]; simpl.
  - destruct v; reflexivity.
  - rewrite IH. reflexivity.
Qed.

Lemma consumed_prefix (u v : string) :
  substring 0 (String.length (u ++ v) - String.length v) (u ++ v) = u.
Proof.
  rewrite length_append.
  replace (String.length u + String.length v - String.length v)
    with (String.length u) by lia.
  apply substring_prefix.
Qed.

Lemma includes_char_cons (c d : ascii) (s : string) :
  JS.includes (String d s) (String c "")
  = Ascii.eqb c d || JS.includes s (String c "").
Proof.
  simpl. destruct s; rewrite andb_true_r; reflexivity.
Qed.

Lemma includes_char_app (c : ascii) (u v : string) :
  JS.includes (u ++ v) (String c "")
  = JS.includes u (String c "") || JS.includes v (String c "").
Proof.
  induction u as [|d u IH].
  - simpl. reflexivity.
  - change (String d u ++ v) with (String d (u ++ v)).
    rewrite !includes_char_cons, IH, orb_assoc. reflexivity.
Qed.

(** One step of a quantifier, spelled out. *)
Lemma iter_eq step greedy lo hi k fuel n s cap :
  Regex.iter step greedy lo hi k fuel n s cap
  = let more :=
      match fuel with
      | O => None
      | S fuel' =>
          if Regex.below hi n then
            step s cap (fun s' cap' =>
              if (String.length s' <? String.length s)%nat
              then Regex.iter step greedy lo hi k fuel' (S n) s' cap'
              else None)
          else None
      end in
    let stop := if (lo <=? n)%nat then k s cap else None in
    if greedy then match more with Some x => Some x | None => stop end
    else match stop with Some x => Some x | None => more end.
Proof. destruct fuel; reflexivity. Qed.

Lemma shorter (c : ascii) (s : string) :
  (String.length s <? String.length (String c s))%nat = true.
Proof. apply Nat.ltb_lt. simpl. lia. Qed.

Lemma run_Seq a b s cap k :
  Regex.run (Regex.Seq a b) s cap k
  = Regex.run a s cap (fun s1 cap1 => Regex.run b s1 cap1 k).
Proof. reflexivity. Qed.

Lemma run_chr_hit c s cap k :
  Regex.run (Regex.chr c) (String c s) cap k = k s cap.
Proof. cbn [Regex.run Regex.chr]. rewrite Ascii.eqb_refl. reflexivity. Qed.

Lemma run_chr_miss c d s cap k :
  Ascii.eqb c d = false -> Regex.run (Regex.chr c) (String d s) cap k = None.
Proof. intro Hcd. cbn [Regex.run Regex.chr]. rewrite Hcd. reflexivity. Qed.

Lemma lit_cons c p :
  p <> "" -> Regex.lit (String c p) = Regex.Seq (Regex.chr c) (Regex.lit p).
Proof. destruct p; [contradiction|reflexivity]. Qed.

Lemma run_lit_hit p s cap k :
  Regex.run (Regex.lit p) (p ++ s) cap k = k s cap.
Proof.
  revert s cap k. induction p as [|c p IH]; intros s cap k.
  - reflexivity.
  - destruct p as [|d p].
    + apply run_chr_hit.
    + rewrite lit_cons by discriminate. rewrite run_Seq.
      change (String c (String d p) ++ s) with (String c (String d p ++ s)).
      rewrite run_chr_hit. apply IH.
Qed.

Lemma run_lit_exact p cap k :
  Regex.run (Regex.lit p) p cap k = k "" cap.
Proof.
  pose proof (run_lit_hit p "" cap k) as Hrun.
  rewrite append_nil_r in Hrun. exact Hrun.
Qed.

Lemma run_lit_miss c p d s cap k :
  Ascii.eqb c d = false ->
  Regex.run (Regex.lit (String c p)) (String d s) cap k = None.
Proof.
  intro Hcd. destruct p as [|e p].
  - apply run_chr_miss. exact Hcd.
  - rewrite lit_cons by discriminate. rewrite run_Seq.
    apply run_chr_miss. exact Hcd.
Qed.

Lemma run_Group body s cap k :
  Regex.run (Regex.Group body) s cap k
  = Regex.run body s cap (fun s' _ =>
      k s' (Some (substring 0 (String.length s - String.length s') s))).
Proof. reflexivity. Qed.

Lemma run_Rep g lo hi body s cap k :
  Regex.run (Regex.Rep g lo hi body) s cap k
  = Regex.iter (Regex.run body) g lo hi k (S (String.length s)) 0 s cap.
Proof. reflexivity. Qed.

(** An optional literal that is there, followed by something that matches. *)
Lemma run_opt_lit_hit c p s cap k x :
  k s cap = Some x ->
  Regex.run (Regex.opt (Regex.lit (String c p))) (String c p ++ s) cap k = Some x.
Proof.
  intro Hk. unfold Regex.opt. rewrite run_Rep, iter_eq.
  assert (Hlen : (String.length s <? String.length (String c p ++ s))%nat = true).
  { apply Nat.ltb_lt. rewrite length_append. simpl. lia. }
  change (Regex.below (Some 1) 0) with true. cbv beta iota zeta.
  rewrite run_lit_hit, Hlen, iter_eq.
  change (Regex.below (Some 1) 1) with false.
  change (0 <=? 1)%nat with true. cbv beta iota zeta.
  rewrite Hk. destruct (String.length (String c p ++ s)); reflexivity.
Qed.

(** The two ways a search goes on. *)
Lemma search_hit (r : Regex.t) (s rest : string) (cap : option string) :
  Regex.matchAt r s = Some (rest, cap) ->
  Regex.search r s
  = Some {| Regex.before := "";
            Regex.matched := substring 0 (String.length s - String.length rest) s;
            Regex.group1 := cap;
            Regex.after := rest |}.
Proof. intro Hm. destruct s; simpl; rewrite Hm; reflexivity. Qed.

Lemma search_miss (r : Regex.t) (c : ascii) (s : string) :
  Regex.matchAt r (String c s) = None ->
  Regex.search r (String c s)
  = match Regex.search r s with
    | Some h =>
        Some {| Regex.before := String c (Regex.before h);
                Regex.matched := Regex.matched h;
                Regex.group1 := Regex.group1 h;
                Regex.after := Regex.after h |}
    | None => None
    end.
Proof. intro Hm. simpl. rewrite Hm. reflexivity. Qed.

Lemma search_none_inv (r : Regex.t) (c : ascii) (s : string) :
  Regex.search r (String c s) = None ->
  Regex.matchAt r (String c s) = None /\ Regex.search r s = None.
Proof.
  simpl. destruct (Regex.matchAt r (String c s)) as [[rest cap]|];
    [discriminate|].
  destruct (Regex.search r s); [discriminate|]. split; reflexivity.
Qed.

Lemma search_none_suffix (r : Regex.t) (u v : string) :
  Regex.search r (u ++ v) = None -> Regex.search r v = None.
Proof.
  induction u as [|c u IH]; intro Hs; [exact Hs|].
  apply IH. apply (search_none_inv r c). exact Hs.
Qed.

(** An expression that must start with [c] is found nowhere in a text
    without [c]. *)
Lemma search_first_char (r : Regex.t) (c : ascii) (s : string) :
  Regex.matchAt r "" = None ->
  (forall d s', Ascii.eqb c d = false -> Regex.matchAt r (String d s') = None) ->
  JS.includes s (String c "") = false ->
  Regex.search r s = None.
Proof.
  intros Hnil Hmiss. induction s as [|d s IH]; intro Hs.
  - simpl. rewrite Hnil. reflexivity.
  - rewrite includes_char_cons in Hs. apply orb_false_iff in Hs.
    destruct Hs as [Hd Hs].
    rewrite search_miss by (apply Hmiss; exact Hd).
    rewrite (IH Hs). reflexivity.
Qed.

Lemma replaceAll_none (r : Regex.t) (f : Regex.hit -> string) (s : string) :
  Regex.search r s = None -> Regex.replaceAll r f s = s.
Proof.
  intro Hs. unfold Regex.replaceAll. cbn [Regex.replaceFuel]. rewrite Hs.
  reflexivity.
Qed.

Lemma replaceFuel_none (r : Regex.t) (f : Regex.hit -> string) (fuel : nat)
    (s : string) :
  Regex.search r s = None -> Regex.replaceFuel fuel r f s = s.
Proof.
  intro Hs. destruct fuel; [reflexivity|]. cbn [Regex.replaceFuel].
  rewrite Hs. reflexivity.
Qed.

(** Whatever a match returns, its continuation returned, on what is left of
    the input. *)
Lemma iter_cont step greedy lo hi k :
  (forall s cap k' x,
     step s cap k' = Some x ->
     exists s' cap', k' s' cap' = Some x /\ String.length s' <= String.length s) ->
  forall fuel n s cap x,
    Regex.iter step greedy lo hi k fuel n s cap = Some x ->
    exists s' cap', k s' cap' = Some x /\ String.length s' <= String.length s.
Proof.
  intro Hstep. induction fuel as [|fuel IH]; intros n s cap x; rewrite iter_eq;
    cbv beta iota zeta.
  - destruct greedy; destruct (lo <=? n)%nat; try discriminate;
      destruct (k s cap) eqn:Hk; try discriminate;
      intro Heq; injection Heq as <-; exists s, cap; split; auto.
  - assert (Hmore :
      forall y,
        (if Regex.below hi n
         then step s cap (fun s' cap' =>
                if (String.length s' <? String.length s)%nat
                then Regex.iter step greedy lo hi k fuel (S n) s' cap'
                else None)
         else None) = Some y ->
        exists s' cap', k s' cap' = Some y /\ String.length s' <= String.length s).
    { intros y Hy. destruct (Regex.below hi n); [|discriminate].
      apply Hstep in Hy. destruct Hy as [s1 [cap1 [Hy Hlen]]].
      destruct (String.length s1 <? String.length s)%nat; [|discriminate].
      apply IH in Hy. destruct Hy as [s' [cap' [Hk Hlen']]].
      exists s', cap'. split; [exact Hk|lia]. }
    assert (Hstop :
      forall y,
        (if (lo <=? n)%nat then k s cap else None) = Some y ->
        exists s' cap', k s' cap' = Some y /\ String.length s' <= String.length s).
    { intros y Hy. destruct (lo <=? n)%nat; [|discriminate].
      exists s, cap. split; auto. }
    destruct greedy.
    + destruct (if Regex.below hi n then _ else None) as [y|] eqn:Hm.
      * intro Heq. injection Heq as <-. apply Hmore. reflexivity.
      * apply Hstop.
    + destruct (if (lo <=? n)%nat then k s cap else None) as [y|] eqn:Hs.
      * intro Heq. injection Heq as <-. apply Hstop. reflexivity.
      * apply Hmore.
Qed.

Lemma run_cont (r : Regex.t) :
  forall s cap k x,
    Regex.run r s cap k = Some x ->
    exists s' cap', k s' cap' = Some x /\ String.length s' <= String.length s.
Proof.
  induction r as [|p|a IHa b IHb|a IHa b IHb|g lo hi body IH|body IH|];
    intros s cap k x Hrun.
  - exists s, cap. split; [exact Hrun|lia].
  - cbn [Regex.run] in Hrun. destruct s as [|c s]; [discriminate|].
    destruct (p c); [|discriminate].
    exists s, cap. split; [exact Hrun|simpl; lia].
  - cbn [Regex.run] in Hrun. apply IHa in Hrun.
    destruct Hrun as [s1 [cap1 [Hrun Hlen]]].
    apply IHb in Hrun. destruct Hrun as [s' [cap' [Hk Hlen']]].
    exists s', cap'. split; [exact Hk|lia].
  - cbn [Regex.run] in Hrun.
    destruct (Regex.run a s cap k) as [y|] eqn:Ha.
    + injection Hrun as <-. apply IHa in Ha. exact Ha.
    + apply IHb in Hrun. exact Hrun.
  - cbn [Regex.run] in Hrun. eapply iter_cont; [|exact Hrun]. exact IH.
  - cbn [Regex.run] in Hrun. apply IH in Hrun.
    destruct Hrun as [s' [cap' [Hk Hlen]]]. eauto.
  - cbn [Regex.run] in Hrun. destruct s; [|discriminate].
    exists "", cap. split; [exact Hrun|lia].
Qed.

Section Iteration.

Variable k : Regex.cont.

(** A lazy [[\s\S]*?] hands over at the first place where what follows
    matches. *)
Lemma lazy_any_stops (u v : string) (cap : option string)
    (x : string * option string) :
  forall fuel n,
    String.length u < fuel ->
    (forall u1 c u2, u = u1 ++ String c u2 -> k (String c u2 ++ v) cap = None) ->
    k v cap = Some x ->
    Regex.iter (Regex.run Regex.any) false 0 None k fuel n (u ++ v) cap = Some x.
Proof.
  induction u as [|c u IH]; intros fuel n Hfuel Hnone Hstop.
  - rewrite iter_eq. cbn [Nat.leb append]. rewrite Hstop. reflexivity.
  - destruct fuel as [|fuel]; [simpl in Hfuel; lia|].
    rewrite iter_eq. cbn [Nat.leb Regex.below].
    rewrite (Hnone "" c u eq_refl).
    change (String c u ++ v) with (String c (u ++ v)).
    cbn [Regex.run Regex.any]. rewrite shorter.
    apply IH.
    + simpl in Hfuel. lia.
    + intros u1 d u2 Heq. apply (Hnone (String c u1) d u2). rewrite Heq.
      reflexivity.
    + exact Hstop.
Qed.

(** A greedy [[\s\S]*] fails where what follows matches at no later place. *)
Lemma greedy_any_none (v : string) (cap : option string) :
  forall fuel n,
    (forall v1 v2, v = v1 ++ v2 -> k v2 cap = None) ->
    Regex.iter (Regex.run Regex.any) true 0 None k fuel n v cap = None.
Proof.
  induction v as [|c v IH]; intros fuel n Hnone.
  - rewrite iter_eq. cbn [Nat.leb Regex.below].
    rewrite (Hnone "" "" eq_refl).
    destruct fuel; reflexivity.
  - rewrite iter_eq. cbn [Nat.leb Regex.below].
    rewrite (Hnone "" (String c v) eq_refl).
    destruct fuel as [|fuel]; [reflexivity|].
    cbn [Regex.run Regex.any]. rewrite shorter.
    rewrite IH; [reflexivity|].
    intros v1 v2 Heq. apply (Hnone (String c v1) v2). rewrite Heq. reflexivity.
Qed.

(** A greedy [\s*] in front of something that cannot start with white space
    skips exactly the white space. *)
Lemma greedy_space_skips (s : string) (cap : option string) :
  (forall c s', JS.isSpace c = true -> k (String c s') cap = None) ->
  forall fuel n,
    String.length s < fuel ->
    Regex.iter (Regex.run Regex.space) true 0 None k fuel n s cap
    = k (JS.trimStart s) cap.
Proof.
  intro Hk. induction s as [|c s IH]; intros fuel n Hfuel;
    (destruct fuel as [|fuel]; [simpl in Hfuel; lia|]);
    rewrite iter_eq; cbn [Regex.below Nat.leb]; cbv beta iota zeta.
  - reflexivity.
  - cbn [Regex.run Regex.space JS.trimStart].
    destruct (JS.isSpace c) eqn:Hc.
    + rewrite shorter. rewrite IH by (simpl in Hfuel; lia).
      destruct (k (JS.trimStart s) cap); [reflexivity|].
      apply Hk. exact Hc.
    + reflexivity.
Qed.

End Iteration.

(** *** The span between braces *)

Lemma closing_absent (v v1 v2 : string) (cap : option string) :
  JS.includes v "}" = false -> v = v1 ++ v2 -> closing v2 cap = None.
Proof.
  intros Hv ->. rewrite includes_char_app in Hv.
  apply orb_false_iff in Hv. destruct Hv as [_ Hv2].
  destruct v2 as [|c v2]; [reflexivity|].
  rewrite includes_char_cons in Hv2. apply orb_false_iff in Hv2.
  destruct Hv2 as [Hc _]. unfold closing. cbn [Regex.run Regex.chr].
  rewrite Hc. reflexivity.
Qed.

Lemma greedy_any_to_last_brace (mid v : string) (cap : option string) :
  forall fuel n,
    String.length (mid ++ "}" ++ v) < fuel ->
    JS.includes v "}" = false ->
    Regex.iter (Regex.run Regex.any) true 0 None closing fuel n
      (mid ++ "}" ++ v) cap
    = Some (v, cap).
Proof.
  induction mid as [|c mid IH]; intros fuel n Hfuel Hv;
    (destruct fuel as [|fuel]; [simpl in Hfuel; lia|]);
    rewrite iter_eq; cbn [Nat.leb Regex.below].
  - change ("" ++ "}" ++ v) with (String "}" v).
    cbn [Regex.run Regex.any]. rewrite shorter.
    rewrite greedy_any_none; [reflexivity|].
    intros v1 v2. apply closing_absent. exact Hv.
  - change (String c mid ++ "}" ++ v) with (String c (mid ++ "}" ++ v)).
    cbn [Regex.run Regex.any]. rewrite shorter.
    rewrite IH; [reflexivity| |exact Hv].
    simpl in Hfuel |- *. lia.
Qed.

Lemma braces_matchAt (mid v : string) :
  JS.includes v "}" = false ->
  Regex.matchAt braces ("{" ++ mid ++ "}" ++ v) = Some (v, None).
Proof.
  intro Hv. unfold Regex.matchAt, braces.
  cbn [Regex.seq Regex.run Regex.chr Regex.star append Ascii.eqb Bool.eqb].
  apply (greedy_any_to_last_brace mid v None); [simpl; lia|exact Hv].
Qed.

Lemma braces_matchAt_other (c : ascii) (s : string) :
  Ascii.eqb "{" c = false -> Regex.matchAt braces (String c s) = None.
Proof.
  intro Hc. unfold Regex.matchAt, braces.
  cbn [Regex.seq Regex.run Regex.chr]. rewrite Hc. reflexivity.
Qed.

(** [braces] selects from the first opening brace to the last closing one. *)
Lemma braces_search (u mid v : string) :
  JS.includes u "{" = false ->
  JS.includes v "}" = false ->
  Regex.search braces (u ++ "{" ++ mid ++ "}" ++ v)
  = Some {| Regex.before := u;
            Regex.matched := "{" ++ mid ++ "}";
            Regex.group1 := None;
            Regex.after := v |}.
Proof.
  intros Hu Hv. induction u as [|c u IH].
  - change ("" ++ "{" ++ mid ++ "}" ++ v) with ("{" ++ mid ++ "}" ++ v).
    assert (Hm := braces_matchAt mid v Hv).
    assert (Hsub : substring 0
              (String.length ("{" ++ mid ++ "}" ++ v) - String.length v)
              ("{" ++ mid ++ "}" ++ v) = "{" ++ mid ++ "}").
    { replace ("{" ++ mid ++ "}" ++ v) with (("{" ++ mid ++ "}") ++ v).
      - apply consumed_prefix.
      - rewrite !append_assoc. reflexivity. }
    rewrite (search_hit _ _ _ _ Hm), Hsub. reflexivity.
  - rewrite includes_char_cons in Hu. apply orb_false_iff in Hu.
    destruct Hu as [Hc Hu].
    change (String c u ++ "{" ++ mid ++ "}" ++ v)
      with (String c (u ++ "{" ++ mid ++ "}" ++ v)).
    rewrite search_miss by (apply braces_matchAt_other; exact Hc).
    rewrite (IH Hu). reflexivity.
Qed.

(** *** Fences and backticks *)

Lemma no_backtick_inside (t u1 u2 : string) (c : ascii) :
  JS.includes t "`" = false ->
  t ++ JS.nl = u1 ++ String c u2 ->
  Ascii.eqb "`" c = false.
Proof.
  intros Ht Heq.
  assert (Hall : JS.includes (t ++ JS.nl) "`" = false).
  { rewrite includes_char_app, Ht. reflexivity. }
  rewrite Heq, includes_char_app, includes_char_cons in Hall.
  apply orb_false_iff in Hall. destruct Hall as [_ Hall].
  apply orb_false_iff in Hall. tauto.
Qed.

Lemma fence_matchAt_fenced (t : string) :
  JS.includes t "`" = false ->
  Regex.matchAt fence (fenced t) = Some ("", Some (t ++ JS.nl)).
Proof.
  intro Ht. unfold Regex.matchAt, fence, fenced.
  cbn [Regex.seq]. rewrite run_Seq.
  replace ("```json" ++ JS.nl ++ t ++ JS.nl ++ "```")
    with ("```" ++ "json" ++ JS.nl ++ (t ++ JS.nl) ++ "```")
    by (rewrite (append_assoc t); reflexivity).
  rewrite run_lit_hit, run_Seq.
  apply run_opt_lit_hit. rewrite run_Seq.
  apply (run_opt_lit_hit "010" "").
  rewrite run_Seq, run_Group. unfold Regex.lazyStar. rewrite run_Rep.
  apply lazy_any_stops.
  - rewrite (length_append (t ++ JS.nl) "```"). lia.
  - intros u1 c u2 Heq.
    change (String c u2 ++ "```") with (String c (u2 ++ "```")).
    apply run_lit_miss. eapply no_backtick_inside; eassumption.
  - rewrite run_lit_exact.
    unfold Regex.accept. rewrite consumed_prefix. reflexivity.
Qed.

Lemma replaceFuel_nil (r : Regex.t) (f : Regex.hit -> string) (fuel : nat) :
  Regex.matchAt r "" = None -> Regex.replaceFuel fuel r f "" = "".
Proof.
  intro Hm. destruct fuel; [reflexivity|]. simpl. rewrite Hm. reflexivity.
Qed.

Lemma fence_replace_fenced (t : string) :
  JS.includes t "`" = false ->
  Regex.replaceAll fence Regex.dollar1 (fenced t) = t ++ JS.nl.
Proof.
  intro Ht. unfold Regex.replaceAll. cbn [Regex.replaceFuel].
  rewrite (search_hit _ _ _ _ (fence_matchAt_fenced t Ht)).
  cbn [Regex.matched Regex.after Regex.before Regex.group1 Regex.dollar1].
  rewrite replaceFuel_nil by reflexivity.
  rewrite Nat.sub_0_r.
  destruct (substring 0 (String.length (fenced t)) (fenced t)) eqn:Hsub.
  - exfalso. unfold fenced in Hsub. simpl in Hsub. discriminate.
  - cbn [append]. rewrite append_nil_r. reflexivity.
Qed.

Lemma fence_search_none (s : string) :
  JS.includes s "`" = false -> Regex.search fence s = None.
Proof.
  apply search_first_char; [reflexivity|].
  intros d s' Hd. unfold Regex.matchAt, fence. cbn [Regex.seq].
  rewrite run_Seq. apply run_lit_miss. exact Hd.
Qed.

Lemma backtick_search_none (s : string) :
  JS.includes s "`" = false -> Regex.search (Regex.chr "`") s = None.
Proof.
  apply search_first_char; [reflexivity|].
  intros d s' Hd. apply run_chr_miss. exact Hd.
Qed.

(** *** Trailing commas *)

Lemma commaBefore_matchAt (close : ascii) (s : string) :
  JS.isSpace close = false ->
  Regex.matchAt (commaBefore close) s
  = match s with
    | String c s1 => if Ascii.eqb "," c then closes close s1 else None
    | EmptyString => None
    end.
Proof.
  intro Hclose. unfold Regex.matchAt, commaBefore. cbn [Regex.seq].
  rewrite run_Seq. destruct s as [|c s1]; [reflexivity|].
  destruct (Ascii.eqb "," c) eqn:Hc.
  - apply Ascii.eqb_eq in Hc. subst c. rewrite run_chr_hit, run_Seq.
    unfold Regex.star. rewrite run_Rep.
    rewrite greedy_space_skips; [|intros d s' Hd|lia].
    + unfold closes. destruct (JS.trimStart s1) as [|d rest]; [reflexivity|].
      cbn [Regex.run Regex.chr Regex.accept]. reflexivity.
    + apply run_chr_miss. destruct (Ascii.eqb close d) eqn:Heq; [|reflexivity].
      apply Ascii.eqb_eq in Heq. subst d. congruence.
  - apply run_chr_miss. exact Hc.
Qed.

Lemma closes_after_comma (close : ascii) (u post : string) :
  JS.isSpace close = false ->
  closes close (u ++ String close post) = None ->
  closes close (u ++ String "," (String close post)) = None.
Proof.
  intros Hclose. unfold closes. induction u as [|e u IH]; intro Hnone.
  - cbn [append JS.trimStart] in Hnone. rewrite Hclose, Ascii.eqb_refl in Hnone.
    discriminate.
  - cbn [append JS.trimStart] in Hnone |- *.
    destruct (JS.isSpace e); [apply IH; exact Hnone|].
    destruct (Ascii.eqb close e); [discriminate|reflexivity].
Qed.

(** One comma put before a closing character, in a text that had no comma
    before such a character: it is the first match, and it is removed. *)
Lemma commaBefore_search_inserted (close : ascii) (pre post : string) :
  JS.isSpace close = false ->
  Ascii.eqb "," close = false ->
  Regex.search (commaBefore close) (pre ++ String close post) = None ->
  Regex.search (commaBefore close) (pre ++ String "," (String close post))
  = Some {| Regex.before := pre;
            Regex.matched := String "," (String close "");
            Regex.group1 := None;
            Regex.after := post |}.
Proof.
  intros Hclose Hcomma. induction pre as [|d pre IH]; intro Hnone.
  - cbn [append].
    assert (Hm : Regex.matchAt (commaBefore close) (String "," (String close post))
                 = Some (post, None)).
    { rewrite commaBefore_matchAt by exact Hclose.
      rewrite Ascii.eqb_refl. unfold closes. cbn [JS.trimStart].
      rewrite Hclose, Ascii.eqb_refl. reflexivity. }
    rewrite (search_hit _ _ _ _ Hm).
    change (String "," (String close post))
      with (String "," (String close "") ++ post).
    rewrite consumed_prefix. reflexivity.
  - change (String d pre ++ String close post)
      with (String d (pre ++ String close post)) in Hnone.
    apply search_none_inv in Hnone. destruct Hnone as [Hhere Hrest].
    change (String d pre ++ String "," (String close post))
      with (String d (pre ++ String "," (String close post))).
    rewrite search_miss.
    + rewrite (IH Hrest). reflexivity.
    + rewrite commaBefore_matchAt in Hhere |- * by exact Hclose.
      destruct (Ascii.eqb "," d); [|reflexivity].
      apply closes_after_comma; assumption.
Qed.

Lemma commaBefore_replace_inserted (close : ascii) (pre post : string) :
  JS.isSpace close = false ->
  Ascii.eqb "," close = false ->
  Regex.search (commaBefore close) (pre ++ String close post) = None ->
  Regex.replaceAll (commaBefore close) (fun _ => String close "")
    (pre ++ String "," (String close post))
  = pre ++ String close post.
Proof.
  intros Hclose Hcomma Hnone. unfold Regex.replaceAll. cbn [Regex.replaceFuel].
  rewrite (commaBefore_search_inserted close pre post Hclose Hcomma Hnone).
  cbn [Regex.matched Regex.after Regex.before].
  rewrite replaceFuel_none; [reflexivity|].
  apply (search_none_suffix _ (pre ++ String close "")).
  rewrite append_assoc. exact Hnone.
Qed.

(** ** Extraction of lab values *)

(** The parsed map has at most one entry per analyte, and only analytes of
    the thresholds table. *)
Lemma parseLabValues_keys (text : string) :
  Forall (fun k => JS.lookup k labThresholds <> None)
         (JS.keys (parseLabValues text))
  /\ NoDup (JS.keys (parseLabValues text)).
Proof.
  unfold parseLabValues. generalize (normalizeText text) as norm. intro norm.
  unfold patterns. cbn [fold_left]. unfold parseStep.
  cbn [Pattern.key Pattern.regex].
  repeat match goal with
         | |- context [match Regex.search ?r norm with _ => _ end] =>
             destruct (Regex.search r norm)
         end;
    cbn -[labThresholds];
    (split;
     [ repeat constructor; cbn; discriminate
     | repeat constructor; cbn; intuition discriminate ]).
Qed.

(** An analyte has an entry exactly when its expression matches the
    normalised text. *)
Lemma parseLabValues_entries (text : string) (p : Pattern.t) :
  In p patterns ->
  JS.lookup (Pattern.key p) (parseLabValues text) = None
  <-> Regex.search (Pattern.regex p) (normalizeText text) = None.
Proof.
  unfold parseLabValues. generalize (normalizeText text) as norm. intro norm.
  intro Hin. unfold patterns in Hin. cbn [In] in Hin.
  unfold patterns. cbn [fold_left]. unfold parseStep.
  cbn [Pattern.key Pattern.regex].
  destruct Hin as [<-|[<-|[<-|[]]]]; cbn [Pattern.key Pattern.regex];
    repeat match goal with
           | |- context [match Regex.search ?r norm with _ => _ end] =>
               destruct (Regex.search r norm) eqn:?
           end;
    cbn; split; intro; try discriminate; try reflexivity; congruence.
Qed.

(** A group that must start with a digit captures a text that starts with
    a digit. *)
Lemma digits_group_capture (rest : Regex.t) s cap k x :
  Regex.run (Regex.Group (Regex.Seq (Regex.plus Regex.digit) rest)) s cap k
    = Some x ->
  exists s' d g,
    k s' (Some (String d g)) = Some x /\ JS.isDigit d = true.
Proof.
  rewrite run_Group, run_Seq. unfold Regex.plus. rewrite run_Rep, iter_eq.
  cbv beta iota zeta. change (1 <=? 0)%nat with false. cbn [Regex.below].
  destruct (Regex.run Regex.digit s cap _) as [y|] eqn:Hfirst;
    cbv beta iota; [|discriminate].
  intro Heq. injection Heq as <-.
  cbn [Regex.run Regex.digit] in Hfirst.
  destruct s as [|d s1]; [discriminate Hfirst|].
  destruct (JS.isDigit d) eqn:Hd; [|discriminate Hfirst].
  rewrite shorter in Hfirst.
  apply (iter_cont _ _ _ _ _ (run_cont Regex.digit)) in Hfirst.
  destruct Hfirst as [s2 [cap2 [Hrest Hlen2]]].
  apply run_cont in Hrest. destruct Hrest as [s3 [cap3 [Hk Hlen3]]].
  exists s3, d.
  assert (Hsub : exists m,
            String.length (String d s1) - String.length s3 = S m).
  { exists (String.length s1 - String.length s3).
    change (String.length (String d s1)) with (S (String.length s1)). lia. }
  destruct Hsub as [m Hm]. rewrite Hm in Hk. cbn [substring] in Hk.
  eexists. split; [exact Hk|exact Hd].
Qed.

Lemma search_matchAt (r : Regex.t) (s : string) (h : Regex.hit) :
  Regex.search r s = Some h ->
  exists u, Regex.matchAt r u = Some (Regex.after h, Regex.group1 h).
Proof.
  revert h. induction s as [|c s IH]; intros h.
  - simpl. destruct (Regex.matchAt r "") as [[rest cap]|] eqn:Hm; [|discriminate].
    intro Heq. injection Heq as <-. exists "". exact Hm.
  - cbn [Regex.search].
    destruct (Regex.matchAt r (String c s)) as [[rest cap]|] eqn:Hm.
    + intro Heq. injection Heq as <-. exists (String c s). exact Hm.
    + destruct (Regex.search r s) as [h'|]; [|discriminate].
      intro Heq. injection Heq as <-. cbn [Regex.after Regex.group1].
      apply IH. reflexivity.
Qed.

(** The patterns that end with [decimalGroup] capture a text that starts
    with a digit. *)
Lemma decimal_pattern_capture (label : Regex.t) (s : string) (h : Regex.hit) :
  Regex.search
    (Regex.seq [label; Regex.upTo 20 Regex.notDigit; decimalGroup]) s = Some h ->
  exists d g, Regex.group1 h = Some (String d g) /\ JS.isDigit d = true.
Proof.
  intro Hs. apply search_matchAt in Hs. destruct Hs as [u Hm].
  unfold Regex.matchAt in Hm. cbn [Regex.seq] in Hm.
  rewrite run_Seq in Hm. apply run_cont in Hm. destruct Hm as [s1 [cap1 [Hm _]]].
  rewrite run_Seq in Hm. apply run_cont in Hm. destruct Hm as [s2 [cap2 [Hm _]]].
  unfold decimalGroup in Hm. apply digits_group_capture in Hm.
  destruct Hm as [s' [d [g [Hacc Hd]]]].
  unfold Regex.accept in Hacc. injection Hacc as _ Hcap.
  exists d, g. split; [symmetry; exact Hcap|exact Hd].
Qed.

Lemma digit_not_comma (d : ascii) :
  JS.isDigit d = true -> Ascii.eqb "," d = false.
Proof.
  intro Hd. destruct (Ascii.eqb "," d) eqn:Heq; [|reflexivity].
  apply Ascii.eqb_eq in Heq. subst d. discriminate.
Qed.

Lemma digit_not_space (d : ascii) :
  JS.isDigit d = true -> JS.isSpace d = false.
Proof.
  unfold JS.isDigit, JS.isSpace, JS.between. intro Hd.
  apply andb_true_iff in Hd. destruct Hd as [Hlo Hhi].
  apply Nat.leb_le in Hlo.
  apply orb_false_iff. split.
  - apply andb_false_iff. right. apply Nat.leb_gt. lia.
  - apply Nat.eqb_neq. lia.
Qed.

(** Removing the commas keeps a leading digit in place. *)
Lemma strip_commas_keeps_digit (d : ascii) (g : string) :
  JS.isDigit d = true ->
  exists g',
    Regex.replaceAll (Regex.chr ",") (fun _ => "") (String d g) = String d g'.
Proof.
  intro Hd. unfold Regex.replaceAll. cbn [Regex.replaceFuel].
  rewrite search_miss by (apply run_chr_miss, digit_not_comma; exact Hd).
  destruct (Regex.search (Regex.chr ",") g) as [h|]; [|eexists; reflexivity].
  cbn [Regex.matched Regex.after Regex.before].
  destruct (Regex.matched h); [destruct (Regex.after h)|];
    cbn [append]; eexists; reflexivity.
Qed.

Lemma readDigits_count (s : string) :
  forall acc n ip ni rest,
    JS.readDigits s acc n = (ip, ni, rest) -> n <= ni.
Proof.
  induction s as [|c s IH]; intros acc n ip ni rest; cbn [JS.readDigits].
  - intro Heq. injection Heq as _ <- _. lia.
  - destruct (JS.isDigit c).
    + intro Heq. apply IH in Heq. lia.
    + intro Heq. injection Heq as _ <- _. lia.
Qed.

Lemma parseFloat_leading_digit (d : ascii) (g : string) :
  JS.isDigit d = true -> JS.parseFloat (String d g) <> JS.NaN.
Proof.
  intro Hd. unfold JS.parseFloat. cbn [JS.trimStart].
  rewrite (digit_not_space d Hd). cbn [JS.readDigits]. rewrite Hd.
  destruct (JS.readDigits g _ 1) as [[ip ni] rest] eqn:Hread.
  apply readDigits_count in Hread.
  assert (Hni : (ni =? 0)%nat = false) by (apply Nat.eqb_neq; lia).
  destruct rest as [|c rest]; [rewrite Hni; discriminate|].
  destruct (Ascii.eqb c ".") eqn:Hc.
  - apply Ascii.eqb_eq in Hc. subst c.
    destruct (JS.readDigits rest 0%Z 0) as [[fp nf] rest'].
    rewrite Hni. cbn [andb]. discriminate.
  - destruct c as [[] [] [] [] [] [] [] []]; try (rewrite Hni; discriminate).
Qed.

(** The patterns that require a digit never yield NaN. *)
Lemma decimal_entries_are_numbers (text : string) (v : JS.number) :
  JS.lookup "hemoglobin" (parseLabValues text) = Some v
  \/ JS.lookup "glucose_fasting" (parseLabValues text) = Some v ->
  v <> JS.NaN.
Proof.
  unfold parseLabValues. generalize (normalizeText text) as norm. intro norm.
  unfold patterns. cbn [fold_left]. unfold parseStep.
  cbn [Pattern.key Pattern.regex].
  repeat match goal with
         | |- context [match Regex.search ?r norm with _ => _ end] =>
             destruct (Regex.search r norm) eqn:?
         end;
    repeat match goal with
           | Hs : Regex.search (Regex.seq [_; _; decimalGroup]) _ = Some _ |- _ =>
               apply decimal_pattern_capture in Hs;
               destruct Hs as [? [? [? ?]]]
           end;
    cbn -[Regex.replaceAll JS.parseFloat]; intros [Hv|Hv]; try discriminate;
    injection Hv as <-;
    unfold Regex.dollar1;
    repeat match goal with
           | Hg : Regex.group1 ?m = Some _ |- context [Regex.group1 ?m] =>
               rewrite Hg
           end;
    match goal with
    | Hd : JS.isDigit ?d = true
      |- JS.parseFloat (Regex.replaceAll _ _ (String ?d ?g)) <> _ =>
        destruct (strip_commas_keeps_digit d g Hd) as [g' ->];
        apply parseFloat_leading_digit; exact Hd
    end.
Qed.

(** C9.  The claim fails on the platelet pattern, whose group accepts a text
    made of commas alone: the text below yields an entry that is NaN. *)
Theorem parseLabValues_platelet_NaN :
  parseLabValues "platelets, normal" = [("platelet", JS.NaN)].
Proof. vm_compute. reflexivity. Qed.

(** ** Extraction of JSON *)

(** C8, as stated, fails twice.  The span handed to the parser is not the
    first balanced one: of two objects in a row the first balanced span is
    the first object, which parses, and the extraction returns null.  And an
    object is not always returned from its fence: a backtick inside one of
    its strings is removed with the others. *)
Lemma extraction_not_first_balanced_span :
  Spec.firstBalancedSpan twoObjects = Some objA
  /\ RefHost.JSON_parse objA = Some (JS.Obj [("a", JS.Num (JS.Fin 1))])
  /\ extractJsonFromText (H := RefHost.host) (JS.Str twoObjects) = JS.Null
  /\ RefHost.JSON_parse objTick = Some (JS.Obj [("a", JS.Str "`")])
  /\ extractJsonFromText (H := RefHost.host) (JS.Str (fenced objTick))
     = JS.Obj [("a", JS.Str "")].
Proof. repeat split; vm_compute; reflexivity. Qed.

Section Extraction.

Context `{Host}.

(** C8, amended.  The extraction removes the fences, then every backtick,
    and hands to the parser the span from the first opening brace to the
    last closing brace, a second time without the commas that stand before a
    closing brace or bracket when the first parse fails.  For every text [t]
    without backticks that the parser reads as [O]: when [t] opens with a
    brace and ends with one, [t] in a json fence yields [O]; and [t] with
    one comma put before one of its closing braces yields [O], when the
    result still opens and ends with a brace, the parser refuses it, and [t]
    itself has no comma before a closing brace or bracket. *)
Theorem extractJsonFromText_tolerant :
  forall (t : string) (O : JS.value),
    JS.JSON_parse t = Some O ->
    JS.includes t "`" = false ->
    (* the span handed to the parser *)
    (forall u mid v : string,
       JS.includes u "{" = false ->
       JS.includes v "}" = false ->
       Regex.search braces (u ++ "{" ++ mid ++ "}" ++ v)
       = Some {| Regex.before := u;
                 Regex.matched := "{" ++ mid ++ "}";
                 Regex.group1 := None;
                 Regex.after := v |})
    (* the object in a json fence *)
    /\ ((exists mid, t = "{" ++ mid ++ "}") ->
        extractJsonFromText (JS.Str (fenced t)) = O)
    (* the object with one comma put before a closing brace *)
    /\ (forall pre post mid : string,
          t = pre ++ "}" ++ post ->
          pre ++ ",}" ++ post = "{" ++ mid ++ "}" ->
          JS.JSON_parse (pre ++ ",}" ++ post) = None ->
          Regex.search (commaBefore "}") t = None ->
          Regex.search (commaBefore "]") t = None ->
          extractJsonFromText (JS.Str (pre ++ ",}" ++ post)) = O).
Proof.
  intros t O Hparse Htick. split; [|split].
  - intros u mid v. apply braces_search.
  - intros [mid Ht].
    unfold extractJsonFromText.
    change (JS.truthyStr (fenced t)) with true. cbn [negb].
    rewrite (fence_replace_fenced t Htick).
    assert (Htick' : JS.includes (t ++ JS.nl) "`" = false).
    { rewrite includes_char_app, Htick. reflexivity. }
    rewrite (replaceAll_none _ _ _ (backtick_search_none _ Htick')).
    rewrite Ht.
    replace (("{" ++ mid ++ "}") ++ JS.nl) with ("" ++ "{" ++ mid ++ "}" ++ JS.nl)
      by (cbn [append]; rewrite append_assoc; reflexivity).
    rewrite braces_search by reflexivity.
    cbn [Regex.matched]. rewrite <- Ht, Hparse. reflexivity.
  - intros pre post mid Ht Hshape Hbad Hbrace Hbracket.
    assert (Htick' : JS.includes (pre ++ ",}" ++ post) "`" = false).
    { rewrite Ht in Htick. rewrite includes_char_app in Htick |- *.
      apply orb_false_iff in Htick. destruct Htick as [Hpre Hpost].
      rewrite Hpre. cbn [orb].
      change (",}" ++ post) with (String "," ("}" ++ post)).
      rewrite includes_char_cons. exact Hpost. }
    unfold extractJsonFromText.
    assert (Hne : JS.truthyStr (pre ++ ",}" ++ post) = true)
      by (rewrite Hshape; reflexivity).
    rewrite Hne. cbn [negb].
    rewrite (replaceAll_none _ _ _ (fence_search_none _ Htick')).
    rewrite (replaceAll_none _ _ _ (backtick_search_none _ Htick')).
    assert (Hspan : Regex.search braces (pre ++ ",}" ++ post)
                    = Some {| Regex.before := "";
                              Regex.matched := pre ++ ",}" ++ post;
                              Regex.group1 := None;
                              Regex.after := "" |}).
    { rewrite Hshape.
      replace ("{" ++ mid ++ "}") with ("" ++ "{" ++ mid ++ "}" ++ "") at 1
        by (cbn [append]; reflexivity).
      rewrite braces_search by reflexivity. reflexivity. }
    rewrite Hspan. cbn [Regex.matched]. rewrite Hbad.
    rewrite Ht in Hbrace.
    change (pre ++ ",}" ++ post) with (pre ++ String "," (String "}" post)).
    rewrite (commaBefore_replace_inserted "}" pre post eq_refl eq_refl Hbrace).
    change (pre ++ String "}" post) with (pre ++ "}" ++ post).
    rewrite <- Ht. rewrite (replaceAll_none _ _ _ Hbracket), Hparse.
    reflexivity.
Qed.

End Extraction.

Lemma extractJsonFromText_tolerant_witness :
  extractJsonFromText (H := RefHost.host) (JS.Str (fenced objA))
    = JS.Obj [("a", JS.Num (JS.Fin 1))]
  /\ extractJsonFromText (H := RefHost.host) (JS.Str objAComma)
    = JS.Obj [("a", JS.Num (JS.Fin 1))].
Proof.
  assert (Hparse : JS.JSON_parse (Host := RefHost.host) objA
                   = Some (JS.Obj [("a", JS.Num (JS.Fin 1))]))
    by (vm_compute; reflexivity).
  assert (Htick : JS.includes objA "`" = false) by (vm_compute; reflexivity).
  destruct (extractJsonFromText_tolerant (H := RefHost.host) objA _ Hparse Htick)
    as [_ [Hfence Hcomma]].
  split.
  - apply Hfence. exists (dq ++ "a" ++ dq ++ ":1"). reflexivity.
  - apply (Hcomma ("{" ++ dq ++ "a" ++ dq ++ ":1") "" (dq ++ "a" ++ dq ++ ":1,"));
      vm_compute; reflexivity.
Defined.

(** ** The gateway *)

Lemma mapM_returns {A B : Type} (f : A -> JS.outcome B) (l : list A) :
  Forall (fun x => exists y, f x = Returned y) l ->
  exists ys,
    JS.mapM f l = Returned ys /\ Forall2 (fun x y => f x = Returned y) l ys.
Proof.
  induction 1 as [|x l [y Hy] _ [ys [Hys Hall]]].
  - exists []. split; [reflexivity|constructor].
  - exists (y :: ys). simpl. rewrite Hy, Hys. split; [reflexivity|].
    constructor; assumption.
Qed.

Lemma assessValue_has_range (thresholds : Conf.table) key v meta :
  JS.lookup key thresholds <> None ->
  exists range,
    Assessment.normalRange (assessValue thresholds key v meta) = Some range.
Proof.
  intro Hkey. unfold assessValue.
  destruct (JS.lookup key thresholds) as [conf|] eqn:Hown; [|contradiction].
  rewrite (get_own _ _ _ Hown).
  destruct (match JS.lookup _ (Conf.bySex conf) with Some r => _ | None => _ end)
    as [lo hi].
  eexists. reflexivity.
Qed.

Lemma assessValue_has_unit (thresholds : Conf.table) key v meta :
  JS.lookup key thresholds <> None ->
  exists unit,
    Assessment.unit (assessValue thresholds key v meta) = Some unit.
Proof.
  intro Hkey. unfold assessValue.
  destruct (JS.lookup key thresholds) as [conf|] eqn:Hown; [|contradiction].
  rewrite (get_own _ _ _ Hown).
  destruct (match JS.lookup _ (Conf.bySex conf) with Some r => _ | None => _ end)
    as [lo hi].
  eexists. reflexivity.
Qed.

Lemma assessAll_units (text : string) (meta : PatientMeta.t) :
  Forall (fun a => exists unit, Assessment.unit a = Some unit)
         (assessAll (parseLabValues text) meta).
Proof.
  unfold assessAll. apply Forall_map.
  destruct (parseLabValues_keys text) as [Hkeys _].
  eapply Forall_impl; [|exact Hkeys].
  intros key Hkey. apply assessValue_has_unit. exact Hkey.
Qed.

(** Every assessment the gateway builds has a normal range: the analytes of
    the patterns are all in the table. *)
Lemma assessAll_ranges (text : string) (meta : PatientMeta.t) :
  Forall (fun a => exists range, Assessment.normalRange a = Some range)
         (assessAll (parseLabValues text) meta).
Proof.
  unfold assessAll. apply Forall_map.
  destruct (parseLabValues_keys text) as [Hkeys _].
  eapply Forall_impl; [|exact Hkeys].
  intros key Hkey. apply assessValue_has_range. exact Hkey.
Qed.

Section GatewayFacts.

Context `{Host}.

Lemma promptLine_returns (a : Assessment.t) :
  (exists range, Assessment.normalRange a = Some range) ->
  exists line, promptLine a = Returned line.
Proof.
  intros [range Hrange]. unfold promptLine. rewrite Hrange. eexists. reflexivity.
Qed.

Lemma localExplanation_returns (a : Assessment.t) :
  (exists range, Assessment.normalRange a = Some range) ->
  exists e, localExplanation a = Returned e.
Proof.
  intros [range Hrange]. unfold localExplanation. rewrite Hrange.
  destruct (Status.eqb _ _); eexists; reflexivity.
Qed.

Lemma createWatsonPrompt_returns (text : string) (meta : PatientMeta.t) :
  exists prompt,
    createWatsonPrompt (assessAll (parseLabValues text) meta) meta
    = Returned prompt.
Proof.
  unfold createWatsonPrompt.
  destruct (mapM_returns promptLine (assessAll (parseLabValues text) meta))
    as [lines [Hlines _]].
  - eapply Forall_impl; [|apply assessAll_ranges].
    intros a. apply promptLine_returns.
  - rewrite Hlines. eexists. reflexivity.
Qed.

(** The explanation of an assessment that has a unit and a range: the
    object with its key, one of the two sentences, and its severity. *)
Lemma localExplanation_text (a : Assessment.t) (range : Conf.range)
    (unit : string) :
  Assessment.normalRange a = Some range ->
  Assessment.unit a = Some unit ->
  localExplanation a
  = Returned
      (JS.Obj
         [ ("key", JS.Str (Assessment.key a));
           ("explanation",
            JS.Str
              (if Status.eqb (Assessment.status a) Status.normal then
                 "Your " ++ Assessment.key a ++ " is within the normal range ("
                 ++ JS.showOpt (Conf.normalLow range) ++ "-"
                 ++ JS.showOpt (Conf.normalHigh range) ++ " " ++ unit ++ ")."
               else
                 "Your " ++ Assessment.key a ++ " is "
                 ++ Status.name (Assessment.status a) ++ " (value "
                 ++ JS.numberToString (Assessment.value a) ++ " " ++ unit
                 ++ "). Severity: " ++ Severity.name (Assessment.severity a)
                 ++ ". We recommend medical follow-up."));
           ("severity", JS.Str (Severity.name (Assessment.severity a))) ]).
Proof.
  intros Hrange Hunit. unfold localExplanation. rewrite Hrange, Hunit.
  destruct (Status.eqb (Assessment.status a) Status.normal); reflexivity.
Qed.

Lemma localFallback_returns (text : string) (meta : PatientMeta.t) :
  let A := assessAll (parseLabValues text) meta in
  exists explanations,
    Forall2 (fun a e => localExplanation a = Returned e) A explanations
    /\ localFallback A
       = Returned
           {| LabResult.assessments := A;
              LabResult.result :=
                JS.Obj [ ("explanations", JS.Arr explanations);
                         ("action_items", JS.Arr (map urgent (filter isSevere A)));
                         ("questions",
                          JS.Arr [JS.Str "Please consult a doctor for next steps."]) ];
              LabResult.rawWatson := JS.Null |}.
Proof.
  intro A. unfold localFallback.
  destruct (mapM_returns localExplanation A) as [es [Hes Hall]].
  - eapply Forall_impl; [|apply assessAll_ranges].
    intros a. apply localExplanation_returns.
  - exists es. rewrite Hes. split; [exact Hall|reflexivity].
Qed.

Variable out : outside.

Lemma post_received (req : Request.t) (w w' : world) (data : JS.value) :
  post out req w = (Returned data, w') ->
  net out (List.length (sent w)) req = inr data.
Proof.
  unfold post. destruct (net out _ req) as [err|d]; intro Heq;
    inversion Heq; reflexivity.
Qed.

(** What [callWatsonx] returns is the body of a response it received. *)
Lemma callWatsonx_received (prompt : string) (w w' : world) (resp : JS.value) :
  callWatsonx out prompt w = (Returned resp, w') ->
  exists n req, net out n req = inr resp.
Proof.
  unfold callWatsonx, callWatsonxChatStyle, callWatsonxChatStyleAlt.
  destruct (negb _ && _).
  { discriminate. }
  unfold bindM at 1.
  match goal with
  | |- context [match ?m w with _ => _ end] =>
      destruct (m w) as [[axiosOpts|err] w1]
  end; [|discriminate].
  unfold tryM at 1.
  match goal with
  | |- context [match ?m w1 with _ => _ end] =>
      destruct (m w1) as [[d|err] w2] eqn:Hfirst
  end.
  - intro Heq. inversion Heq; subst.
    destruct (looksLikeChat out _); apply post_received in Hfirst; eauto.
  - unfold bindM, tryM, ret, throw.
    destruct (looksLikeChat out _); [|discriminate].
    match goal with
    | |- context [post out ?r w2] =>
        destruct (post out r w2) as [[d|err2] w3] eqn:Hsecond
    end.
    + intro Heq. inversion Heq; subst. apply post_received in Hsecond. eauto.
    + match goal with
      | |- context [post out ?r w3] =>
          destruct (post out r w3) as [[d|err3] w4] eqn:Hthird
      end.
      * intro Heq. inversion Heq; subst. apply post_received in Hthird. eauto.
      * discriminate.
Qed.

(** C1, amended.  For every text, patient metadata, environment and
    behaviour of the transport, of the clock and of the host,
    [analyzeLabReport] returns: it never throws.  What it returns holds the
    list of assessments, one per parsed value, and a result, under the keys
    [assessments] and [result].  The result is an object whenever the
    service is unconfigured and whenever the call to it fails; after a call
    that succeeds it is the body of the response as the shape sniffing
    leaves it, of whatever type. *)
Theorem analyzeLabReport_never_throws :
  forall (rawText : string) (patientMeta : PatientMeta.t) (w : world),
    let A := assessAll (parseLabValues rawText) patientMeta in
    exists (r : LabResult.t) (w' : world),
      analyzeLabReport out rawText patientMeta w = (Returned r, w')
      /\ LabResult.assessments r = A
      /\ List.length (LabResult.assessments r)
         = List.length (parseLabValues rawText)
      /\ JS.get (LabResult.toValue r) "assessments"
         = Returned (JS.Arr (map Assessment.toValue (LabResult.assessments r)))
      /\ JS.get (LabResult.toValue r) "result" = Returned (LabResult.result r)
      /\ (isWatsonConfigured out = false ->
          JS.isObject (LabResult.result r) = true)
      /\ (forall prompt err w1,
            isWatsonConfigured out = true ->
            createWatsonPrompt A patientMeta = Returned prompt ->
            callWatsonx out prompt w = (Thrown err, w1) ->
            JS.isObject (LabResult.result r) = true)
      /\ (forall prompt resp w1,
            isWatsonConfigured out = true ->
            createWatsonPrompt A patientMeta = Returned prompt ->
            callWatsonx out prompt w = (Returned resp, w1) ->
            LabResult.result r
            = match sniff resp with
              | Returned generated => generated
              | Thrown _ => resp
              end).
Proof.
  intros rawText patientMeta w A.
  unfold analyzeLabReport. fold A.
  destruct (createWatsonPrompt_returns rawText patientMeta) as [prompt Hprompt].
  destruct (localFallback_returns rawText patientMeta) as [es [_ Hlocal]].
  fold A in Hprompt, Hlocal.
  assert (Hlen : List.length A = List.length (parseLabValues rawText)).
  { unfold A, assessAll, JS.keys. rewrite !length_map. reflexivity. }
  unfold bindM at 1. unfold lift at 1. rewrite Hprompt.
  destruct (isWatsonConfigured out); cbn [negb].
  - unfold bindM, tryM.
    destruct (callWatsonx out prompt w) as [[resp|err] w1] eqn:Hcall; cbn [ret].
    + eexists. eexists. repeat split; try exact Hlen; try discriminate.
      * intros p e w2 _ Hp. injection Hp as <-. rewrite Hcall. discriminate.
      * intros p resp' w2 _ Hp. injection Hp as <-. rewrite Hcall.
        intro Heq. injection Heq as <- _. reflexivity.
    + unfold lift. rewrite Hlocal. eexists. eexists.
      repeat split; try exact Hlen.
      intros p resp' w2 _ Hp. injection Hp as <-. rewrite Hcall. discriminate.
  - unfold lift. rewrite Hlocal. eexists. eexists.
    repeat split; try exact Hlen; discriminate.
Qed.

(** C2, amended.  [analyzeLabReport] puts no method tag on what it returns;
    provenance shows through [rawWatson] alone.  What is returned is either
    the local fallback, with [rawWatson] null and a result made of exactly
    [explanations], [action_items] and [questions], or a remote result,
    whose [rawWatson] is the body of a response received from the service
    and whose result is that body after shape sniffing.  Whenever the
    service is unconfigured it is the local fallback, and the world is left
    as it was. *)
Theorem provenance_by_rawWatson :
  forall (rawText : string) (patientMeta : PatientMeta.t) (w : world),
    let A := assessAll (parseLabValues rawText) patientMeta in
    exists (r : LabResult.t) (w' : world),
      analyzeLabReport out rawText patientMeta w = (Returned r, w')
      /\ ((localFallback A = Returned r
           /\ LabResult.rawWatson r = JS.Null
           /\ exists fields,
                LabResult.result r = JS.Obj fields
                /\ JS.keys fields = ["explanations"; "action_items"; "questions"])
          \/ (isWatsonConfigured out = true
              /\ exists n req resp,
                   net out n req = inr resp
                   /\ LabResult.rawWatson r = resp
                   /\ LabResult.result r
                      = match sniff resp with
                        | Returned generated => generated
                        | Thrown _ => resp
                        end))
      /\ (isWatsonConfigured out = false ->
          localFallback A = Returned r /\ w' = w).
Proof.
  intros rawText patientMeta w A.
  unfold analyzeLabReport. fold A.
  destruct (createWatsonPrompt_returns rawText patientMeta) as [prompt Hprompt].
  destruct (localFallback_returns rawText patientMeta) as [es [_ Hlocal]].
  fold A in Hprompt, Hlocal.
  unfold bindM at 1. unfold lift at 1. rewrite Hprompt.
  destruct (isWatsonConfigured out); cbn [negb].
  - unfold bindM, tryM.
    destruct (callWatsonx out prompt w) as [[resp|err] w1] eqn:Hcall; cbn [ret].
    + eexists. eexists. split; [reflexivity|]. split; [|discriminate].
      right. split; [reflexivity|].
      destruct (callWatsonx_received _ _ _ _ Hcall) as [n [req Hnet]].
      exists n, req, resp. repeat split. exact Hnet.
    + unfold lift. rewrite Hlocal. eexists. eexists. split; [reflexivity|].
      split; [|discriminate].
      left. repeat split. eexists. split; reflexivity.
  - unfold lift. rewrite Hlocal. eexists. eexists. split; [reflexivity|].
    split; [|intros _; split; reflexivity].
    left. repeat split. eexists. split; reflexivity.
Qed.

(** C7. If the service is unconfigured (no prediction URL, and not all three
    of base URL, deployment identifier and API key), [analyzeLabReport]
    issues no request: it leaves the world, hence the list of requests sent,
    as it found it.  It returns the local fallback built from the
    assessments.  Its explanations are one object per assessment, in order,
    with the key of the assessment, its severity, and the sentence of the
    template: [Your <key> is within the normal range (<low>-<high> <unit>).]
    for an assessment of status normal, and [Your <key> is <status> (value
    <value> <unit>). Severity: <severity>. We recommend medical follow-up.]
    for any other.  Its action items are [URGENT: see a doctor for <key>]
    for every assessment of severity severe and nothing else, and its
    questions are the one generic question. *)
Theorem unconfigured_local_fallback :
  forall (rawText : string) (patientMeta : PatientMeta.t) (w : world),
    JS.truthyOpt (Env.WATSON_PREDICTION_URL (env out)) = false ->
    ~ (JS.truthyOpt (Env.WATSON_URL (env out)) = true
       /\ JS.truthyOpt (Env.WATSON_DEPLOYMENT_ID (env out)) = true
       /\ JS.truthyOpt (Env.WATSON_APIKEY (env out)) = true) ->
    let A := assessAll (parseLabValues rawText) patientMeta in
    exists explanations : list JS.value,
      analyzeLabReport out rawText patientMeta w
      = (Returned
           {| LabResult.assessments := A;
              LabResult.result :=
                JS.Obj [ ("explanations", JS.Arr explanations);
                         ("action_items", JS.Arr (map urgent (filter isSevere A)));
                         ("questions",
                          JS.Arr [JS.Str "Please consult a doctor for next steps."]) ];
              LabResult.rawWatson := JS.Null |},
         w)
      /\ Forall2
           (fun a e =>
              exists (range : Conf.range) (unit : string),
                Assessment.normalRange a = Some range
                /\ Assessment.unit a = Some unit
                /\ e = JS.Obj
                         [ ("key", JS.Str (Assessment.key a));
                           ("explanation",
                            JS.Str
                              (if Status.eqb (Assessment.status a) Status.normal
                               then
                                 "Your " ++ Assessment.key a
                                 ++ " is within the normal range ("
                                 ++ JS.showOpt (Conf.normalLow range) ++ "-"
                                 ++ JS.showOpt (Conf.normalHigh range) ++ " "
                                 ++ unit ++ ")."
                               else
                                 "Your " ++ Assessment.key a ++ " is "
                                 ++ Status.name (Assessment.status a)
                                 ++ " (value "
                                 ++ JS.numberToString (Assessment.value a)
                                 ++ " " ++ unit ++ "). Severity: "
                                 ++ Severity.name (Assessment.severity a)
                                 ++ ". We recommend medical follow-up."));
                           ("severity",
                            JS.Str (Severity.name (Assessment.severity a))) ])
           A explanations
      /\ (forall item : JS.value,
            In item (map urgent (filter isSevere A))
            <-> exists a, In a A
                          /\ Assessment.severity a = Severity.severe
                          /\ item = JS.Str ("URGENT: see a doctor for "
                                            ++ Assessment.key a)).
Proof.
  intros rawText patientMeta w Hurl Hrest A.
  assert (Hconf : isWatsonConfigured out = false).
  { unfold isWatsonConfigured. rewrite Hurl.
    destruct (JS.truthyOpt (Env.WATSON_URL (env out)));
      destruct (JS.truthyOpt (Env.WATSON_DEPLOYMENT_ID (env out)));
      destruct (JS.truthyOpt (Env.WATSON_APIKEY (env out)));
      try reflexivity.
    exfalso. apply Hrest. repeat split. }
  destruct (createWatsonPrompt_returns rawText patientMeta) as [prompt Hprompt].
  destruct (localFallback_returns rawText patientMeta) as [es [Hall Hlocal]].
  fold A in Hprompt, Hlocal, Hall.
  exists es. split; [|split].
  - unfold analyzeLabReport. fold A.
    unfold bindM at 1. unfold lift at 1. rewrite Hprompt, Hconf. cbn [negb].
    unfold lift. rewrite Hlocal. reflexivity.
  - pose proof (assessAll_ranges rawText patientMeta) as Hranges.
    pose proof (assessAll_units rawText patientMeta) as Hunits.
    fold A in Hranges, Hunits. clear Hlocal Hprompt.
    induction Hall as [|a e A' es' Hae _ IH]; [constructor|].
    inversion Hranges as [|a0 A0 [range Hrange] Hranges']; subst.
    inversion Hunits as [|a0 A0 [unit Hunit] Hunits']; subst.
    constructor; [|exact (IH Hranges' Hunits')].
    exists range, unit. split; [exact Hrange|]. split; [exact Hunit|].
    rewrite (localExplanation_text a range unit Hrange Hunit) in Hae.
    injection Hae as <-. reflexivity.
  - intro item. rewrite in_map_iff. split.
    + intros [a [Hitem Hin]]. apply filter_In in Hin. destruct Hin as [Hin Hsev].
      exists a. repeat split; [exact Hin| |symmetry; exact Hitem].
      unfold isSevere in Hsev. destruct (Assessment.severity a); try discriminate.
      reflexivity.
    + intros [a [Hin [Hsev ->]]]. exists a. split; [reflexivity|].
      apply filter_In. split; [exact Hin|]. unfold isSevere. rewrite Hsev.
      reflexivity.
Qed.

End GatewayFacts.

(** C1, as stated, fails in its second half: after a response whose body is
    not JSON, which the transport hands over as a string, and after a
    response whose body is the JSON text [null], what is returned holds no
    result object: its result is that string, or null. *)
Lemma result_not_always_object :
  (exists w' : world,
     analyzeLabReport (H := RefHost.host) (answering (JS.Str "Bad Gateway"))
       "Hemoglobin: 8.9 g/dL" male boot
     = (Returned
          {| LabResult.assessments :=
               assessAll (parseLabValues "Hemoglobin: 8.9 g/dL") male;
             LabResult.result := JS.Str "Bad Gateway";
             LabResult.rawWatson := JS.Str "Bad Gateway" |}, w'))
  /\ (exists w' : world,
        analyzeLabReport (H := RefHost.host) (answering JS.Null)
          "Hemoglobin: 8.9 g/dL" male boot
        = (Returned
             {| LabResult.assessments :=
                  assessAll (parseLabValues "Hemoglobin: 8.9 g/dL") male;
                LabResult.result := JS.Null;
                LabResult.rawWatson := JS.Null |}, w'))
  /\ JS.isObject (JS.Str "Bad Gateway") = false
  /\ JS.isObject JS.Null = false.
Proof.
  split; [eexists; vm_compute; reflexivity|].
  split; [eexists; vm_compute; reflexivity|].
  split; reflexivity.
Qed.

Lemma analyzeLabReport_never_throws_witness :
  exists (r : LabResult.t) (w' : world),
    analyzeLabReport (H := RefHost.host) offline "Hemoglobin: 8.9 g/dL" male boot
      = (Returned r, w')
    /\ JS.isObject (LabResult.result r) = true.
Proof.
  destruct (analyzeLabReport_never_throws (H := RefHost.host) offline
              "Hemoglobin: 8.9 g/dL" male boot)
    as [r [w' [Hrun [_ [_ [_ [_ [Hobject _]]]]]]]].
  exists r, w'. split; [exact Hrun|]. apply Hobject. reflexivity.
Defined.

(** C2, as stated, fails: the result of an unconfigured run has no method
    tag, neither in the result nor beside it. *)
Lemma no_method_tag :
  exists r : LabResult.t,
    analyzeLabReport (H := RefHost.host) offline "Hemoglobin: 8.9 g/dL" male boot
      = (Returned r, boot)
    /\ isWatsonConfigured offline = false
    /\ JS.get (LabResult.result r) "method" = Returned JS.Undefined
    /\ JS.get (LabResult.toValue r) "method" = Returned JS.Undefined.
Proof.
  eexists. split; [vm_compute; reflexivity|]. repeat split.
Qed.

Lemma provenance_by_rawWatson_witness :
  exists (r : LabResult.t) (w' : world),
    analyzeLabReport (H := RefHost.host) offline "Hemoglobin: 8.9 g/dL" male boot
      = (Returned r, w')
    /\ localFallback (H := RefHost.host)
         (assessAll (parseLabValues "Hemoglobin: 8.9 g/dL") male) = Returned r
    /\ w' = boot.
Proof.
  destruct (provenance_by_rawWatson (H := RefHost.host) offline
              "Hemoglobin: 8.9 g/dL" male boot)
    as [r [w' [Hrun [_ Hlocal]]]].
  exists r, w'. split; [exact Hrun|]. apply Hlocal. reflexivity.
Defined.

Lemma unconfigured_local_fallback_witness :
  analyzeLabReport (H := RefHost.host) offline "Hemoglobin: 8.9 g/dL" male boot
  = (Returned
       {| LabResult.assessments :=
            assessAll (parseLabValues "Hemoglobin: 8.9 g/dL") male;
          LabResult.result :=
            JS.Obj
              [ ("explanations",
                 JS.Arr
                   [ JS.Obj
                       [ ("key", JS.Str "hemoglobin");
                         ("explanation",
                          JS.Str "Your hemoglobin is low (value 8.9 g/dL). Severity: severe. We recommend medical follow-up.");
                         ("severity", JS.Str "severe") ] ]);
                ("action_items",
                 JS.Arr [JS.Str "URGENT: see a doctor for hemoglobin"]);
                ("questions",
                 JS.Arr [JS.Str "Please consult a doctor for next steps."]) ];
          LabResult.rawWatson := JS.Null |},
     boot).
Proof.
  destruct (unconfigured_local_fallback (H := RefHost.host) offline
              "Hemoglobin: 8.9 g/dL" male boot)
    as [es [Hrun [Hall _]]].
  - reflexivity.
  - intros [Hurl _]. discriminate Hurl.
  - rewrite Hrun. clear Hrun.
    remember (assessAll (parseLabValues "Hemoglobin: 8.9 g/dL") male) as A eqn:HA.
    vm_compute in HA. subst A.
    inversion Hall as [|a e A es' [range [unit [Hrange [Hunit He]]]] Hrest].
    inversion Hrest. subst.
    cbn [Assessment.normalRange Assessment.unit] in Hrange, Hunit.
    injection Hrange as <-. injection Hunit as <-.
    vm_compute. reflexivity.
Defined.

(** ** The merger *)

(** C3.  The merge is not idempotent: the guards look for markers that the
    appended sections do not contain, so a second merge appends each
    section again. *)
Theorem merge_twice_duplicates :
  exists once twice : Analysis.t,
    mergeLabInsightsIntoSections (H := RefHost.host) sampleBase = Returned once
    /\ mergeLabInsightsIntoSections (H := RefHost.host) once = Returned twice
    /\ Analysis.summary twice <> Analysis.summary once
    /\ Analysis.findings twice <> Analysis.findings once
    /\ Analysis.recommendations twice <> Analysis.recommendations once
    /\ Analysis.summary twice
       = option_map
           (fun s => s ++ JS.nl ++ JS.nl ++ "🔬 **Watson AI Lab Analysis**"
                       ++ JS.nl ++ "• HEMOGLOBIN (severe): Low.")
           (Analysis.summary once).
Proof.
  eexists. eexists.
  split; [vm_compute; reflexivity|].
  split; [vm_compute; reflexivity|].
  repeat split; try (vm_compute; discriminate).
Qed.

(* ================================================================== *)
(** * Further properties *)
(* ================================================================== *)

(** ** The rule engine: values and tables off the beaten track *)

(** X1. A value that is NaN is never flagged: for every configured analyte
    its assessment has status normal and severity normal. *)
Theorem assessValue_NaN_is_normal :
  forall (thresholds : Conf.table) (key : string) (meta : PatientMeta.t),
    JS.lookup key thresholds <> None ->
    Assessment.status (assessValue thresholds key JS.NaN meta) = Status.normal
    /\ Assessment.severity (assessValue thresholds key JS.NaN meta)
       = Severity.normal.
Proof.
  intros thresholds key meta Hkey.
  destruct (JS.lookup key thresholds) as [own|] eqn:Hown; [|contradiction].
  unfold assessValue. rewrite (get_own _ _ _ Hown).
  destruct (match JS.lookup _ (Conf.bySex own) with Some r => _ | None => _ end)
    as [lo hi].
  cbn [Assessment.status Assessment.severity].
  unfold JS.gtb.
  destruct lo as [l|], hi as [h|]; cbn [JS.ltb];
    try (destruct h); cbn [fst snd]; split; reflexivity.
Qed.

Lemma assessValue_NaN_is_normal_witness :
  Assessment.status (assessValue labThresholds "platelet" JS.NaN PatientMeta.empty)
  = Status.normal
  /\ Assessment.severity
       (assessValue labThresholds "platelet" JS.NaN PatientMeta.empty)
     = Severity.normal.
Proof.
  apply (assessValue_NaN_is_normal labThresholds "platelet" PatientMeta.empty).
  discriminate.
Defined.

(** X2. A range with a bound missing never yields status low, and a range
    without an upper bound yields normal for every value: both bounds must
    be numbers for the lower branch to be taken, and the upper branch needs
    the upper bound. *)
Theorem assessValue_one_sided_range :
  forall (thresholds : Conf.table) (key : string) (v : JS.number)
         (meta : PatientMeta.t) (range : Conf.range),
    let a := assessValue thresholds key v meta in
    Assessment.normalRange a = Some range ->
    (Conf.normalLow range = None \/ Conf.normalHigh range = None ->
     Assessment.status a <> Status.low)
    /\ (Conf.normalHigh range = None ->
        Assessment.status a = Status.normal
        /\ Assessment.severity a = Severity.normal).
Proof.
  intros thresholds key v meta range a. subst a.
  resolve_range conf lo hi; [|discriminate].
  cbn [Assessment.normalRange Assessment.status Assessment.severity].
  intro Hrange. injection Hrange as <-. cbn [Conf.normalLow Conf.normalHigh].
  split.
  - intros [-> | ->].
    + destruct hi as [h|]; cbn [fst snd]; [|discriminate].
      destruct (JS.gtb v h); [|discriminate].
      repeat match goal with
             | |- context [if ?b then _ else _] => destruct b
             end; discriminate.
    + destruct lo; cbn [fst snd]; discriminate.
  - intros ->. destruct lo; split; reflexivity.
Qed.

Lemma assessValue_one_sided_range_witness :
  Assessment.status
    (assessValue labThresholds "hemoglobin" (JS.Fin 2) PatientMeta.empty)
  = Status.normal.
Proof.
  apply (assessValue_one_sided_range labThresholds "hemoglobin" (JS.Fin 2)
           PatientMeta.empty
           {| Conf.normalLow := None; Conf.normalHigh := None |});
    reflexivity.
Defined.

(** X3. With the table of [config/labThresholds.js], hemoglobin has bounds
    per sex only: when the patient's sex, in lower case, is neither [male]
    nor [female] (missing, empty, [Other], ...), the range has no bounds and
    every hemoglobin value is assessed normal. *)
Theorem hemoglobin_needs_sex :
  forall (v : JS.number) (meta : PatientMeta.t),
    let sex := JS.toLowerCase (JS.orStr (PatientMeta.sex meta) "") in
    sex <> "male" -> sex <> "female" ->
    let a := assessValue labThresholds "hemoglobin" v meta in
    Assessment.normalRange a
      = Some {| Conf.normalLow := None; Conf.normalHigh := None |}
    /\ Assessment.status a = Status.normal
    /\ Assessment.severity a = Severity.normal.
Proof.
  intros v meta sex Hm Hf a. subst a.
  unfold assessValue.
  change (Conf.get "hemoglobin" labThresholds) with (Some hemoglobin).
  fold sex.
  assert (Hsex : JS.lookup sex (Conf.bySex hemoglobin) = None).
  { cbn [hemoglobin Conf.bySex JS.lookup].
    destruct (String.eqb sex "male") eqn:E1;
      [apply String.eqb_eq in E1; contradiction|].
    destruct (String.eqb sex "female") eqn:E2;
      [apply String.eqb_eq in E2; contradiction|].
    reflexivity. }
  cbv beta iota zeta. rewrite Hsex. repeat split.
Qed.

Lemma hemoglobin_needs_sex_witness :
  Assessment.normalRange
    (assessValue labThresholds "hemoglobin" (JS.Fin 2) PatientMeta.empty)
    = Some {| Conf.normalLow := None; Conf.normalHigh := None |}
  /\ Assessment.status
       (assessValue labThresholds "hemoglobin" (JS.Fin 2) PatientMeta.empty)
     = Status.normal
  /\ Assessment.severity
       (assessValue labThresholds "hemoglobin" (JS.Fin 2) PatientMeta.empty)
     = Severity.normal.
Proof.
  apply (hemoglobin_needs_sex (JS.Fin 2) PatientMeta.empty); discriminate.
Defined.

(** X4. A lower bound of zero hides the upper bound: [normalLow || Infinity]
    turns it into Infinity, every finite value takes the lower branch, and
    there a value that is not negative has ratio Infinity or NaN.  So every
    finite value from zero up is assessed normal, however far above
    [normalHigh]. *)
Theorem assessValue_zero_lower_bound :
  forall (thresholds : Conf.table) (key : string) (meta : PatientMeta.t)
         (x l : Q) (h : JS.number),
    let a := assessValue thresholds key (JS.Fin x) meta in
    Assessment.normalRange a
      = Some {| Conf.normalLow := Some (JS.Fin l); Conf.normalHigh := Some h |} ->
    (l == 0)%Q -> (0 <= x)%Q ->
    Assessment.status a = Status.normal
    /\ Assessment.severity a = Severity.normal.
Proof.
  intros thresholds key meta x l h a. subst a.
  resolve_range conf lo hi; [|discriminate].
  cbn [Assessment.normalRange Assessment.status Assessment.severity].
  intros Hrange Hl Hx. injection Hrange as -> ->.
  cbn [JS.orNum JS.toNum JS.truthyNum].
  assert (Hq : Qeq_bool l 0 = true) by (apply Qeq_bool_iff; exact Hl).
  rewrite Hq. cbn [negb JS.ltb].
  unfold JS.div. apply Qsign_Eq in Hl. rewrite Hl.
  destruct (JS.Qsign x) eqn:Hs.
  - rewrite !ltb_NaN_l. split; reflexivity.
  - apply Qsign_Lt in Hs. lra.
  - rewrite !ltb_PosInf_l. split; reflexivity.
Qed.

Lemma assessValue_zero_lower_bound_witness :
  Assessment.status (assessValue zeroFloor "crp" (JS.Fin 250) PatientMeta.empty)
  = Status.normal
  /\ Assessment.severity
       (assessValue zeroFloor "crp" (JS.Fin 250) PatientMeta.empty)
     = Severity.normal.
Proof.
  apply (assessValue_zero_lower_bound zeroFloor "crp" PatientMeta.empty
           250 0 (JS.Fin 3)); [reflexivity|reflexivity|discriminate].
Defined.

(** The cascade of the upper branch never ranks a larger ratio lower. *)
Lemma upper_cascade_mono (r1 r2 se mo : JS.number) :
  (forall c, JS.gtb r1 c = true -> JS.gtb r2 c = true) ->
  Severity.rank
    (fst (if JS.gtb r1 se then (Severity.severe, Status.high)
          else if JS.gtb r1 mo then (Severity.moderate, Status.high)
          else (Severity.mild, Status.high)))
  <= Severity.rank
    (fst (if JS.gtb r2 se then (Severity.severe, Status.high)
          else if JS.gtb r2 mo then (Severity.moderate, Status.high)
          else (Severity.mild, Status.high))).
Proof.
  intro Hmono.
  pose proof (Hmono se) as Hse. pose proof (Hmono mo) as Hmo.
  destruct (JS.gtb r1 se); [rewrite Hse by reflexivity; simpl; lia|].
  destruct (JS.gtb r1 mo);
    [rewrite Hmo by reflexivity; destruct (JS.gtb r2 se); simpl; lia|].
  destruct (JS.gtb r2 se), (JS.gtb r2 mo); simpl; lia.
Qed.

Lemma div_neg_below_one x h :
  (h < 0)%Q -> (h < x)%Q -> (x / h < 1)%Q.
Proof.
  intros Hh Hx.
  assert (Heq : (x / h == (- x) / (- h))%Q) by (field; lra).
  rewrite Heq. apply Qlt_shift_div_r; lra.
Qed.

(** X5. Above the range severity does not improve as the value grows: for a
    configured analyte with a finite upper bound, a lower bound that is
    missing or not above it, and cutoffs with 1 <= moderate <= severe, the
    severity of [v2] is at least as bad as that of [v1] whenever
    [normalHigh < v1 < v2]. *)
Theorem assessValue_upper_monotone :
  forall (thresholds : Conf.table) (key : string) (meta : PatientMeta.t)
         (conf : Conf.t) (v1 v2 : JS.number) (lo : option JS.number) (h : Q)
         (se mo : JS.number),
    JS.lookup key thresholds = Some conf ->
    Conf.severe (Conf.severity conf) = Some se ->
    Conf.moderate (Conf.severity conf) = Some mo ->
    JS.leb (JS.Fin 1) mo = true -> JS.leb mo se = true ->
    Assessment.normalRange (assessValue thresholds key v1 meta)
      = Some {| Conf.normalLow := lo; Conf.normalHigh := Some (JS.Fin h) |} ->
    (forall l, lo = Some l -> JS.leb l (JS.Fin h) = true) ->
    JS.gtb v1 (JS.Fin h) = true ->
    JS.ltb v1 v2 = true ->
    Severity.rank (Assessment.severity (assessValue thresholds key v1 meta))
    <= Severity.rank (Assessment.severity (assessValue thresholds key v2 meta)).
Proof.
  intros thresholds key meta conf v1 v2 lo h se mo Hconf Hse Hmo H1m Hms.
  unfold assessValue. rewrite (get_own _ _ _ Hconf).
  destruct (match JS.lookup _ (Conf.bySex conf) with Some r => _ | None => _ end)
    as [lo' hi].
  cbn [Assessment.normalRange Assessment.severity].
  intros Hrange Hlo Hh1 H12. injection Hrange as -> ->.
  rewrite Hse, Hmo. cbn [JS.nullish].
  assert (Hh2 : JS.gtb v2 (JS.Fin h) = true).
  { unfold JS.gtb in *. eapply ltb_trans; eassumption. }
  destruct v1 as [| | |x1];
    [ discriminate Hh1
    | rewrite ltb_PosInf_l in H12; discriminate H12
    | discriminate Hh1
    | ].
  assert (Hx1 : (h < x1)%Q) by (apply Qltb_lt; exact Hh1).
  (* the upper branch, once the value is known not to be below the range *)
  assert (Hupper :
    Severity.rank
      (fst (if JS.gtb (JS.Fin x1) (JS.Fin h)
            then
              if JS.gtb (JS.div (JS.Fin x1) (JS.Fin h)) se
              then (Severity.severe, Status.high)
              else if JS.gtb (JS.div (JS.Fin x1) (JS.Fin h)) mo
              then (Severity.moderate, Status.high)
              else (Severity.mild, Status.high)
            else (Severity.normal, Status.normal)))
    <= Severity.rank
      (fst (if JS.gtb v2 (JS.Fin h)
            then
              if JS.gtb (JS.div v2 (JS.Fin h)) se
              then (Severity.severe, Status.high)
              else if JS.gtb (JS.div v2 (JS.Fin h)) mo
              then (Severity.moderate, Status.high)
              else (Severity.mild, Status.high)
            else (Severity.normal, Status.normal)))).
  { rewrite Hh1, Hh2.
    destruct (JS.Qsign h) eqn:Hsh.
    - (* an upper bound of zero: the ratio is Infinity *)
      assert (Hs1 : JS.Qsign x1 = Gt).
      { apply Qsign_Gt. apply Qsign_Eq in Hsh. lra. }
      assert (Hr2 : JS.div v2 (JS.Fin h) = JS.PosInf).
      { destruct v2 as [| | |x2]; try discriminate.
        - simpl. rewrite Hsh. reflexivity.
        - assert (Hs2 : JS.Qsign x2 = Gt).
          { apply Qsign_Gt. apply Qsign_Eq in Hsh. apply Qltb_lt in H12. lra. }
          simpl. rewrite Hsh, Hs2. reflexivity. }
      rewrite Hr2. simpl JS.div. rewrite Hsh, Hs1. apply le_n.
    - (* a negative upper bound: the ratio is below 1, hence mild *)
      apply Qsign_Lt in Hsh.
      assert (Hr1 : JS.div (JS.Fin x1) (JS.Fin h) = JS.Fin (x1 / h)).
      { simpl. apply Qsign_Lt in Hsh. rewrite Hsh. reflexivity. }
      rewrite Hr1.
      pose proof (div_neg_below_one x1 h Hsh Hx1) as Hbelow.
      assert (Hno : forall c, JS.leb (JS.Fin 1) c = true ->
                              JS.gtb (JS.Fin (x1 / h)) c = false).
      { intros c Hc. unfold JS.gtb.
        destruct c as [| | |z]; simpl in *; try discriminate; try reflexivity.
        apply negb_true_iff in Hc. apply Qltb_ge in Hc. apply Qltb_ge. lra. }
      rewrite (Hno se), (Hno mo).
      + destruct (JS.gtb (JS.div v2 (JS.Fin h)) se),
          (JS.gtb (JS.div v2 (JS.Fin h)) mo); simpl; lia.
      + exact H1m.
      + eapply leb_trans; eassumption.
    - (* a positive upper bound: the ratio grows with the value *)
      apply Qsign_Gt in Hsh.
      apply upper_cascade_mono.
      intros c Hc. unfold JS.gtb in *.
      rewrite (div_Fin_pos x1 h Hsh) in Hc.
      destruct v2 as [| | |x2]; try discriminate.
      + simpl. apply Qsign_Gt in Hsh. rewrite Hsh.
        destruct c; try discriminate; reflexivity.
      + rewrite (div_Fin_pos x2 h Hsh).
        destruct c as [| | |z]; try discriminate; try reflexivity.
        simpl in *. apply Qltb_lt in Hc. apply Qltb_lt. apply Qltb_lt in H12.
        pose proof (div_pos_mono x2 x1 h Hsh H12). lra. }
  destruct lo as [l|]; [|exact Hupper].
  pose proof (Hlo l eq_refl) as Hlh.
  cbn [JS.orNum JS.toNum].
  destruct (JS.truthyNum l) eqn:Htl.
  - assert (Hn1 : JS.ltb (JS.Fin x1) l = false).
    { destruct l as [| | |z]; simpl in *; try discriminate; try reflexivity.
      apply negb_true_iff in Hlh. apply Qltb_ge in Hlh. apply Qltb_ge. lra. }
    assert (Hn2 : JS.ltb v2 l = false).
    { destruct l as [| | |z], v2 as [| | |x2]; simpl in *;
        try discriminate; try reflexivity.
      apply negb_true_iff in Hlh. apply Qltb_ge in Hlh. apply Qltb_ge.
      apply Qltb_lt in H12. lra. }
    rewrite Hn1, Hn2. exact Hupper.
  - (* a lower bound of zero: every finite value goes through the lower
       branch, where its ratio is Infinity *)
    apply truthyNum_false in Htl. destruct Htl as [->|[q [-> Hq]]];
      [discriminate|].
    assert (Hq0 : (q <= h)%Q).
    { simpl in Hlh. apply negb_true_iff in Hlh. apply Qltb_ge in Hlh. exact Hlh. }
    cbn [JS.ltb].
    assert (Hs1 : JS.Qsign x1 = Gt) by (apply Qsign_Gt; lra).
    unfold JS.div at 1 2 3. apply Qsign_Eq in Hq. rewrite Hq, Hs1.
    rewrite !ltb_PosInf_l. cbn [fst Severity.rank]. lia.
Qed.

Lemma assessValue_upper_monotone_witness :
  Severity.rank (Assessment.severity
      (assessValue labThresholds "glucose_fasting" (JS.Fin 110) PatientMeta.empty))
  <= Severity.rank (Assessment.severity
      (assessValue labThresholds "glucose_fasting" (JS.Fin 160) PatientMeta.empty)).
Proof.
  apply (assessValue_upper_monotone labThresholds "glucose_fasting"
           PatientMeta.empty glucose_fasting (JS.Fin 110) (JS.Fin 160)
           (Some (JS.Fin 70)) 99 (JS.Fin 1.5) (JS.Fin 1.25));
    try reflexivity.
  intros l Hl. injection Hl as <-. reflexivity.
Defined.

(** ** The gateway: tokens, requests and credentials *)

(** [/\/$/]: only the last character can match. *)
Lemma slash_eol_search (b : string) :
  Regex.search (Regex.Seq (Regex.chr "/") Regex.Eol) (b ++ "/")
  = Some {| Regex.before := b; Regex.matched := "/"; Regex.group1 := None;
            Regex.after := "" |}.
Proof.
  induction b as [|c b IH].
  - reflexivity.
  - change (String c b ++ "/") with (String c (b ++ "/")).
    rewrite search_miss.
    + rewrite IH. reflexivity.
    + unfold Regex.matchAt. rewrite run_Seq.
      destruct (Ascii.eqb "/" c) eqn:Hc.
      * apply Ascii.eqb_eq in Hc. subst c. rewrite run_chr_hit.
        destruct b; reflexivity.
      * apply run_chr_miss. exact Hc.
Qed.

Lemma slash_eol_none (b : string) :
  (forall u, b <> u ++ "/") ->
  Regex.search (Regex.Seq (Regex.chr "/") Regex.Eol) b = None.
Proof.
  induction b as [|c b IH]; intro Hend.
  - reflexivity.
  - rewrite search_miss.
    + rewrite IH; [reflexivity|].
      intros u Hu. apply (Hend (String c u)). rewrite Hu. reflexivity.
    + unfold Regex.matchAt. rewrite run_Seq.
      destruct (Ascii.eqb "/" c) eqn:Hc.
      * apply Ascii.eqb_eq in Hc. subst c. rewrite run_chr_hit.
        destruct b; [|reflexivity].
        exfalso. apply (Hend ""). reflexivity.
      * apply run_chr_miss. exact Hc.
Qed.

Lemma drop_trailing_slash (base b : string) :
  base = b ++ "/" \/ (base = b /\ forall u, b <> u ++ "/") ->
  Regex.replaceFirst (Regex.Seq (Regex.chr "/") Regex.Eol) (fun _ => "") base = b.
Proof.
  intros [->|[-> Hend]]; unfold Regex.replaceFirst.
  - rewrite slash_eol_search. cbn [Regex.before Regex.after].
    rewrite !append_nil_r. reflexivity.
  - rewrite slash_eol_none by exact Hend. reflexivity.
Qed.

Section GatewayRequests.

Context `{Host}.
Variable out : outside.

(** Closes a run in [M] that stands in a hypothesis. *)
Ltac inv_run Hrun :=
  inversion Hrun; subst; clear Hrun;
  cbn [sent ticks iamTokenCache TokenCache.token TokenCache.expiresAt] in *.

(** The ways [getIamToken] can go. *)
Lemma getIamToken_cases (w w' : world) (r : JS.outcome JS.value) :
  getIamToken out w = (r, w') ->
  (* served from the cache *)
  (r = Returned (TokenCache.token (iamTokenCache w))
   /\ JS.truthy (TokenCache.token (iamTokenCache w)) = true
   /\ JS.gtb (JS.sub (TokenCache.expiresAt (iamTokenCache w)) (JS.Fin 60000))
             (clock out (ticks w)) = true
   /\ sent w' = sent w /\ iamTokenCache w' = iamTokenCache w
   /\ ticks w' = S (ticks w))
  (* refused before any request *)
  \/ (r = Thrown (JS.newError "WATSON_APIKEY is required for IAM auth")
      /\ JS.truthyOpt (Env.WATSON_APIKEY (env out)) = false
      /\ sent w' = sent w /\ iamTokenCache w' = iamTokenCache w)
  (* one request *)
  \/ exists req,
       JS.truthyOpt (Env.WATSON_APIKEY (env out)) = true
       /\ sent w' = req :: sent w
       /\ Request.url req
          = JS.orStr (Env.WATSON_IAM_URL (env out))
              "https://iam.cloud.ibm.com/identity/token"
       /\ Request.headers req
          = [("Content-Type", "application/x-www-form-urlencoded")]
       /\ ((exists err, net out (List.length (sent w)) req = inl err
                        /\ r = Thrown err
                        /\ iamTokenCache w' = iamTokenCache w)
           \/ (exists data, net out (List.length (sent w)) req = inr data
                 /\ r = Thrown (JS.newError "Failed to obtain IAM token")
                 /\ iamTokenCache w' = iamTokenCache w)
           \/ (exists data tok expires_in,
                 net out (List.length (sent w)) req = inr data
                 /\ JS.get data "access_token" = Returned tok
                 /\ JS.get data "expires_in" = Returned expires_in
                 /\ JS.truthy tok = true
                 /\ r = Returned tok
                 /\ iamTokenCache w'
                    = {| TokenCache.token := tok;
                         TokenCache.expiresAt :=
                           JS.add (clock out (S (ticks w)))
                             (if JS.truthy expires_in
                              then JS.mul (JS.toNumber expires_in) (JS.Fin 1000)
                              else JS.Fin 3600000) |}
                 /\ ticks w' = S (S (ticks w)))).
Proof.
  unfold getIamToken, bindM, now, readCache.
  cbv beta iota zeta. cbn [sent ticks iamTokenCache].
  destruct (JS.truthy (TokenCache.token (iamTokenCache w))
            && JS.gtb (JS.sub (TokenCache.expiresAt (iamTokenCache w))
                         (JS.Fin 60000)) (clock out (ticks w))) eqn:Hhit.
  - apply andb_true_iff in Hhit. destruct Hhit as [Htok Hfresh].
    intro Hrun. inv_run Hrun. left. repeat split; assumption.
  - clear Hhit.
    destruct (Env.WATSON_APIKEY (env out)) as [apikey|] eqn:Hkey;
      [|intro Hrun; inv_run Hrun; right; left; repeat split].
    destruct (JS.truthyStr apikey) eqn:Hkt;
      [|intro Hrun; inv_run Hrun; right; left; repeat split; exact Hkt].
    unfold post. cbn [sent ticks iamTokenCache].
    match goal with
    | |- context [net out ?n ?r] =>
        destruct (net out n r) as [err|data] eqn:Hnet
    end.
    + intro Hrun. inv_run Hrun. right; right. eexists.
      split; [exact Hkt|].
      split; [reflexivity|]. split; [reflexivity|]. split; [reflexivity|].
      left. exists err. repeat split. exact Hnet.
    + destruct (JS.truthy data) eqn:Hdata.
      * unfold lift.
        destruct (JS.get data "access_token") as [tok|e] eqn:Hget.
        -- destruct (JS.truthy tok) eqn:Htok.
           ++ cbn [sent ticks iamTokenCache].
              destruct (JS.get data "expires_in") as [expires_in|e] eqn:Hexp.
              ** unfold writeCache, ret. intro Hrun. inv_run Hrun.
                 right; right. eexists.
                 split; [exact Hkt|].
                 split; [reflexivity|]. split; [reflexivity|].
                 split; [reflexivity|].
                 right; right. exists data, tok, expires_in.
                 repeat split; assumption.
              ** exfalso. destruct data; simpl in Hget, Hexp, Hdata;
                   try discriminate;
                   repeat match type of Hexp with
                          | context [match ?x with _ => _ end] => destruct x
                          end; discriminate.
           ++ intro Hrun. inv_run Hrun. right; right. eexists.
              split; [exact Hkt|].
              split; [reflexivity|]. split; [reflexivity|].
              split; [reflexivity|].
              right; left. exists data. repeat split. exact Hnet.
        -- exfalso. destruct data; simpl in Hget, Hdata; try discriminate;
             repeat match type of Hget with
                    | context [match ?x with _ => _ end] => destruct x
                    end; discriminate.
      * intro Hrun. inv_run Hrun. right; right. eexists.
        split; [exact Hkt|].
        split; [reflexivity|]. split; [reflexivity|]. split; [reflexivity|].
        right; left. exists data. repeat split. exact Hnet.
Qed.

Lemma getIamToken_returned (w w' : world) (tok : JS.value) :
  getIamToken out w = (Returned tok, w') ->
  JS.truthy tok = true /\ TokenCache.token (iamTokenCache w') = tok.
Proof.
  intro Hrun. apply getIamToken_cases in Hrun.
  destruct Hrun as [[Hr [Htok [_ [_ [Hcache _]]]]]
                   |[[Hr _]|[req [_ [_ [_ [_ Hreq]]]]]]].
  - injection Hr as ->. rewrite Hcache. split; [exact Htok|reflexivity].
  - discriminate Hr.
  - destruct Hreq as [[err [_ [Hr _]]]
                     |[[data [_ [Hr _]]]
                      |[data [t [ex [_ [_ [_ [Htok [Hr [Hcache _]]]]]]]]]]];
      try discriminate Hr.
    injection Hr as ->. rewrite Hcache. split; [exact Htok|reflexivity].
Qed.

Lemma getIamToken_sent (w w' : world) (r : JS.outcome JS.value) :
  getIamToken out w = (r, w') ->
  sent w' = sent w \/ exists req, sent w' = req :: sent w.
Proof.
  intro Hrun. apply getIamToken_cases in Hrun.
  destruct Hrun as [[_ [_ [_ [Hsent _]]]]
                   |[[_ [_ [Hsent _]]]|[req [_ [Hsent _]]]]]; eauto.
Qed.

(** Without an API key and without a cached token, [getIamToken] throws
    and sends nothing. *)
Lemma getIamToken_without_key (w w' : world) (r : JS.outcome JS.value) :
  JS.truthyOpt (Env.WATSON_APIKEY (env out)) = false ->
  JS.truthy (TokenCache.token (iamTokenCache w)) = false ->
  getIamToken out w = (r, w') ->
  (exists err, r = Thrown err)
  /\ sent w' = sent w /\ iamTokenCache w' = iamTokenCache w.
Proof.
  intros Hkey Hcache Hrun. apply getIamToken_cases in Hrun.
  destruct Hrun as [[_ [Htok _]]|[[-> [_ [Hsent Hc]]]|[req [Hk _]]]].
  - congruence.
  - split; [eexists; reflexivity|]. split; assumption.
  - congruence.
Qed.

(** X6. What [getIamToken] returns is truthy and is what the cache holds
    afterwards; a call that throws leaves the cache as it was; either way
    at most one request is sent. *)
Theorem getIamToken_keeps_cache_consistent :
  forall w : world,
    match getIamToken out w with
    | (Returned tok, w') =>
        JS.truthy tok = true
        /\ TokenCache.token (iamTokenCache w') = tok
        /\ List.length (sent w') <= S (List.length (sent w))
    | (Thrown _, w') =>
        iamTokenCache w' = iamTokenCache w
        /\ List.length (sent w') <= S (List.length (sent w))
    end.
Proof.
  intro w. destruct (getIamToken out w) as [r w'] eqn:Hrun.
  assert (Hlen : List.length (sent w') <= S (List.length (sent w))).
  { destruct (getIamToken_sent _ _ _ Hrun) as [->|[req ->]];
      cbn [List.length]; lia. }
  destruct r as [tok|e].
  - destruct (getIamToken_returned _ _ _ Hrun) as [Htok Hcache].
    repeat split; assumption.
  - split; [|exact Hlen].
    apply getIamToken_cases in Hrun.
    destruct Hrun as [[Hr _]|[[_ [_ [_ Hcache]]]|[req [_ [_ [_ [_ Hreq]]]]]]].
    + discriminate Hr.
    + exact Hcache.
    + destruct Hreq as [[err [_ [_ Hcache]]]
                       |[[data [_ [_ Hcache]]]
                        |[data [t [ex [_ [_ [_ [_ [Hr _]]]]]]]]]];
        [exact Hcache|exact Hcache|discriminate Hr].
Qed.

(** X7. A token just obtained is served again from the cache, without a
    request and without touching the cache, as long as the clock reads more
    than a minute before its expiry. *)
Theorem getIamToken_reuses_token :
  forall (w w1 : world) (tok : JS.value),
    getIamToken out w = (Returned tok, w1) ->
    JS.gtb (JS.sub (TokenCache.expiresAt (iamTokenCache w1)) (JS.Fin 60000))
           (clock out (ticks w1)) = true ->
    exists w2,
      getIamToken out w1 = (Returned tok, w2)
      /\ sent w2 = sent w1
      /\ iamTokenCache w2 = iamTokenCache w1.
Proof.
  intros w w1 tok Hrun Hfresh.
  destruct (getIamToken_returned _ _ _ Hrun) as [Htok Hcache].
  unfold getIamToken, bindM, now, readCache. cbv beta iota zeta.
  cbn [sent ticks iamTokenCache].
  rewrite Hcache, Htok, Hfresh. cbn [andb ret].
  eexists. repeat split.
Qed.

Lemma post_run (req : Request.t) (w w' : world) (r : JS.outcome JS.value) :
  post out req w = (r, w') ->
  sent w' = req :: sent w
  /\ match r with
     | Returned data => net out (List.length (sent w)) req = inr data
     | Thrown err => net out (List.length (sent w)) req = inl err
     end.
Proof.
  unfold post. destruct (net out _ req) as [err|data] eqn:Hnet;
    intro Hrun; inversion Hrun; subst; cbn [sent]; split; auto.
Qed.

(** Without an API key and without a cached token, [callWatsonx] throws
    before it sends anything, whatever the flow. *)
Lemma callWatsonx_without_credentials :
  forall (prompt : string) (w : world),
    JS.truthyOpt (Env.WATSON_APIKEY (env out)) = false ->
    JS.truthy (TokenCache.token (iamTokenCache w)) = false ->
    exists err w',
      callWatsonx out prompt w = (Thrown err, w')
      /\ sent w' = sent w
      /\ iamTokenCache w' = iamTokenCache w.
Proof.
  intros prompt w Hkey Hcache. unfold callWatsonx.
  destruct (negb _ && _).
  { eexists. eexists. split; [reflexivity|]. split; reflexivity. }
  unfold bindM at 1.
  destruct (String.eqb _ "iam").
  - unfold bindM at 1.
    destruct (getIamToken out w) as [r w1] eqn:Hiam.
    destruct (getIamToken_without_key _ _ _ Hkey Hcache Hiam)
      as [[err ->] [Hsent Hc]].
    eexists. eexists. split; [reflexivity|]. split; assumption.
  - destruct (Env.WATSON_APIKEY (env out)) as [key|].
    + simpl in Hkey. rewrite Hkey.
      eexists. eexists. split; [reflexivity|]. split; reflexivity.
    + eexists. eexists. split; [reflexivity|]. split; reflexivity.
Qed.

(** X8. A prediction URL alone makes the service count as configured; yet
    without an API key (and without a cached token) [analyzeLabReport]
    sends nothing and returns the local fallback. *)
Theorem configured_without_key_falls_back :
  forall (rawText : string) (patientMeta : PatientMeta.t) (w : world),
    JS.truthyOpt (Env.WATSON_PREDICTION_URL (env out)) = true ->
    JS.truthyOpt (Env.WATSON_APIKEY (env out)) = false ->
    JS.truthy (TokenCache.token (iamTokenCache w)) = false ->
    isWatsonConfigured out = true
    /\ exists (r : LabResult.t) (w' : world),
         analyzeLabReport out rawText patientMeta w = (Returned r, w')
         /\ localFallback (assessAll (parseLabValues rawText) patientMeta)
            = Returned r
         /\ sent w' = sent w.
Proof.
  intros rawText patientMeta w Hurl Hkey Hcache.
  assert (Hconf : isWatsonConfigured out = true).
  { unfold isWatsonConfigured. rewrite Hurl. reflexivity. }
  split; [exact Hconf|].
  destruct (createWatsonPrompt_returns rawText patientMeta) as [prompt Hprompt].
  destruct (localFallback_returns rawText patientMeta) as [es [_ Hlocal]].
  cbv zeta in Hlocal.
  destruct (callWatsonx_without_credentials prompt w Hkey Hcache)
    as [err [w' [Hcall [Hsent _]]]].
  eexists. exists w'.
  unfold analyzeLabReport.
  unfold bindM at 1. unfold lift at 1. rewrite Hprompt, Hconf. cbn [negb].
  unfold bindM, tryM. rewrite Hcall. cbn [ret]. unfold lift. rewrite Hlocal.
  split; [reflexivity|]. split; [reflexivity|exact Hsent].
Qed.

(** X9. With a base URL and a deployment identifier, the API-key flow and
    an endpoint that is not a chat endpoint, [callWatsonx] is one POST: to
    the base URL, less one trailing slash, followed by
    [/v1/deployments/<id>/predictions], with the prompt under [input.text],
    the JSON content type and the key as basic-auth password.  It returns
    what that request returns and throws what it throws. *)
Theorem callWatsonx_deployment_request :
  forall (base b d k prompt : string) (w : world),
    JS.truthyOpt (Env.WATSON_PREDICTION_URL (env out)) = false ->
    Env.WATSON_URL (env out) = Some base -> base <> "" ->
    base = b ++ "/" \/ (base = b /\ forall u, b <> u ++ "/") ->
    Env.WATSON_DEPLOYMENT_ID (env out) = Some d -> d <> "" ->
    Env.WATSON_APIKEY (env out) = Some k -> k <> "" ->
    JS.toLowerCase (JS.orStr (Env.WATSON_AUTH_FLOW (env out)) "apikey") <> "iam" ->
    let url := b ++ "/v1/deployments/" ++ d ++ "/predictions" in
    looksLikeChat out url = false ->
    callWatsonx out prompt w
    = post out
        {| Request.url := url;
           Request.body := JS.Obj [("input", JS.Obj [("text", JS.Str prompt)])];
           Request.headers := [("Content-Type", "application/json")];
           Request.auth := Some ("apikey", k) |} w.
Proof.
  intros base b d k prompt w Hpred Hbase Hbne Hb Hd Hdne Hk Hkne Hflow url Hchat.
  assert (Hpu : JS.orStr (Env.WATSON_PREDICTION_URL (env out))
                  (Regex.replaceFirst (Regex.Seq (Regex.chr "/") Regex.Eol)
                     (fun _ => "") (JS.orStr (Env.WATSON_URL (env out)) "")
                   ++ "/v1/deployments/"
                   ++ JS.orStr (Env.WATSON_DEPLOYMENT_ID (env out)) ""
                   ++ "/predictions") = url).
  { rewrite Hbase, Hd. unfold JS.orStr at 2 3.
    destruct base as [|c0 base0]; [contradiction|]. cbn [JS.truthyStr].
    destruct d as [|d0 d1]; [contradiction|]. cbn [JS.truthyStr].
    rewrite (drop_trailing_slash _ b Hb).
    unfold JS.orStr, JS.truthyOpt in *.
    destruct (Env.WATSON_PREDICTION_URL (env out)) as [p|]; [|reflexivity].
    rewrite Hpred. reflexivity. }
  unfold callWatsonx. rewrite Hpu.
  rewrite Hpred, Hbase, Hd. cbn [JS.truthyOpt].
  destruct base as [|c0 base0]; [contradiction|].
  destruct d as [|d0 d1]; [contradiction|].
  destruct k as [|k0 k1]; [contradiction|].
  cbn [JS.truthyStr negb andb orb].
  destruct (String.eqb _ "iam") eqn:Hiam;
    [apply String.eqb_eq in Hiam; contradiction|].
  rewrite Hk. cbn [JS.truthyStr]. rewrite Hchat.
  unfold bindM at 1. cbn [ret fst snd]. unfold tryM at 1. unfold jsonHeaders.
  destruct (post out _ w) as [[data|err] w1]; [reflexivity|].
  unfold bindM, tryM, ret, throw. reflexivity.
Qed.

(** What [callWatsonx] does once the headers are settled: one attempt and,
    for a chat endpoint, up to two more with other payloads. *)
Lemma attempts_run (url prompt : string)
    (axiosOpts : list (string * string) * option (string * string))
    (w w' : world) (r : JS.outcome JS.value) :
  tryM
    (if looksLikeChat out url then
       post out {| Request.url := url;
               Request.body :=
                 userMessage (systemInstruction ++ JS.nl ++ JS.nl ++ prompt);
               Request.headers := fst axiosOpts;
               Request.auth := snd axiosOpts |}
     else
       post out {| Request.url := url;
               Request.body := JS.Obj [("input", JS.Obj [("text", JS.Str prompt)])];
               Request.headers := fst axiosOpts;
               Request.auth := snd axiosOpts |})
    (fun err =>
       retried <-
         tryM
           (if looksLikeChat out url then
              tryM
                (chatResp <- callWatsonxChatStyle out url prompt axiosOpts ;;
                 ret (Some chatResp))
                (fun inner =>
                   tryM
                     (altResp <- callWatsonxChatStyleAlt out url prompt axiosOpts ;;
                      ret (Some altResp))
                     (fun altErr => ret None))
            else ret None)
           (fun innerErr => ret None) ;;
       match retried with
       | Some resp => ret resp
       | None => throw err
       end) w = (r, w') ->
  exists later first,
    sent w' = (later ++ first :: sent w)%list
    /\ List.length later <= 2
    /\ (looksLikeChat out url = false -> later = [])
    /\ Forall (fun req => Request.url req = url
                          /\ Request.headers req = fst axiosOpts
                          /\ Request.auth req = snd axiosOpts) (later ++ [first])
    /\ match r with
       | Thrown err => net out (List.length (sent w)) first = inl err
       | Returned data =>
           exists n req, In req (later ++ [first]) /\ net out n req = inr data
       end.
Proof.
  unfold tryM at 1.
  match goal with
  | |- context [match ?m w with _ => _ end] =>
      destruct (m w) as [[d|err] w1] eqn:Hfirst
  end.
  - intro Hrun. inversion Hrun; subst; clear Hrun.
    destruct (looksLikeChat out url); apply post_run in Hfirst;
      destruct Hfirst as [Hsent Hnet];
      (eexists []; eexists; split; [exact Hsent|];
       split; [cbn; lia|]; split; [reflexivity|];
       split; [repeat constructor|];
       eexists; eexists; split; [left; reflexivity|exact Hnet]).
  - assert (Hone : exists first,
              sent w1 = first :: sent w
              /\ net out (List.length (sent w)) first = inl err
              /\ Request.url first = url
              /\ Request.headers first = fst axiosOpts
              /\ Request.auth first = snd axiosOpts).
    { destruct (looksLikeChat out url); apply post_run in Hfirst;
        destruct Hfirst as [Hsent Hnet]; eexists;
        (split; [exact Hsent|]); (split; [exact Hnet|]); repeat split. }
    destruct Hone as [first [Hsent1 [Hnet1 [Hu1 [Hh1 Ha1]]]]].
    clear Hfirst.
    unfold bindM, tryM, ret, throw, callWatsonxChatStyle, callWatsonxChatStyleAlt.
    destruct (looksLikeChat out url) eqn:Hchat.
    + match goal with
      | |- context [post out ?r w1] =>
          destruct (post out r w1) as [[d|err2] w2] eqn:Hsecond
      end.
      * intro Hrun. inversion Hrun; subst; clear Hrun.
        apply post_run in Hsecond. destruct Hsecond as [Hsent2 Hnet2].
        eexists [_]; exists first. rewrite Hsent2, Hsent1.
        split; [reflexivity|]. split; [cbn; lia|]. split; [discriminate|].
        split; [repeat constructor; assumption|].
        eexists; eexists; split; [left; reflexivity|exact Hnet2].
      * apply post_run in Hsecond. destruct Hsecond as [Hsent2 _].
        match goal with
        | |- context [post out ?r w2] =>
            destruct (post out r w2) as [[d|err3] w3] eqn:Hthird
        end.
        -- intro Hrun. inversion Hrun; subst; clear Hrun.
           apply post_run in Hthird. destruct Hthird as [Hsent3 Hnet3].
           eexists [_; _]; exists first. rewrite Hsent3, Hsent2, Hsent1.
           split; [reflexivity|]. split; [cbn; lia|]. split; [discriminate|].
           split; [repeat constructor; assumption|].
           eexists; eexists; split; [left; reflexivity|exact Hnet3].
        -- intro Hrun. inversion Hrun; subst; clear Hrun.
           apply post_run in Hthird. destruct Hthird as [Hsent3 _].
           eexists [_; _]; exists first. rewrite Hsent3, Hsent2, Hsent1.
           split; [reflexivity|]. split; [cbn; lia|]. split; [discriminate|].
           split; [repeat constructor; assumption|].
           exact Hnet1.
    + intro Hrun. inversion Hrun; subst; clear Hrun.
      exists [], first. split; [exact Hsent1|]. split; [cbn; lia|].
      split; [reflexivity|]. split; [repeat constructor; assumption|].
      exact Hnet1.
Qed.

(** X10. One call of [callWatsonx] sends at most four requests: at most one
    for a token, one attempt, and for a chat endpoint up to two retries;
    with the API-key flow at most three. *)
Theorem callWatsonx_request_budget :
  forall (prompt : string) (w : world),
    exists new,
      sent (snd (callWatsonx out prompt w)) = (new ++ sent w)%list
      /\ List.length new <= 4
      /\ (JS.toLowerCase (JS.orStr (Env.WATSON_AUTH_FLOW (env out)) "apikey")
            <> "iam" ->
          List.length new <= 3).
Proof.
  intros prompt w. unfold callWatsonx.
  destruct (negb _ && _).
  { exists []. cbn. repeat split; lia. }
  unfold bindM at 1.
  match goal with
  | |- context [match ?m w with _ => _ end] =>
      destruct (m w) as [[axiosOpts|err] w1] eqn:Hauth
  end.
  - match goal with
    | |- context [snd (?m w1)] => destruct (m w1) as [r w'] eqn:Hrun
    end.
    apply attempts_run in Hrun.
    destruct Hrun as [later [first [Hsent [Hlen _]]]].
    cbn [snd]. revert Hauth.
    destruct (String.eqb _ "iam") eqn:Hflow.
    + unfold bindM.
      destruct (getIamToken out w) as [[tok|e] w2] eqn:Hiam; [|discriminate].
      cbn [ret]. intro Heq. inversion Heq; subst; clear Heq.
      apply String.eqb_eq in Hflow.
      destruct (getIamToken_sent _ _ _ Hiam) as [Hs|[req Hs]];
        rewrite Hsent, Hs.
      * exists (later ++ [first])%list. rewrite <- app_assoc.
        split; [reflexivity|]. rewrite length_app. cbn. split; [lia|].
        intro Hne. contradiction.
      * exists (later ++ [first; req])%list. rewrite <- app_assoc.
        split; [reflexivity|]. rewrite length_app. cbn. split; [lia|].
        intro Hne. contradiction.
    + destruct (Env.WATSON_APIKEY (env out)) as [key|]; [|discriminate].
      destruct (JS.truthyStr key); [|discriminate].
      cbn [ret]. intro Heq. inversion Heq; subst; clear Heq.
      exists (later ++ [first])%list. rewrite Hsent, <- app_assoc.
      split; [reflexivity|]. rewrite length_app. cbn. split; lia.
  - cbn [snd]. revert Hauth.
    destruct (String.eqb _ "iam") eqn:Hflow.
    + unfold bindM.
      destruct (getIamToken out w) as [[tok|e] w2] eqn:Hiam; [discriminate|].
      intro Heq. inversion Heq; subst; clear Heq.
      apply String.eqb_eq in Hflow.
      destruct (getIamToken_sent _ _ _ Hiam) as [Hs|[req Hs]]; rewrite Hs.
      * exists []. cbn. repeat split; lia.
      * exists [req]. cbn. repeat split; lia.
    + destruct (Env.WATSON_APIKEY (env out)) as [key|].
      * destruct (JS.truthyStr key); [discriminate|].
        intro Heq. inversion Heq; subst; clear Heq.
        exists []. cbn. repeat split; lia.
      * intro Heq. inversion Heq; subst; clear Heq.
        exists []. cbn. repeat split; lia.
Qed.

(** X11. With the API-key flow, an error thrown by [callWatsonx] after it
    has sent something is the error of its first request, also when
    retries were made and failed in their own ways. *)
Theorem callWatsonx_rethrows_first_error :
  forall (prompt : string) (w w' : world) (err : JS.error),
    JS.toLowerCase (JS.orStr (Env.WATSON_AUTH_FLOW (env out)) "apikey") <> "iam" ->
    callWatsonx out prompt w = (Thrown err, w') ->
    sent w' = sent w
    \/ exists later first,
         sent w' = (later ++ first :: sent w)%list
         /\ List.length later <= 2
         /\ net out (List.length (sent w)) first = inl err.
Proof.
  intros prompt w w' err Hflow. unfold callWatsonx.
  destruct (negb _ && _).
  { intro Heq. inversion Heq. left. reflexivity. }
  unfold bindM at 1.
  destruct (String.eqb _ "iam") eqn:Hiam;
    [apply String.eqb_eq in Hiam; contradiction|].
  destruct (Env.WATSON_APIKEY (env out)) as [key|];
    [|intro Heq; inversion Heq; left; reflexivity].
  destruct (JS.truthyStr key);
    [|intro Heq; inversion Heq; left; reflexivity].
  cbn [ret]. intro Hrun. apply attempts_run in Hrun.
  destruct Hrun as [later [first [Hsent [Hlen [_ [_ Hnet]]]]]].
  right. exists later, first. repeat split; assumption.
Qed.

End GatewayRequests.

Lemma getIamToken_reuses_token_witness :
  exists w2,
    getIamToken (H := RefHost.host) iamService
      (snd (getIamToken (H := RefHost.host) iamService boot))
    = (Returned (JS.Str "t0"), w2)
    /\ sent w2 = sent (snd (getIamToken (H := RefHost.host) iamService boot))
    /\ iamTokenCache w2
       = iamTokenCache (snd (getIamToken (H := RefHost.host) iamService boot)).
Proof.
  apply (getIamToken_reuses_token (H := RefHost.host) iamService boot);
    vm_compute; reflexivity.
Defined.

Lemma configured_without_key_falls_back_witness :
  isWatsonConfigured keyless = true
  /\ exists (r : LabResult.t) (w' : world),
       analyzeLabReport (H := RefHost.host) keyless "Hemoglobin: 8.9 g/dL" male boot
       = (Returned r, w')
       /\ localFallback (H := RefHost.host)
            (assessAll (parseLabValues "Hemoglobin: 8.9 g/dL") male)
          = Returned r
       /\ sent w' = sent boot.
Proof.
  apply (configured_without_key_falls_back (H := RefHost.host) keyless
           "Hemoglobin: 8.9 g/dL" male boot); reflexivity.
Defined.

Lemma callWatsonx_deployment_request_witness :
  callWatsonx (H := RefHost.host) deployed "p" boot
  = post deployed
      {| Request.url := "https://service.test/v1/deployments/d1/predictions";
         Request.body := JS.Obj [("input", JS.Obj [("text", JS.Str "p")])];
         Request.headers := [("Content-Type", "application/json")];
         Request.auth := Some ("apikey", "key") |} boot.
Proof.
  apply (callWatsonx_deployment_request (H := RefHost.host) deployed
           "https://service.test/" "https://service.test" "d1" "key" "p" boot);
    try reflexivity; try discriminate.
  left. reflexivity.
Defined.

Lemma callWatsonx_rethrows_first_error_witness :
  sent (snd (callWatsonx (H := RefHost.host) refusing "p" boot)) = sent boot
  \/ exists later first,
       sent (snd (callWatsonx (H := RefHost.host) refusing "p" boot))
       = (later ++ first :: sent boot)%list
       /\ List.length later <= 2
       /\ net refusing (List.length (sent boot)) first
          = inl (JS.newError "attempt 0").
Proof.
  apply (callWatsonx_rethrows_first_error (H := RefHost.host) refusing "p" boot).
  - discriminate.
  - vm_compute. reflexivity.
Defined.

(* ================================================================== *)
(** * The server, the storage client and the report analyzer *)
(* ================================================================== *)

Lemma less_0 hi : less hi 0 = hi.
Proof. destruct hi; simpl; [rewrite Nat.sub_0_r|]; reflexivity. Qed.

Lemma less_S hi n : less hi (S n) = option_map pred (less hi n).
Proof. destruct hi; simpl; [f_equal; lia|reflexivity]. Qed.

Lemma below_less hi n : Regex.below hi n = true -> Regex.below (less hi n) 0 = true.
Proof.
  destruct hi as [h|]; simpl; [|reflexivity].
  intro Hn. apply Nat.ltb_lt in Hn. apply Nat.ltb_lt. lia.
Qed.

Lemma less_below hi n : Regex.below (less hi n) 0 = true -> Regex.below hi n = true.
Proof.
  destruct hi as [h|]; simpl; [|reflexivity].
  intro Hn. apply Nat.ltb_lt in Hn. apply Nat.ltb_lt. lia.
Qed.

(** The matcher finds nothing but matches. *)
Lemma iter_sound g lo hi body k :
  (forall s cap k' x,
     Regex.run body s cap k' = Some x ->
     exists s' cap', Matches body s cap s' cap' /\ k' s' cap' = Some x) ->
  forall fuel n s cap x,
    Regex.iter (Regex.run body) g lo hi k fuel n s cap = Some x ->
    exists s' cap',
      Matches (Regex.Rep g (lo - n) (less hi n) body) s cap s' cap'
      /\ k s' cap' = Some x.
Proof.
  intro Hbody. induction fuel as [|fuel IH]; intros n s cap x; rewrite iter_eq;
    cbv beta iota zeta.
  - assert (Hstop0 :
      forall y,
        (if (lo <=? n)%nat then k s cap else None) = Some y ->
        exists s' cap',
          Matches (Regex.Rep g (lo - n) (less hi n) body) s cap s' cap'
          /\ k s' cap' = Some y).
    { intros y Hy. destruct (lo <=? n)%nat eqn:Hlo; [|discriminate].
      apply Nat.leb_le in Hlo. exists s, cap.
      replace (lo - n) with 0 by lia. split; [apply M_RepStop|exact Hy]. }
    destruct g.
    + apply Hstop0.
    + destruct (if (lo <=? n)%nat then k s cap else None) as [y|] eqn:Hs.
      * intro Heq. injection Heq as <-. apply Hstop0; first [exact Hs|reflexivity].
      * discriminate.
  - assert (Hmore :
      forall y,
        (if Regex.below hi n
         then Regex.run body s cap (fun s' cap' =>
                if (String.length s' <? String.length s)%nat
                then Regex.iter (Regex.run body) g lo hi k fuel (S n) s' cap'
                else None)
         else None) = Some y ->
        exists s' cap',
          Matches (Regex.Rep g (lo - n) (less hi n) body) s cap s' cap'
          /\ k s' cap' = Some y).
    { intros y Hy. destruct (Regex.below hi n) eqn:Hb; [|discriminate].
      apply Hbody in Hy. destruct Hy as [s1 [cap1 [Hm Hy]]].
      destruct (String.length s1 <? String.length s)%nat eqn:Hlen; [|discriminate].
      apply IH in Hy. destruct Hy as [s' [cap' [Hrest Hk]]].
      exists s', cap'. split; [|exact Hk].
      eapply M_RepMore.
      - apply below_less. exact Hb.
      - exact Hm.
      - apply Nat.ltb_lt. exact Hlen.
      - rewrite <- less_S. replace (pred (lo - n)) with (lo - S n) by lia.
        exact Hrest. }
    assert (Hstop :
      forall y,
        (if (lo <=? n)%nat then k s cap else None) = Some y ->
        exists s' cap',
          Matches (Regex.Rep g (lo - n) (less hi n) body) s cap s' cap'
          /\ k s' cap' = Some y).
    { intros y Hy. destruct (lo <=? n)%nat eqn:Hlo; [|discriminate].
      apply Nat.leb_le in Hlo. exists s, cap.
      replace (lo - n) with 0 by lia. split; [apply M_RepStop|exact Hy]. }
    destruct g.
    + destruct (if Regex.below hi n then _ else None) as [y|] eqn:Hm.
      * intro Heq. injection Heq as <-. apply Hmore; first [exact Hm|reflexivity].
      * apply Hstop.
    + destruct (if (lo <=? n)%nat then k s cap else None) as [y|] eqn:Hs.
      * intro Heq. injection Heq as <-. apply Hstop; first [exact Hs|reflexivity].
      * apply Hmore.
Qed.

Lemma run_sound (r : Regex.t) :
  forall s cap k x,
    Regex.run r s cap k = Some x ->
    exists s' cap', Matches r s cap s' cap' /\ k s' cap' = Some x.
Proof.
  induction r as [|p|a IHa b IHb|a IHa b IHb|g lo hi body IH|body IH|];
    intros s cap k x Hrun.
  - exists s, cap. split; [constructor|exact Hrun].
  - cbn [Regex.run] in Hrun. destruct s as [|c s]; [discriminate|].
    destruct (p c) eqn:Hp; [|discriminate].
    exists s, cap. split; [constructor; exact Hp|exact Hrun].
  - cbn [Regex.run] in Hrun. apply IHa in Hrun.
    destruct Hrun as [s1 [cap1 [Ha Hrun]]].
    apply IHb in Hrun. destruct Hrun as [s' [cap' [Hb Hk]]].
    exists s', cap'. split; [econstructor; eassumption|exact Hk].
  - cbn [Regex.run] in Hrun.
    destruct (Regex.run a s cap k) as [y|] eqn:Ha.
    + injection Hrun as <-. apply IHa in Ha.
      destruct Ha as [s' [cap' [Ha Hk]]].
      exists s', cap'. split; [apply M_AltL; exact Ha|exact Hk].
    + apply IHb in Hrun. destruct Hrun as [s' [cap' [Hb Hk]]].
      exists s', cap'. split; [apply M_AltR; exact Hb|exact Hk].
  - cbn [Regex.run] in Hrun. apply (iter_sound _ _ _ _ _ IH) in Hrun.
    rewrite Nat.sub_0_r, less_0 in Hrun. exact Hrun.
  - cbn [Regex.run] in Hrun. apply IH in Hrun.
    destruct Hrun as [s' [cap' [Hb Hk]]].
    eexists. eexists. split; [eapply M_Group; exact Hb|exact Hk].
  - cbn [Regex.run] in Hrun. destruct s; [|discriminate].
    exists "", cap. split; [constructor|exact Hrun].
Qed.

(** A match consumes a prefix. *)
Lemma Matches_suffix r s cap s' cap' :
  Matches r s cap s' cap' -> exists u, s = u ++ s'.
Proof.
  induction 1 as [s cap|p c s cap Hp|a b s cap s1 cap1 s2 cap2 _ [u ->] _ [v ->]
                 |a b s cap s' cap' _ IH|a b s cap s' cap' _ IH
                 |g hi body s cap
                 |g lo hi body s cap s1 cap1 s' cap' _ _ [u ->] _ _ [v ->]
                 |body s cap s' cap0 _ IH|cap].
  - exists "". reflexivity.
  - exists (String c ""). reflexivity.
  - exists (u ++ v). rewrite append_assoc. reflexivity.
  - exact IH.
  - exact IH.
  - exists "". reflexivity.
  - exists (u ++ v). rewrite append_assoc. reflexivity.
  - exact IH.
  - exists "". reflexivity.
Qed.

(** The matcher depends on its continuation by its values only. *)
Lemma iter_ext body g lo hi k1 k2 :
  (forall s cap ka kb,
     (forall s' cap', ka s' cap' = kb s' cap') ->
     Regex.run body s cap ka = Regex.run body s cap kb) ->
  (forall s cap, k1 s cap = k2 s cap) ->
  forall fuel n s cap,
    Regex.iter (Regex.run body) g lo hi k1 fuel n s cap
    = Regex.iter (Regex.run body) g lo hi k2 fuel n s cap.
Proof.
  intros Hbody Hk. induction fuel as [|fuel IH]; intros n s cap;
    rewrite !(iter_eq _ g lo hi); cbv beta iota zeta; rewrite Hk.
  - reflexivity.
  - rewrite (Hbody s cap _
               (fun s' cap' =>
                  if (String.length s' <? String.length s)%nat
                  then Regex.iter (Regex.run body) g lo hi k2 fuel (S n) s' cap'
                  else None)).
    + reflexivity.
    + intros s' cap'. rewrite IH. reflexivity.
Qed.

Lemma run_ext (r : Regex.t) :
  forall s cap k1 k2,
    (forall s' cap', k1 s' cap' = k2 s' cap') ->
    Regex.run r s cap k1 = Regex.run r s cap k2.
Proof.
  induction r as [|p|a IHa b IHb|a IHa b IHb|g lo hi body IH|body IH|];
    intros s cap k1 k2 Hk; cbn [Regex.run].
  - apply Hk.
  - destruct s as [|c s]; [reflexivity|]. destruct (p c); [apply Hk|reflexivity].
  - apply IHa. intros s' cap'. apply IHb. exact Hk.
  - rewrite (IHa s cap k1 k2 Hk), (IHb s cap k1 k2 Hk). reflexivity.
  - apply iter_ext; assumption.
  - apply IH. intros s' cap'. apply Hk.
  - destruct s; [apply Hk|reflexivity].
Qed.

(** Only the distance of the counter to the bounds matters. *)
Lemma iter_shift body g lo hi k :
  forall fuel n s cap,
    Regex.iter (Regex.run body) g lo hi k fuel (S n) s cap
    = Regex.iter (Regex.run body) g (pred lo) (option_map pred hi) k fuel n s cap.
Proof.
  induction fuel as [|fuel IH]; intros n s cap;
    rewrite !(iter_eq _ g); cbv beta iota zeta.
  - replace (pred lo <=? n)%nat with (lo <=? S n)%nat; [reflexivity|].
    destruct lo; reflexivity.
  - replace (pred lo <=? n)%nat with (lo <=? S n)%nat
      by (destruct lo; reflexivity).
    replace (Regex.below (option_map pred hi) n) with (Regex.below hi (S n)).
    + rewrite (run_ext body s cap _
                 (fun s' cap' =>
                    if (String.length s' <? String.length s)%nat
                    then Regex.iter (Regex.run body) g (pred lo)
                           (option_map pred hi) k fuel (S n) s' cap'
                    else None)).
      * reflexivity.
      * intros s' cap'. rewrite IH. reflexivity.
    + destruct hi as [h|]; [|reflexivity]. simpl.
      destruct h; [reflexivity|]. simpl. reflexivity.
Qed.

(** Fuel beyond the length of the input changes nothing. *)
Lemma iter_fuel body g lo hi k :
  forall f1 f2 n s cap,
    String.length s < f1 -> String.length s < f2 ->
    Regex.iter (Regex.run body) g lo hi k f1 n s cap
    = Regex.iter (Regex.run body) g lo hi k f2 n s cap.
Proof.
  induction f1 as [|f1 IH]; intros f2 n s cap H1 H2; [lia|].
  destruct f2 as [|f2]; [lia|].
  rewrite !(iter_eq _ g); cbv beta iota zeta.
  rewrite (run_ext body s cap _
             (fun s' cap' =>
                if (String.length s' <? String.length s)%nat
                then Regex.iter (Regex.run body) g lo hi k f2 (S n) s' cap'
                else None)).
  - reflexivity.
  - intros s' cap'.
    destruct (String.length s' <? String.length s)%nat eqn:Hlen; [|reflexivity].
    apply Nat.ltb_lt in Hlen. apply IH; lia.
Qed.

(** The matcher misses no match: when some way of matching lets the
    continuation succeed, the matcher returns a result (of the way it
    prefers). *)
Lemma run_complete r s cap s' cap' :
  Matches r s cap s' cap' ->
  forall k x, k s' cap' = Some x -> exists y, Regex.run r s cap k = Some y.
Proof.
  induction 1 as [s cap|p c s cap Hp
                 |a b s cap s1 cap1 s2 cap2 _ IHa _ IHb
                 |a b s cap s' cap' _ IH|a b s cap s' cap' _ IH
                 |g hi body s cap
                 |g lo hi body s cap s1 cap1 s' cap' Hb _ IHbody Hlen _ IHrest
                 |body s cap s' cap0 _ IH|cap];
    intros k x Hk.
  - exists x. exact Hk.
  - exists x. cbn [Regex.run]. rewrite Hp. exact Hk.
  - cbn [Regex.run]. destruct (IHb k x Hk) as [y Hy].
    apply (IHa _ y). exact Hy.
  - cbn [Regex.run]. destruct (IH k x Hk) as [y Hy]. rewrite Hy.
    eexists; reflexivity.
  - cbn [Regex.run]. destruct (Regex.run a s cap k) as [y|];
      [eexists; reflexivity|].
    apply (IH k x Hk).
  - cbn [Regex.run]. rewrite iter_eq. cbv beta iota zeta.
    change (0 <=? 0)%nat with true. rewrite Hk.
    destruct g.
    + destruct (if Regex.below hi 0 then _ else None);
        eexists; reflexivity.
    + eexists; reflexivity.
  - cbn [Regex.run]. rewrite iter_eq. cbv beta iota zeta. rewrite Hb.
    destruct (IHrest k x Hk) as [y Hy]. cbn [Regex.run] in Hy.
    assert (Hmore : exists z,
              Regex.run body s cap (fun s' cap' =>
                if (String.length s' <? String.length s)%nat
                then Regex.iter (Regex.run body) g lo hi k (String.length s) 1 s' cap'
                else None) = Some z).
    { apply (IHbody _ y).
      assert (Hl : (String.length s1 <? String.length s)%nat = true)
        by (apply Nat.ltb_lt; exact Hlen).
      rewrite Hl, iter_shift.
      rewrite (iter_fuel body g _ _ k (String.length s) (S (String.length s1)))
        by lia.
      exact Hy. }
    destruct Hmore as [z Hz].
    destruct g.
    + rewrite Hz. eexists; reflexivity.
    + destruct (lo <=? 0)%nat; [destruct (k s cap)|];
        try rewrite Hz; eexists; reflexivity.
  - cbn [Regex.run]. apply (IH _ x). exact Hk.
  - exists x. exact Hk.
Qed.

(** A search returns a match, and where it stands in the text. *)
Lemma search_sound (r : Regex.t) (s : string) (h : Regex.hit) :
  Regex.search r s = Some h ->
  s = Regex.before h ++ Regex.matched h ++ Regex.after h
  /\ Matches r (Regex.matched h ++ Regex.after h) None
       (Regex.after h) (Regex.group1 h).
Proof.
  assert (Hhere : forall t rest cap,
            Regex.matchAt r t = Some (rest, cap) ->
            substring 0 (String.length t - String.length rest) t ++ rest = t
            /\ Matches r t None rest cap).
  { intros t rest cap Hm. apply run_sound in Hm.
    destruct Hm as [s' [cap' [Hm Hacc]]]. injection Hacc as -> ->.
    destruct (Matches_suffix _ _ _ _ _ Hm) as [u Hu].
    split; [|exact Hm]. rewrite Hu, consumed_prefix. reflexivity. }
  revert h. induction s as [|c s IH]; intro h.
  - destruct (Regex.matchAt r "") as [[rest cap]|] eqn:Hm.
    + rewrite (search_hit _ _ _ _ Hm). intro Heq. injection Heq as <-.
      cbn [Regex.before Regex.matched Regex.after Regex.group1].
      destruct (Hhere _ _ _ Hm) as [Hsplit Hmatch].
      assert (Hrest : rest = "").
      { destruct (String.length "" - String.length rest); exact Hsplit. }
      subst rest. split; [reflexivity|exact Hmatch].
    + simpl. rewrite Hm. discriminate.
  - destruct (Regex.matchAt r (String c s)) as [[rest cap]|] eqn:Hm.
    + rewrite (search_hit _ _ _ _ Hm). intro Heq.
      apply (f_equal (fun o => match o with Some x => x | None => h end)) in Heq.
      subst h.
      unfold Regex.before, Regex.matched, Regex.after, Regex.group1.
      destruct (Hhere _ _ _ Hm) as [Hsplit Hmatch].
      rewrite Hsplit. split; [reflexivity|exact Hmatch].
    + rewrite (search_miss _ _ _ Hm).
      destruct (Regex.search r s) as [h'|]; [|discriminate].
      intro Heq. injection Heq as <-.
      cbn [Regex.before Regex.matched Regex.after Regex.group1].
      destruct (IH h' eq_refl) as [Hs Hm'].
      split; [|exact Hm']. cbn [append]. rewrite <- Hs. reflexivity.
Qed.

(** A search misses no match. *)
Lemma search_complete (r : Regex.t) (u t t' : string) (cap' : option string) :
  Matches r t None t' cap' -> exists h, Regex.search r (u ++ t) = Some h.
Proof.
  intro Hm.
  assert (Hat : exists y, Regex.matchAt r t = Some y).
  { apply (run_complete _ _ _ _ _ Hm Regex.accept (t', cap')). reflexivity. }
  destruct Hat as [[rest cap] Hat].
  induction u as [|c u [h IH]].
  - cbn [append]. rewrite (search_hit _ _ _ _ Hat). eexists; reflexivity.
  - change (String c u ++ t) with (String c (u ++ t)). cbn [Regex.search].
    destruct (Regex.matchAt r (String c (u ++ t))) as [[rest' cap'']|];
      [eexists; reflexivity|].
    rewrite IH. eexists; reflexivity.
Qed.

Lemma test_true_iff (r : Regex.t) (s : string) :
  Regex.test r s = true
  <-> exists u t t' cap', s = u ++ t /\ Matches r t None t' cap'.
Proof.
  unfold Regex.test. split.
  - destruct (Regex.search r s) as [h|] eqn:Hs; [|discriminate]. intros _.
    destruct (search_sound _ _ _ Hs) as [Hsplit Hm].
    exists (Regex.before h), (Regex.matched h ++ Regex.after h),
      (Regex.after h), (Regex.group1 h).
    split; assumption.
  - intros [u [t [t' [cap' [-> Hm]]]]].
    destruct (search_complete r u _ _ _ Hm) as [h ->]. reflexivity.
Qed.

(** Letters under the [i] flag. *)
Lemma upperChar_lower (c : ascii) : JS.upperChar (JS.lowerChar c) = JS.upperChar c.
Proof.
  destruct c as [[] [] [] [] [] [] [] []]; reflexivity.
Qed.

Lemma lowerChar_upper (c : ascii) : JS.lowerChar (JS.upperChar c) = JS.lowerChar c.
Proof.
  destruct c as [[] [] [] [] [] [] [] []]; reflexivity.
Qed.

Lemma toLowerCase_app (u v : string) :
  JS.toLowerCase (u ++ v) = JS.toLowerCase u ++ JS.toLowerCase v.
Proof.
  unfold JS.toLowerCase. induction u as [|c u IH]; simpl;
    [reflexivity|rewrite IH; reflexivity].
Qed.

(** What a literal matches under the [i] flag: a text of the same letters,
    whatever their case. *)
Lemma Matches_litI (p s s' : string) (cap cap' : option string) :
  Matches (Regex.litI p) s cap s' cap' <->
  exists u, s = u ++ s' /\ JS.toLowerCase u = JS.toLowerCase p /\ cap' = cap.
Proof.
  revert s cap. induction p as [|c p IH]; intros s cap.
  - simpl. split.
    + intro Hm. inversion Hm; subst. exists "". repeat split.
    + intros [u [-> [Hu ->]]]. destruct u; [|discriminate]. constructor.
  - assert (Hchar : forall s0 cap0 s1 cap1,
              Matches (Regex.chrI c) s0 cap0 s1 cap1 <->
              exists d, s0 = String d s1 /\ JS.lowerChar d = JS.lowerChar c
                        /\ cap1 = cap0).
    { intros s0 cap0 s1 cap1. unfold Regex.chrI. split.
      - intro Hm. inversion Hm; subst.
        match goal with Hp : Ascii.eqb _ _ = true |- _ =>
          apply Ascii.eqb_eq in Hp; rename Hp into Heq end.
        eexists. split; [reflexivity|]. split; [|reflexivity].
        rewrite <- (lowerChar_upper c), <- Heq, lowerChar_upper. reflexivity.
      - intros [d [-> [Hd ->]]]. constructor. apply Ascii.eqb_eq.
        rewrite <- (upperChar_lower d), Hd, upperChar_lower. reflexivity. }
    destruct p as [|e p].
    + cbn [Regex.litI]. rewrite Hchar. split.
      * intros [d [-> [Hd ->]]]. exists (String d ""). repeat split.
        simpl. unfold JS.toLowerCase; simpl. rewrite Hd. reflexivity.
      * intros [u [-> [Hu ->]]]. unfold JS.toLowerCase in Hu.
        destruct u as [|d [|d' u]]; simpl in Hu; try discriminate.
        injection Hu as Hd. exists d. repeat split. exact Hd.
    + change (Regex.litI (String c (String e p)))
        with (Regex.Seq (Regex.chrI c) (Regex.litI (String e p))).
      split.
      * intro Hm. inversion Hm as [| |a b s0 cap0 s1 cap1 s2 cap2 Ha Hb| | | | | |];
          subst.
        apply Hchar in Ha. apply IH in Hb.
        destruct Ha as [d [-> [Hd ->]]].
        destruct Hb as [u [-> [Hu ->]]].
        exists (String d u). repeat split.
        unfold JS.toLowerCase in *. simpl. simpl in Hu. rewrite Hd, Hu.
        reflexivity.
      * intros [u [-> [Hu ->]]]. unfold JS.toLowerCase in Hu.
        destruct u as [|d u]; simpl in Hu; [discriminate|].
        injection Hu as Hd Hu.
        apply (M_Seq _ _ _ _ (u ++ s') cap).
        -- apply Hchar. exists d. repeat split. exact Hd.
        -- apply IH. exists u. repeat split. exact Hu.
Qed.

(** What the compound expressions match. *)
Lemma Matches_Seq_inv a b s cap s2 cap2 :
  Matches (Regex.Seq a b) s cap s2 cap2 ->
  exists s1 cap1, Matches a s cap s1 cap1 /\ Matches b s1 cap1 s2 cap2.
Proof. intro Hm. inversion Hm; subst. eauto. Qed.

Lemma Matches_Alt_inv a b s cap s' cap' :
  Matches (Regex.Alt a b) s cap s' cap' ->
  Matches a s cap s' cap' \/ Matches b s cap s' cap'.
Proof. intro Hm. inversion Hm; subst; auto. Qed.

Lemma Matches_Group_inv body s cap s' cap' :
  Matches (Regex.Group body) s cap s' cap' ->
  exists u cap0, s = u ++ s' /\ cap' = Some u /\ Matches body s cap s' cap0.
Proof.
  intro Hm. inversion Hm as [| | | | | | |body0 s0 c0 s1 cap0 Hb|]; subst.
  destruct (Matches_suffix _ _ _ _ _ Hb) as [u ->].
  exists u, cap0. rewrite consumed_prefix. repeat split. exact Hb.
Qed.

Lemma Matches_Chars_inv p s cap s' cap' :
  Matches (Regex.Chars p) s cap s' cap' ->
  exists c, s = String c s' /\ p c = true /\ cap' = cap.
Proof. intro Hm. inversion Hm; subst. eauto. Qed.

Lemma Matches_chr_inv c s cap s' cap' :
  Matches (Regex.chr c) s cap s' cap' -> s = String c s' /\ cap' = cap.
Proof.
  intro Hm. apply Matches_Chars_inv in Hm. destruct Hm as [d [-> [Hd ->]]].
  apply Ascii.eqb_eq in Hd. subst d. split; reflexivity.
Qed.

Lemma Matches_Eol_inv s cap s' cap' :
  Matches Regex.Eol s cap s' cap' -> s = "" /\ s' = "" /\ cap' = cap.
Proof. intro Hm. inversion Hm; subst. repeat split. Qed.

Lemma Matches_Group_intro body u s' cap cap0 :
  Matches body (u ++ s') cap s' cap0 ->
  Matches (Regex.Group body) (u ++ s') cap s' (Some u).
Proof.
  intro Hb. apply M_Group in Hb. rewrite consumed_prefix in Hb. exact Hb.
Qed.

Lemma Matches_litI_intro p u s cap :
  JS.toLowerCase u = JS.toLowerCase p -> Matches (Regex.litI p) (u ++ s) cap s cap.
Proof. intro Hu. apply Matches_litI. exists u. repeat split. exact Hu. Qed.

(** X12. The upload filter accepts a file exactly when its original name
    ends in a dot followed by pdf, png, jpg, jpeg or txt, in any letter
    case. *)
Theorem fileFilter_accepts_iff :
  forall originalname : string,
    fileFilter originalname = Returned true
    <-> exists stem ext,
          originalname = stem ++ "." ++ ext
          /\ In (JS.toLowerCase ext) ["pdf"; "png"; "jpg"; "jpeg"; "txt"].
Proof.
  intro name. unfold fileFilter.
  assert (Htest : Regex.test allowedTypes name = true
                  <-> exists stem ext,
                        name = stem ++ "." ++ ext
                        /\ In (JS.toLowerCase ext) ["pdf"; "png"; "jpg"; "jpeg"; "txt"]).
  { rewrite test_true_iff. unfold allowedTypes. cbn [Regex.seq]. split.
    - intros [u [t [t' [cap' [-> Hm]]]]].
      apply Matches_Seq_inv in Hm. destruct Hm as [s1 [cap1 [Hdot Hm]]].
      apply Matches_chr_inv in Hdot. destruct Hdot as [-> ->].
      apply Matches_Seq_inv in Hm. destruct Hm as [s2 [cap2 [Hg Hend]]].
      apply Matches_Eol_inv in Hend. destruct Hend as [-> [-> ->]].
      apply Matches_Group_inv in Hg. destruct Hg as [ext [cap0 [-> [_ Hext]]]].
      exists u, ext. rewrite append_nil_r. split; [reflexivity|].
      repeat (apply Matches_Alt_inv in Hext; destruct Hext as [Hext|Hext]);
        apply Matches_litI in Hext; destruct Hext as [v [Hv [Hlow _]]];
        rewrite append_nil_r in Hv; apply (f_equal JS.toLowerCase) in Hv;
        rewrite toLowerCase_app in Hv; cbn [JS.toLowerCase JS.mapStr append] in Hv;
        rewrite append_nil_r in Hv; rewrite Hv, Hlow; cbn; auto 6.
    - intros [stem [ext [-> Hin]]].
      exists stem, ("." ++ ext), "", (Some ext).
      split; [reflexivity|].
      apply (M_Seq _ _ _ _ ext None); [constructor; reflexivity|].
      apply (M_Seq _ _ _ _ "" (Some ext)); [|constructor].
      rewrite <- (append_nil_r ext) at 1.
      apply (Matches_Group_intro _ _ _ _ None).
      cbn [In] in Hin.
      destruct Hin as [Hx|[Hx|[Hx|[Hx|[Hx|[]]]]]].
      + apply M_AltL. apply Matches_litI_intro. symmetry. exact Hx.
      + apply M_AltR, M_AltL. apply Matches_litI_intro. symmetry. exact Hx.
      + apply M_AltR, M_AltR, M_AltL. apply Matches_litI_intro. symmetry. exact Hx.
      + apply M_AltR, M_AltR, M_AltR, M_AltL. apply Matches_litI_intro.
        symmetry. exact Hx.
      + apply M_AltR, M_AltR, M_AltR, M_AltR. apply Matches_litI_intro.
        symmetry. exact Hx. }
  destruct (Regex.test allowedTypes name).
  - split; [intros _; apply Htest; reflexivity|reflexivity].
  - split; [discriminate|].
    intro Hex. apply Htest in Hex. discriminate.
Qed.

(** A literal under the [i] flag is found exactly in the texts that hold
    it, whatever the case of the letters. *)
Lemma test_litI_iff (p s : string) :
  Regex.test (Regex.litI p) s = true
  <-> exists u v w, s = u ++ v ++ w /\ JS.toLowerCase v = JS.toLowerCase p.
Proof.
  rewrite test_true_iff. split.
  - intros [u [t [t' [cap' [-> Hm]]]]].
    apply Matches_litI in Hm. destruct Hm as [v [-> [Hv _]]].
    exists u, v, t'. split; [reflexivity|exact Hv].
  - intros [u [v [w [-> Hv]]]].
    exists u, (v ++ w), w, None. split; [reflexivity|].
    apply Matches_litI_intro. exact Hv.
Qed.

(** What a quantified character class matches: a run of characters of the
    class, as long as the bounds allow. *)
Lemma Matches_Rep_Chars g lo hi p s cap s' cap' :
  Matches (Regex.Rep g lo hi (Regex.Chars p)) s cap s' cap' ->
  exists u,
    s = u ++ s' /\ cap' = cap /\ lo <= String.length u
    /\ (forall h, hi = Some h -> String.length u <= h)
    /\ forall u1 c u2, u = u1 ++ String c u2 -> p c = true.
Proof.
  remember (Regex.Rep g lo hi (Regex.Chars p)) as r eqn:Hr.
  intro Hm. revert lo hi Hr.
  induction Hm as [| | | | |g0 hi0 body s cap
                  |g0 lo0 hi0 body s cap s1 cap1 s' cap' Hb Hbody _ Hlen Hrest IH
                  | |]; intros lo hi Hr; try discriminate.
  - injection Hr as -> <- -> ->. exists "". repeat split; [simpl; lia| |].
    + intros h _. simpl. lia.
    + intros u1 c u2 Hu. destruct u1; discriminate.
  - injection Hr as -> -> -> ->.
    apply Matches_Chars_inv in Hbody. destruct Hbody as [c [-> [Hc ->]]].
    destruct (IH (pred lo) (option_map pred hi) eq_refl)
      as [u [-> [-> [Hlo [Hhi Hall]]]]].
    exists (String c u). repeat split; [simpl; lia| |].
    + intros h ->. simpl in Hb. apply Nat.ltb_lt in Hb.
      specialize (Hhi (pred h) eq_refl). simpl. lia.
    + intros u1 d u2 Hu. destruct u1 as [|e u1].
      * injection Hu as <- _. exact Hc.
      * injection Hu as _ Hu. apply (Hall u1 d u2). exact Hu.
Qed.

(** What a literal matches: itself. *)
Lemma Matches_lit (p s s' : string) (cap cap' : option string) :
  Matches (Regex.lit p) s cap s' cap' <-> s = p ++ s' /\ cap' = cap.
Proof.
  revert s cap. induction p as [|c p IH]; intros s cap.
  - simpl. split.
    + intro Hm. inversion Hm; subst. split; reflexivity.
    + intros [-> ->]. constructor.
  - destruct p as [|e p].
    + cbn [Regex.lit]. split.
      * intro Hm. apply Matches_chr_inv in Hm. exact Hm.
      * intros [-> ->]. constructor. apply Ascii.eqb_refl.
    + rewrite lit_cons by discriminate. split.
      * intro Hm. apply Matches_Seq_inv in Hm.
        destruct Hm as [s1 [cap1 [Ha Hb]]].
        apply Matches_chr_inv in Ha. destruct Ha as [-> ->].
        apply IH in Hb. destruct Hb as [-> ->]. split; reflexivity.
      * intros [-> ->].
        apply (M_Seq _ _ _ _ (String e p ++ s') cap).
        -- constructor. apply Ascii.eqb_refl.
        -- apply IH. split; reflexivity.
Qed.

(** A match at the start, in terms of what can match. *)
Lemma matchAt_iff (r : Regex.t) (s : string) :
  Regex.matchAt r s <> None <-> exists s' cap', Matches r s None s' cap'.
Proof.
  unfold Regex.matchAt. split.
  - destruct (Regex.run r s None Regex.accept) as [x|] eqn:Hrun;
      [|intro Hne; contradiction].
    intros _. apply run_sound in Hrun. destruct Hrun as [s' [cap' [Hm _]]]. eauto.
  - intros [s' [cap' Hm]].
    destruct (run_complete _ _ _ _ _ Hm Regex.accept (s', cap') eq_refl)
      as [y ->].
    discriminate.
Qed.

(** White space and letter case. *)
Lemma isSpace_lowerChar (c : ascii) : JS.isSpace (JS.lowerChar c) = JS.isSpace c.
Proof. destruct c as [[] [] [] [] [] [] [] []]; reflexivity. Qed.

Lemma mapStr_rev_string (f : ascii -> ascii) (s acc : string) :
  JS.mapStr f (JS.rev_string acc s) = JS.rev_string (JS.mapStr f acc) (JS.mapStr f s).
Proof.
  revert acc. induction s as [|c s IH]; intro acc; simpl; [reflexivity|].
  rewrite IH. reflexivity.
Qed.

Lemma toLowerCase_trimStart (s : string) :
  JS.toLowerCase (JS.trimStart s) = JS.trimStart (JS.toLowerCase s).
Proof.
  unfold JS.toLowerCase. induction s as [|c s IH]; simpl; [reflexivity|].
  rewrite isSpace_lowerChar. destruct (JS.isSpace c); [exact IH|reflexivity].
Qed.

Lemma toLowerCase_trim (s : string) :
  JS.toLowerCase (JS.trim s) = JS.trim (JS.toLowerCase s).
Proof.
  unfold JS.trim, JS.trimEnd.
  rewrite <- toLowerCase_trimStart.
  unfold JS.toLowerCase at 1. rewrite mapStr_rev_string. cbn [JS.mapStr].
  fold (JS.toLowerCase (JS.trimStart (JS.rev_string "" (JS.trimStart s)))).
  rewrite toLowerCase_trimStart. unfold JS.toLowerCase at 1.
  rewrite mapStr_rev_string. reflexivity.
Qed.

(** What [firstGroup] returns is what group 1 of a match consumed. *)
Lemma firstGroup_sound (re : Regex.t) (text g : string) :
  firstGroup re text = Some g ->
  exists h,
    Regex.search re text = Some h
    /\ g = Regex.dollar1 h
    /\ text = Regex.before h ++ Regex.matched h ++ Regex.after h
    /\ Matches re (Regex.matched h ++ Regex.after h) None
         (Regex.after h) (Regex.group1 h).
Proof.
  unfold firstGroup. destruct (Regex.search re text) as [h|] eqn:Hs;
    [|discriminate].
  intro Heq. injection Heq as <-.
  destruct (search_sound _ _ _ Hs) as [Hsplit Hm].
  exists h. repeat split; assumption.
Qed.

Lemma append_cancel_r (u v s : string) : u ++ s = v ++ s -> u = v.
Proof.
  revert v. induction u as [|c u IH]; intros [|d v] Heq.
  - reflexivity.
  - apply (f_equal String.length) in Heq. simpl in Heq.
    rewrite length_append in Heq. lia.
  - apply (f_equal String.length) in Heq. simpl in Heq.
    rewrite length_append in Heq. lia.
  - simpl in Heq. injection Heq as -> Heq. rewrite (IH v Heq). reflexivity.
Qed.

(** X13. A sex that [extractPatientMetadata] reports is one of the three
    words of its pattern, in the letter case of the text: in lower case it
    is male, female or other. *)
Theorem extractPatientMetadata_sex :
  forall text s : string,
    PatientMeta.sex (extractPatientMetadata text) = Some s ->
    In (JS.toLowerCase s) ["male"; "female"; "other"].
Proof.
  intros text s. unfold extractPatientMetadata.
  destruct (JS.truthyStr text); cbn [negb PatientMeta.sex PatientMeta.empty];
    [|discriminate].
  destruct (firstGroup reSex text) as [g|] eqn:Hg; [|discriminate].
  cbn [option_map]. intro Heq. injection Heq as <-.
  apply firstGroup_sound in Hg. destruct Hg as [h [_ [-> [_ Hm]]]].
  unfold reSex in Hm. cbn [Regex.seq] in Hm.
  apply Matches_Seq_inv in Hm. destruct Hm as [s1 [cap1 [_ Hm]]].
  apply Matches_Seq_inv in Hm. destruct Hm as [s2 [cap2 [_ Hm]]].
  apply Matches_Group_inv in Hm. destruct Hm as [u [cap0 [Hs2 [Hcap Hm]]]].
  unfold Regex.dollar1. rewrite Hcap. rewrite toLowerCase_trim.
  repeat (apply Matches_Alt_inv in Hm; destruct Hm as [Hm|Hm]);
    apply Matches_litI in Hm; destruct Hm as [v [Hv [Hlow _]]];
    rewrite Hs2 in Hv; apply append_cancel_r in Hv; subst v; rewrite Hlow;
    cbn; auto.
Qed.

Lemma extractPatientMetadata_sex_witness :
  In (JS.toLowerCase "FEMALE") ["male"; "female"; "other"].
Proof.
  apply (extractPatientMetadata_sex
           ("Patient Name: Jane Roe" ++ JS.nl ++ "Sex:  FEMALE (45 years)")).
  vm_compute. reflexivity.
Defined.

Lemma readDigits_nonneg (s : string) :
  forall acc n ip ni rest,
    (0 <= acc)%Z -> JS.readDigits s acc n = (ip, ni, rest) -> (0 <= ip)%Z.
Proof.
  induction s as [|c s IH]; intros acc n ip ni rest Hacc; cbn [JS.readDigits].
  - intro Heq. injection Heq as <- _ _. exact Hacc.
  - destruct (JS.isDigit c).
    + apply IH. unfold JS.digitVal. lia.
    + intro Heq. injection Heq as <- _ _. exact Hacc.
Qed.

(** The double nearest to a natural number is a natural number or
    Infinity. *)
Lemma nearestDouble_natural (n : Z) :
  (0 <= n)%Z ->
  JS.nearestDouble n = JS.PosInf
  \/ exists k : Z, (0 <= k)%Z /\ JS.nearestDouble n = JS.Fin (inject_Z k).
Proof.
  intro Hn. unfold JS.nearestDouble.
  destruct (Z.log2 n - 52 <=? 0)%Z; [right; exists n; split; [exact Hn|reflexivity]|].
  set (e := (Z.log2 n - 52)%Z).
  set (q := Z.shiftr n e).
  assert (Hq : (0 <= q)%Z) by (apply Z.shiftr_nonneg; exact Hn).
  set (q' := if (n - Z.shiftl q e <? Z.shiftl 1 (e - 1))%Z then q
             else if (Z.shiftl 1 (e - 1) <? n - Z.shiftl q e)%Z then (q + 1)%Z
             else if Z.even q then q else (q + 1)%Z).
  assert (Hq' : (0 <= q')%Z).
  { subst q'.
    destruct (n - Z.shiftl q e <? Z.shiftl 1 (e - 1))%Z; [exact Hq|].
    destruct (Z.shiftl 1 (e - 1) <? n - Z.shiftl q e)%Z; [lia|].
    destruct (Z.even q); lia. }
  destruct (Z.shiftl 1 1024 <=? Z.shiftl q' e)%Z; [left; reflexivity|].
  right. exists (Z.shiftl q' e). split; [|reflexivity].
  apply Z.shiftl_nonneg. exact Hq'.
Qed.

(** [parseInt] of a text that starts with a digit is a natural number or
    Infinity. *)
Lemma parseInt_leading_digit (d : ascii) (g : string) :
  JS.isDigit d = true ->
  parseInt (String d g) = JS.PosInf
  \/ exists k : Z, (0 <= k)%Z /\ parseInt (String d g) = JS.Fin (inject_Z k).
Proof.
  intro Hd. unfold parseInt. cbn [JS.trimStart].
  rewrite (digit_not_space d Hd).
  assert (Hsign : match String d g with
                  | String "-" t' => (true, t')
                  | String "+" t' => (false, t')
                  | _ => (false, String d g)
                  end = (false, String d g)).
  { destruct d as [[] [] [] [] [] [] [] []]; try reflexivity; discriminate Hd. }
  rewrite Hsign.
  destruct (JS.readDigits (String d g) 0 0) as [[n count] rest] eqn:Hread.
  pose proof (readDigits_nonneg _ _ _ _ _ _ (Z.le_refl 0) Hread) as Hn.
  cbn [JS.readDigits] in Hread. rewrite Hd in Hread.
  apply readDigits_count in Hread.
  assert (Hc : (count =? 0)%nat = false) by (apply Nat.eqb_neq; lia).
  rewrite Hc. apply nearestDouble_natural. exact Hn.
Qed.

(** An expression without a group leaves group 1 as it found it. *)
Lemma Matches_groupless r s cap s' cap' :
  Matches r s cap s' cap' -> groupless r = true -> cap' = cap.
Proof.
  induction 1 as [s cap|p c s cap Hp
                 |a b s cap s1 cap1 s2 cap2 _ IHa _ IHb
                 |a b s cap s' cap' _ IH|a b s cap s' cap' _ IH
                 |g hi body s cap
                 |g lo hi body s cap s1 cap1 s' cap' _ _ IHbody _ _ IHrest
                 |body s cap s' cap0 _ IH|cap];
    cbn [groupless]; intro Hg; try reflexivity; try discriminate.
  - apply andb_true_iff in Hg. destruct Hg as [Ha Hb].
    rewrite (IHb Hb). exact (IHa Ha).
  - apply andb_true_iff in Hg. destruct Hg as [Ha _]. exact (IH Ha).
  - apply andb_true_iff in Hg. destruct Hg as [_ Hb]. exact (IH Hb).
  - rewrite (IHrest Hg). exact (IHbody Hg).
Qed.

(** X14. An age that [extractPatientMetadata] reports is a natural number
    or, for a run of digits too long for a double, Infinity: never NaN,
    negative or fractional. *)
Theorem extractPatientMetadata_age :
  forall (text : string) (age : JS.number),
    PatientMeta.age (extractPatientMetadata text) = Some age ->
    age = JS.PosInf
    \/ exists k : Z, (0 <= k)%Z /\ age = JS.Fin (inject_Z k).
Proof.
  intros text age. unfold extractPatientMetadata.
  destruct (JS.truthyStr text); cbn [negb PatientMeta.age PatientMeta.empty];
    [|discriminate].
  destruct (firstGroup reAge text) as [g|] eqn:Hg; [|discriminate].
  cbn [option_map]. intro Heq. injection Heq as <-.
  apply firstGroup_sound in Hg. destruct Hg as [h [_ [-> [_ Hm]]]].
  unfold reAge in Hm. cbn [Regex.seq] in Hm.
  apply Matches_Seq_inv in Hm. destruct Hm as [s1 [cap1 [_ Hm]]].
  apply Matches_Seq_inv in Hm. destruct Hm as [s2 [cap2 [Hgroup Hrest]]].
  apply Matches_Group_inv in Hgroup.
  destruct Hgroup as [u [cap0 [Hs1 [Hcap Hdigits]]]].
  apply Matches_Rep_Chars in Hdigits.
  destruct Hdigits as [u' [Hu' [_ [Hlen [_ Hall]]]]].
  rewrite Hs1 in Hu'. apply append_cancel_r in Hu'. subst u'.
  apply Matches_groupless in Hrest; [|reflexivity].
  unfold Regex.dollar1. rewrite Hrest, Hcap.
  destruct u as [|d u]; [simpl in Hlen; lia|].
  apply parseInt_leading_digit. apply (Hall "" d u). reflexivity.
Qed.

Lemma extractPatientMetadata_age_witness :
  JS.Fin 45 = JS.PosInf
  \/ exists k : Z, (0 <= k)%Z /\ JS.Fin 45 = JS.Fin (inject_Z k).
Proof.
  apply (extractPatientMetadata_age
           ("Patient Name: Jane Roe" ++ JS.nl ++ "Sex:  FEMALE (45 years)")).
  vm_compute. reflexivity.
Defined.

(** Both cases occur: an age of 310 digits is Infinity, and one beyond
    [2^53] is the nearest double, not the number written. *)
Lemma age_of_a_long_run :
  PatientMeta.age (extractPatientMetadata ("(" ++ nines 310 ++ " years)"))
  = Some JS.PosInf
  /\ PatientMeta.age (extractPatientMetadata "(9007199254740993 years)")
     = Some (JS.Fin 9007199254740992).
Proof. split; vm_compute; reflexivity. Qed.

(** ** Text extraction *)

Section TextExtractionFacts.

Variable files : Files.t.

Lemma textOf_hasText what v t :
  textOf what v = Returned (Some t) -> hasText t = true.
Proof.
  unfold textOf. destruct v; try (destruct (JS.truthy _); discriminate).
  destruct (hasText s) eqn:Hs; [|discriminate].
  intro Heq. injection Heq as <-. exact Hs.
Qed.

Lemma ocrAttempt_hasText path t :
  ocrAttempt files path = Returned (Some t) -> hasText t = true.
Proof.
  unfold ocrAttempt. destruct (Files.extractWithOcr files path _); [discriminate|].
  apply textOf_hasText.
Qed.

Lemma fromImage_hasText path ext t :
  fromImage files path ext = Returned t -> hasText t = true.
Proof.
  unfold fromImage. destruct (existsb _ _); [|discriminate].
  destruct (negb _); [discriminate|].
  destruct (ocrAttempt files path) as [[t'|]|e] eqn:Hocr;
    cbn [JS.bind]; try discriminate.
  intro Heq. injection Heq as <-. exact (ocrAttempt_hasText _ _ Hocr).
Qed.

Lemma fromPdf_hasText path ext t :
  fromPdf files path ext = Returned t -> hasText t = true.
Proof.
  unfold fromPdf. destruct (String.eqb ext ".pdf"); [|apply fromImage_hasText].
  assert (Hocr :
    match
      (if ENABLE_OCR files then
         match ocrAttempt files path with
         | Returned found => found
         | Thrown _ => None
         end
       else None)
    with
    | Some text => Returned text
    | None =>
        Thrown (JS.newError
          "Unable to extract text from PDF. The file may be scanned or image-based. Please enable OCR or upload a searchable PDF.")
    end = Returned t -> hasText t = true).
  { destruct (ENABLE_OCR files); [|discriminate].
    destruct (ocrAttempt files path) as [[t'|]|e] eqn:Hocr; try discriminate.
    intro Heq. injection Heq as <-. exact (ocrAttempt_hasText _ _ Hocr). }
  cbv zeta.
  destruct (Files.pdfParse files path) as [e|parsed]; [exact Hocr|].
  destruct (JS.truthy parsed); [|exact Hocr].
  destruct (JS.get parsed "text") as [v|e]; cbn [JS.bind]; [|exact Hocr].
  destruct (textOf "parsed.text" v) as [[t'|]|e] eqn:Htext;
    [|exact Hocr|exact Hocr].
  intro Heq. injection Heq as <-. exact (textOf_hasText _ _ _ Htext).
Qed.

(** X15. What [extractTextFromFile] returns is never blank: whichever way the
    text was obtained (read, parsed from a PDF, recognised), it is returned
    only if it holds something besides white space; otherwise the function
    throws. *)
Theorem extractTextFromFile_never_blank :
  forall filePath text : string,
    extractTextFromFile files filePath = Returned text ->
    text <> "" /\ JS.trim text <> "".
Proof.
  intros filePath text Hrun.
  assert (Hhas : hasText text = true).
  { revert Hrun. unfold extractTextFromFile. cbv zeta.
    destruct (String.eqb _ ".txt"); [|apply fromPdf_hasText].
    destruct (Files.readText files filePath) as [e|t]; [discriminate|].
    destruct (hasText t) eqn:Ht; [|apply fromPdf_hasText].
    intro Heq. injection Heq as <-. exact Ht. }
  unfold hasText in Hhas. apply andb_true_iff in Hhas.
  destruct Hhas as [Hne Hlen]. split.
  - intros ->. discriminate Hne.
  - intro Hblank. rewrite Hblank in Hlen. discriminate Hlen.
Qed.

(** X16. A text file that is empty or holds white space only is not reported
    as such: the function falls through its two other blocks and throws
    [Unsupported file type: .txt]. *)
Theorem extractTextFromFile_blank_text_file :
  forall filePath text : string,
    JS.toLowerCase (Files.extname files filePath) = ".txt" ->
    Files.readText files filePath = inr text ->
    JS.trim text = "" ->
    extractTextFromFile files filePath
    = Thrown (JS.newError "Unsupported file type: .txt").
Proof.
  intros filePath text Hext Hread Hblank.
  unfold extractTextFromFile. cbv zeta. rewrite Hext, Hread.
  assert (Hno : hasText text = false).
  { unfold hasText. rewrite Hblank. apply andb_false_r. }
  rewrite Hno. reflexivity.
Qed.

End TextExtractionFacts.

(** ** services/cos.js *)

(** [/^https?:\/\//i] holds only for the texts that open with [http://]
    or [https://], whatever the case of the letters. *)
Lemma scheme_sound (s : string) :
  testAtStart scheme s = true ->
  exists sch rest,
    s = sch ++ rest
    /\ (JS.toLowerCase sch = "http://" \/ JS.toLowerCase sch = "https://").
Proof.
  intro Htest.
  assert (Hat : Regex.matchAt scheme s <> None).
  { unfold testAtStart in Htest. destruct (Regex.matchAt scheme s);
      [discriminate|discriminate Htest]. }
  apply matchAt_iff in Hat. destruct Hat as [s' [cap' Hm]].
  unfold scheme in Hm. cbn [Regex.seq] in Hm.
  apply Matches_Seq_inv in Hm. destruct Hm as [s1 [cap1 [Hhttp Hm]]].
  apply Matches_Seq_inv in Hm. destruct Hm as [s2 [cap2 [Hs Hsep]]].
  apply Matches_litI in Hhttp. destruct Hhttp as [h [-> [Hh _]]].
  unfold Regex.opt, Regex.chrI in Hs. apply Matches_Rep_Chars in Hs.
  destruct Hs as [u [-> [_ [_ [Hlen Hall]]]]].
  apply Matches_lit in Hsep. destruct Hsep as [-> _].
  exists (h ++ u ++ "://"), s'. rewrite !append_assoc.
  split; [reflexivity|].
  rewrite !toLowerCase_app, Hh.
  specialize (Hlen 1 eq_refl).
  destruct u as [|c [|d u]]; [left; reflexivity| |simpl in Hlen; lia].
  right. specialize (Hall "" c "" eq_refl).
  apply Ascii.eqb_eq in Hall.
  assert (Hc : JS.lowerChar c = "s"%char).
  { rewrite <- lowerChar_upper, Hall. reflexivity. }
  unfold JS.toLowerCase at 2. cbn [JS.mapStr]. rewrite Hc. reflexivity.
Qed.

Section CosFacts.

Variable cosEnv : CosEnv.t.
Variable newS3 : CosOptions.t -> option JS.error.
Variable errorString : JS.error -> string.

(** X17. The endpoint handed to the SDK always carries a scheme: it is the
    configured endpoint when that opens with [http://] or [https://] in any
    letter case, and the configured endpoint after [https://] otherwise.
    The other options are never empty, and the service instance falls back
    on [COS_SERVICE_INSTANCE_ID]. *)
Theorem createClient_options :
  forall options : CosOptions.t,
    createClient cosEnv newS3 errorString = Returned options ->
    (exists sch rest,
       CosOptions.endpoint options = sch ++ rest
       /\ (JS.toLowerCase sch = "http://" \/ JS.toLowerCase sch = "https://"))
    /\ (exists e,
          CosEnv.COS_ENDPOINT cosEnv = Some e /\ e <> ""
          /\ (CosOptions.endpoint options = e
              \/ CosOptions.endpoint options = "https://" ++ e))
    /\ CosOptions.apiKeyId options <> ""
    /\ CosOptions.serviceInstanceId options <> ""
    /\ (CosEnv.COS_RESOURCE_INSTANCE_ID cosEnv = Some (CosOptions.serviceInstanceId options)
        \/ (JS.truthyOpt (CosEnv.COS_RESOURCE_INSTANCE_ID cosEnv) = false
            /\ CosEnv.COS_SERVICE_INSTANCE_ID cosEnv
               = Some (CosOptions.serviceInstanceId options)))
    /\ CosOptions.region options <> "".
Proof.
  intro options. unfold createClient.
  destruct (CosEnv.COS_ENDPOINT cosEnv) as [[|e0 e]|]; cbn [JS.truthyOpt JS.truthyStr negb orb];
    try discriminate.
  destruct (CosEnv.COS_API_KEY_ID cosEnv) as [[|k0 k]|]; cbn [JS.truthyOpt JS.truthyStr negb orb];
    try discriminate.
  set (sid := if JS.truthyOpt (CosEnv.COS_RESOURCE_INSTANCE_ID cosEnv)
              then CosEnv.COS_RESOURCE_INSTANCE_ID cosEnv
              else CosEnv.COS_SERVICE_INSTANCE_ID cosEnv).
  destruct sid as [[|i0 i]|] eqn:Hsid; cbn [JS.truthyOpt JS.truthyStr negb];
    try discriminate.
  cbn [JS.orStr JS.truthyStr].
  destruct (newS3 _) as [err|]; [discriminate|].
  intro Heq. injection Heq as <-.
  cbn [CosOptions.endpoint CosOptions.apiKeyId CosOptions.serviceInstanceId
       CosOptions.region].
  split; [|split; [|split; [discriminate|split; [discriminate|split]]]].
  - destruct (testAtStart scheme (String e0 e)) eqn:Hs; cbn [negb].
    + apply scheme_sound. exact Hs.
    + exists "https://", (String e0 e). split; [reflexivity|right; reflexivity].
  - exists (String e0 e). split; [reflexivity|]. split; [discriminate|].
    destruct (testAtStart scheme (String e0 e)); cbn [negb]; auto.
  - subst sid.
    destruct (JS.truthyOpt (CosEnv.COS_RESOURCE_INSTANCE_ID cosEnv)) eqn:Hr.
    + left. exact Hsid.
    + right. split; [reflexivity|exact Hsid].
  - unfold JS.orStr. destruct (CosEnv.COS_REGION cosEnv) as [[|r0 r]|];
      discriminate.
Qed.

End CosFacts.

(** ** The analysis of a report *)

Lemma toLowerCase_split (v p1 p2 : string) :
  JS.toLowerCase v = p1 ++ p2 ->
  exists v1 v2,
    v = v1 ++ v2 /\ JS.toLowerCase v1 = p1 /\ JS.toLowerCase v2 = p2.
Proof.
  unfold JS.toLowerCase. revert v. induction p1 as [|c p1 IH]; intros v Hv.
  - exists "", v. repeat split. exact Hv.
  - destruct v as [|d v]; [discriminate Hv|].
    simpl in Hv. injection Hv as Hd Hv.
    destruct (IH v Hv) as [v1 [v2 [-> [H1 H2]]]].
    exists (String d v1), v2. repeat split; [|exact H2].
    simpl. rewrite Hd, H1. reflexivity.
Qed.

(** The three tests come down to two phrases. *)
Lemma extractionFailure_iff (text : string) :
  extractionFailure text = true
  <-> exists u v w,
        text = u ++ v ++ w
        /\ (JS.toLowerCase v = "unable to extract"
            \/ JS.toLowerCase v = "ocr is disabled").
Proof.
  unfold extractionFailure. rewrite !orb_true_iff, !test_litI_iff. split.
  - intros [[[u [v [w [-> Hv]]]]|[u [v [w [-> Hv]]]]]|[u [v [w [-> Hv]]]]].
    + (* the longer phrase holds the shorter one *)
      change (JS.toLowerCase "unable to extract text")
        with ("unable to extract" ++ " text") in Hv.
      apply toLowerCase_split in Hv. destruct Hv as [v1 [v2 [-> [Hv1 _]]]].
      exists u, v1, (v2 ++ w). rewrite !append_assoc.
      split; [reflexivity|left; exact Hv1].
    + exists u, v, w. split; [reflexivity|right; exact Hv].
    + exists u, v, w. split; [reflexivity|left; exact Hv].
  - intros [u [v [w [-> [Hv|Hv]]]]].
    + right. exists u, v, w. split; [reflexivity|exact Hv].
    + left; right. exists u, v, w. split; [reflexivity|exact Hv].
Qed.

Section ReportFacts.

Variable analyzeExtracted : string -> string -> JS.outcome Report.t.

(** X18. [analyzeReport] decides by two phrases: a text that holds
    [unable to extract] or [ocr is disabled] anywhere, in any letter case,
    gets the fixed report of a failed extraction, whatever else it holds;
    every other text goes to the analysis proper. *)
Theorem analyzeReport_failure_phrase :
  forall text filename : string,
    ((exists u v w,
        text = u ++ v ++ w
        /\ (JS.toLowerCase v = "unable to extract"
            \/ JS.toLowerCase v = "ocr is disabled")) ->
     analyzeReport analyzeExtracted text filename
     = Returned (extractionFailureReport text filename))
    /\ (~ (exists u v w,
             text = u ++ v ++ w
             /\ (JS.toLowerCase v = "unable to extract"
                 \/ JS.toLowerCase v = "ocr is disabled")) ->
        analyzeReport analyzeExtracted text filename
        = analyzeExtracted text filename).
Proof.
  intros text filename. unfold analyzeReport.
  pose proof (extractionFailure_iff text) as Hiff.
  destruct (extractionFailure text); split.
  - reflexivity.
  - intro Hno. exfalso. apply Hno. apply Hiff. reflexivity.
  - intro Hyes. apply Hiff in Hyes. discriminate.
  - reflexivity.
Qed.

End ReportFacts.

(** ** The narrative and the analysis with labs *)

Lemma mapM_Forall2 {A B : Type} (f : A -> JS.outcome B) (l : list A) :
  forall ys, JS.mapM f l = Returned ys -> Forall2 (fun x y => f x = Returned y) l ys.
Proof.
  induction l as [|x l IH]; intros ys; cbn [JS.mapM].
  - intro Heq. injection Heq as <-. constructor.
  - destruct (f x) as [y|e] eqn:Hx; cbn [JS.bind]; [|discriminate].
    destruct (JS.mapM f l) as [zs|e]; cbn [JS.bind]; [|discriminate].
    intro Heq. injection Heq as <-. constructor; [exact Hx|apply IH; reflexivity].
Qed.

Lemma join_snoc (sep : string) (l : list string) (x : string) :
  exists lead, JS.join sep (l ++ [x]) = lead ++ x.
Proof.
  induction l as [|y l [lead IH]].
  - exists "". reflexivity.
  - destruct l as [|z l].
    + exists (y ++ sep). simpl. rewrite append_assoc. reflexivity.
    + exists (y ++ sep ++ lead).
      change (JS.join sep ((y :: z :: l) ++ [x]))
        with (y ++ sep ++ JS.join sep ((z :: l) ++ [x])).
      rewrite IH, !append_assoc. reflexivity.
Qed.

Section NarrativeFacts.

Context `{Host}.

Lemma localExplanation_explained (a : Assessment.t) (e : JS.value) :
  localExplanation a = Returned e -> explained e.
Proof.
  unfold localExplanation.
  destruct (Status.eqb (Assessment.status a) Status.normal).
  - destruct (Assessment.normalRange a) as [range|]; cbn [JS.bind];
      [|discriminate].
    intro Heq. injection Heq as <-. eexists. eexists. eexists.
    split; [reflexivity|]. split; [discriminate|].
    destruct (Assessment.severity a); discriminate.
  - cbn [JS.bind]. intro Heq. injection Heq as <-. eexists. eexists. eexists.
    split; [reflexivity|]. split; [discriminate|].
    destruct (Assessment.severity a); discriminate.
Qed.

Lemma narrativeSentence_explained (e : JS.value) :
  explained e -> exists l, narrativeSentence e = Returned l.
Proof.
  intros [k [x [s [-> [Hx Hs]]]]]. unfold narrativeSentence.
  cbn [JS.get JS.lookup String.eqb Ascii.eqb Bool.eqb JS.nullish JS.bind
       JS.truthy].
  destruct (JS.truthyStr k); cbn [JS.bind];
    destruct x; try contradiction; destruct s; try contradiction;
    cbn [JS.truthyStr JS.bind JS.orElse JS.truthy]; eexists; reflexivity.
Qed.

Lemma mapM_total {A B : Type} (f : A -> JS.outcome B) (P : A -> Prop) (l : list A) :
  (forall x, P x -> exists y, f x = Returned y) ->
  Forall P l -> exists ys, JS.mapM f l = Returned ys.
Proof.
  intros Hf Hall. destruct (mapM_returns f l) as [ys [Hys _]].
  - eapply Forall_impl; [|exact Hall]. exact Hf.
  - eauto.
Qed.

Lemma localFallback_narrative :
  forall (assessments : list Assessment.t) (r : LabResult.t),
    localFallback assessments = Returned r ->
    exists lead,
      buildLabNarrative (LabResult.toValue r)
      = Returned
          (Some (lead ++ "Questions to discuss with your doctor: Please consult a doctor for next steps..")).
Proof.
  intros A r. unfold localFallback.
  destruct (JS.mapM localExplanation A) as [es|e] eqn:Hes; cbn [JS.bind];
    [|discriminate].
  intro Heq. injection Heq as <-.
  assert (Hall : Forall explained es).
  { apply mapM_Forall2 in Hes. clear -Hes.
    induction Hes as [|a e A es Hae _ IH]; constructor; [|exact IH].
    exact (localExplanation_explained _ _ Hae). }
  destruct (mapM_total narrativeSentence explained es
              narrativeSentence_explained Hall) as [pushed Hpushed].
  unfold buildLabNarrative, LabResult.toValue.
  cbn [JS.truthy negb JS.get JS.lookup String.eqb Ascii.eqb Bool.eqb
       JS.nullish JS.bind LabResult.result LabResult.assessments
       LabResult.rawWatson].
  rewrite Hpushed. cbn [JS.bind].
  set (actions := listSentence "Recommended actions: " _).
  cbn [listSentence arrayJoin map JS.join JS.toStr append].
  match goal with
  | |- context [(concat pushed ++ actions ++ [?q])%list] =>
      destruct (join_snoc " " (concat pushed ++ actions)%list q) as [lead Hlead];
      rewrite <- app_assoc in Hlead;
      destruct (concat pushed ++ actions ++ [q])%list as [|s0 rest] eqn:Hs
  end.
  - exfalso. destruct (concat pushed); [destruct actions|]; discriminate Hs.
  - exists lead. rewrite Hlead. reflexivity.
Qed.

(** X19. Whenever the local fallback returns, [buildLabNarrative] makes a
    narrative of it, and the narrative ends with the one question of the
    fallback followed by two full stops. *)
Theorem fallback_has_narrative :
  forall (assessments : list Assessment.t) (r : LabResult.t),
    localFallback assessments = Returned r ->
    exists lead,
      buildLabNarrative (LabResult.toValue r)
      = Returned
          (Some (lead ++ "Questions to discuss with your doctor: Please consult a doctor for next steps..")).
Proof.
  exact localFallback_narrative.
Qed.

End NarrativeFacts.

Section PipelineFacts.

Context `{Host}.

Ltac lab :=
  cbn [Analysis.labAnalysis map];
  first [ reflexivity | eassumption | symmetry; eassumption ].

Lemma bullet_explained (e : JS.value) :
  explained e -> exists b, bullet e = Returned b.
Proof.
  intros [k [x [s [-> [Hx Hs]]]]]. unfold bullet.
  cbn [JS.get JS.lookup String.eqb Ascii.eqb Bool.eqb JS.nullish JS.bind
       JS.truthy].
  destruct (JS.truthyStr k); cbn [JS.bind];
    destruct x; try contradiction; destruct s; try contradiction;
    cbn [JS.truthyStr JS.bind JS.orElse JS.truthy]; eexists; reflexivity.
Qed.

(** The merge of a local fallback: it returns, and the recommendations get
    the urgent actions. *)
Lemma merge_fallback (analysis : Analysis.t) (A S : list Assessment.t)
    (es : list JS.value) (questions raw : JS.value) :
  Forall explained es ->
  Analysis.labAnalysis analysis
  = LabResult.toValue
      {| LabResult.assessments := A;
         LabResult.result :=
           JS.Obj [ ("explanations", JS.Arr es);
                    ("action_items", JS.Arr (map urgent S));
                    ("questions", questions) ];
         LabResult.rawWatson := raw |} ->
  exists merged,
    mergeLabInsightsIntoSections analysis = Returned merged
    /\ Analysis.labAnalysis merged = Analysis.labAnalysis analysis
    /\ Analysis.recommendations merged
       = match S, Analysis.recommendations analysis with
         | _ :: _, Some r =>
             if JS.truthyStr r && negb (JS.includes r "AI Lab Follow-ups")
             then Some (r ++ JS.nl ++ JS.nl ++ "🤖 **AI-Recommended Actions**"
                          ++ JS.nl
                          ++ JS.join JS.nl
                               (map (fun a => "• URGENT: see a doctor for "
                                              ++ Assessment.key a) S))
             else Some r
         | _, other => other
         end.
Proof.
  intros Hall Hlab. unfold mergeLabInsightsIntoSections.
  rewrite Hlab. unfold LabResult.toValue. unfold LabResult.toValue in Hlab.
  cbn [JS.truthy negb JS.get JS.lookup String.eqb Ascii.eqb Bool.eqb
       JS.nullish JS.bind LabResult.result LabResult.assessments
       LabResult.rawWatson items].
  cbn [LabResult.result LabResult.assessments LabResult.rawWatson] in Hlab.
  assert (Hbullets : exists bs, JS.mapM bullet (firstn 3 es) = Returned bs).
  { apply (mapM_total bullet explained); [exact bullet_explained|].
    clear -Hall. revert es Hall. generalize 3 as n.
    induction n as [|n IH]; intros es Hall; [constructor|].
    destruct Hall; constructor; auto. }
  destruct Hbullets as [bs Hbs].
  assert (Hacts : forall S0,
            map (fun item => "• " ++ JS.toStr item) (map urgent S0)
            = map (fun a => "• URGENT: see a doctor for " ++ Assessment.key a) S0).
  { intro S0. rewrite map_map. reflexivity. }
  destruct es as [|e0 es'].
  - cbn [JS.bind]. destruct S as [|a S]; cbn [map].
    + eexists. split; [reflexivity|]. split; [lab|].
      destruct (Analysis.recommendations analysis); reflexivity.
    + destruct (Analysis.recommendations analysis) as [r|] eqn:Hrec.
      * destruct (JS.truthyStr r && negb (JS.includes r "AI Lab Follow-ups")).
        -- eexists. split; [reflexivity|]. split; [lab|].
           cbn [Analysis.recommendations].
           change (urgent a :: map urgent S) with (map urgent (a :: S)).
           rewrite Hacts. reflexivity.
        -- eexists. split; [reflexivity|]. split; [lab|first [reflexivity|exact Hrec]].
      * eexists. split; [reflexivity|]. split; [lab|first [reflexivity|exact Hrec]].
  - rewrite Hbs. cbn [JS.bind Analysis.recommendations Analysis.labAnalysis
                       Analysis.summary Analysis.findings].
    destruct S as [|a S]; cbn [map].
    + eexists. split; [reflexivity|]. split; [lab|].
      cbn [Analysis.recommendations].
      destruct (Analysis.recommendations analysis); reflexivity.
    + destruct (Analysis.recommendations analysis) as [r|] eqn:Hrec.
      * destruct (JS.truthyStr r && negb (JS.includes r "AI Lab Follow-ups")).
        -- eexists. split; [reflexivity|]. split; [lab|].
           cbn [Analysis.recommendations].
           change (urgent a :: map urgent S) with (map urgent (a :: S)).
           rewrite Hacts. reflexivity.
        -- eexists. split; [reflexivity|]. split; [lab|first [reflexivity|exact Hrec]].
      * eexists. split; [reflexivity|]. split; [lab|first [reflexivity|exact Hrec]].
Qed.

End PipelineFacts.

(** What a text grows into. *)
Lemma grows_refl (o : option string) :
  match o with
  | Some s => exists t, o = Some (s ++ t)
  | None => o = None
  end.
Proof.
  destruct o as [s|]; [|reflexivity].
  exists "". rewrite append_nil_r. reflexivity.
Qed.

(** X20. The merge never takes away from the summary or the
    recommendations, and never touches the lab analysis: a summary and
    recommendations that were there are still there, at most with more text
    after them, and those that were missing stay missing.  Findings that
    were there do not go missing either. *)
Theorem merge_only_appends `{Host} :
  forall a m : Analysis.t,
    mergeLabInsightsIntoSections a = Returned m ->
    match Analysis.summary a with
    | Some s => exists t, Analysis.summary m = Some (s ++ t)
    | None => Analysis.summary m = None
    end
    /\ match Analysis.recommendations a with
       | Some r => exists t, Analysis.recommendations m = Some (r ++ t)
       | None => Analysis.recommendations m = None
       end
    /\ Analysis.labAnalysis m = Analysis.labAnalysis a
    /\ (Analysis.findings m = None -> Analysis.findings a = None).
Proof.
  intros a m. unfold mergeLabInsightsIntoSections.
  assert (Hsame : Returned a = Returned m ->
            match Analysis.summary a with
            | Some s => exists t, Analysis.summary m = Some (s ++ t)
            | None => Analysis.summary m = None
            end
            /\ match Analysis.recommendations a with
               | Some r => exists t, Analysis.recommendations m = Some (r ++ t)
               | None => Analysis.recommendations m = None
               end
            /\ Analysis.labAnalysis m = Analysis.labAnalysis a
            /\ (Analysis.findings m = None -> Analysis.findings a = None)).
  { intro Heq. injection Heq as <-.
    split; [apply grows_refl|]. split; [apply grows_refl|].
    split; [reflexivity|trivial]. }
  destruct (negb (JS.truthy (Analysis.labAnalysis a))); [exact Hsame|].
  destruct (JS.get (Analysis.labAnalysis a) "result") as [result|e];
    cbn [JS.bind]; [|discriminate].
  destruct (negb (JS.truthy result)); [exact Hsame|].
  destruct (JS.get result "explanations") as [ev|e]; cbn [JS.bind];
    [|discriminate].
  destruct (JS.get result "action_items") as [av|e]; cbn [JS.bind];
    [|discriminate].
  assert (Hlast : forall mid : Analysis.t,
            match Analysis.summary a with
            | Some s => exists t, Analysis.summary mid = Some (s ++ t)
            | None => Analysis.summary mid = None
            end ->
            Analysis.recommendations mid = Analysis.recommendations a ->
            Analysis.labAnalysis mid = Analysis.labAnalysis a ->
            (Analysis.findings mid = None -> Analysis.findings a = None) ->
            match items av, Analysis.recommendations mid with
            | _ :: _, Some r =>
                if JS.truthyStr r && negb (JS.includes r "AI Lab Follow-ups") then
                  Returned
                    {| Analysis.summary := Analysis.summary mid;
                       Analysis.findings := Analysis.findings mid;
                       Analysis.recommendations :=
                         Some (r ++ JS.nl ++ JS.nl ++ "🤖 **AI-Recommended Actions**"
                                 ++ JS.nl
                                 ++ JS.join JS.nl
                                      (map (fun item => "• " ++ JS.toStr item)
                                           (items av)));
                       Analysis.labAnalysis := Analysis.labAnalysis mid |}
                else Returned mid
            | _, _ => Returned mid
            end = Returned m ->
            match Analysis.summary a with
            | Some s => exists t, Analysis.summary m = Some (s ++ t)
            | None => Analysis.summary m = None
            end
            /\ match Analysis.recommendations a with
               | Some r => exists t, Analysis.recommendations m = Some (r ++ t)
               | None => Analysis.recommendations m = None
               end
            /\ Analysis.labAnalysis m = Analysis.labAnalysis a
            /\ (Analysis.findings m = None -> Analysis.findings a = None)).
  { intros mid Hsum Hrec Hlab Hfind.
    assert (Hmid : Returned mid = Returned m ->
              match Analysis.summary a with
              | Some s => exists t, Analysis.summary m = Some (s ++ t)
              | None => Analysis.summary m = None
              end
              /\ match Analysis.recommendations a with
                 | Some r => exists t, Analysis.recommendations m = Some (r ++ t)
                 | None => Analysis.recommendations m = None
                 end
              /\ Analysis.labAnalysis m = Analysis.labAnalysis a
              /\ (Analysis.findings m = None -> Analysis.findings a = None)).
    { intro Heq. injection Heq as <-. split; [exact Hsum|].
      split; [rewrite Hrec; apply grows_refl|]. split; [exact Hlab|exact Hfind]. }
    destruct (items av); [exact Hmid|].
    destruct (Analysis.recommendations mid) as [r|] eqn:Hr; [|exact Hmid].
    destruct (JS.truthyStr r && negb (JS.includes r "AI Lab Follow-ups"));
      [|exact Hmid].
    intro Heq. injection Heq as <-.
    cbn [Analysis.summary Analysis.recommendations Analysis.labAnalysis
         Analysis.findings].
    split; [exact Hsum|]. split; [|split; [exact Hlab|exact Hfind]].
    rewrite <- Hrec. eexists. reflexivity. }
  destruct (items ev) as [|e0 es].
  - cbn [JS.bind]. apply Hlast; [apply grows_refl|reflexivity|reflexivity|trivial].
  - destruct (JS.mapM bullet (firstn 3 (e0 :: es))) as [bs|e]; cbn [JS.bind];
      [|discriminate].
    apply Hlast; cbn [Analysis.summary Analysis.recommendations
                      Analysis.labAnalysis Analysis.findings];
      [|reflexivity|reflexivity|].
    + destruct (Analysis.summary a) as [s|]; [|reflexivity].
      destruct (JS.truthyStr s && negb (JS.includes s "Watson Lab Highlights")).
      * eexists. reflexivity.
      * exists "". rewrite append_nil_r. reflexivity.
    + destruct (Analysis.findings a) as [f|]; [|discriminate].
      destruct (negb (JS.truthyStr f)
                || Regex.test (Regex.litI "No text could be extracted") f);
        [discriminate|].
      destruct (negb (JS.includes f "Watson Lab")); discriminate.
Qed.

Lemma merge_only_appends_witness :
  exists m t,
    mergeLabInsightsIntoSections (H := RefHost.host) sampleBase = Returned m
    /\ Analysis.recommendations m = Some ("Rest." ++ t).
Proof.
  assert (Hm : exists m,
             mergeLabInsightsIntoSections (H := RefHost.host) sampleBase
             = Returned m)
    by (vm_compute; eexists; reflexivity).
  destruct Hm as [m Hm].
  destruct (merge_only_appends (H := RefHost.host) sampleBase m Hm)
    as [_ [Hrec _]].
  cbn [sampleBase Analysis.recommendations] in Hrec.
  destruct Hrec as [t Ht].
  exists m, t. split; [exact Hm|exact Ht].
Defined.

Lemma merge_keeps_labAnalysis `{Host} (a m : Analysis.t) :
  mergeLabInsightsIntoSections a = Returned m ->
  Analysis.labAnalysis m = Analysis.labAnalysis a.
Proof.
  unfold mergeLabInsightsIntoSections.
  destruct (negb (JS.truthy (Analysis.labAnalysis a)));
    [intro Heq; injection Heq as <-; reflexivity|].
  destruct (JS.get (Analysis.labAnalysis a) "result") as [result|e];
    cbn [JS.bind]; [|discriminate].
  destruct (negb (JS.truthy result));
    [intro Heq; injection Heq as <-; reflexivity|].
  destruct (JS.get result "explanations") as [ev|e]; cbn [JS.bind];
    [|discriminate].
  destruct (JS.get result "action_items") as [av|e]; cbn [JS.bind];
    [|discriminate].
  assert (Hlast : forall mid : Analysis.t,
            Analysis.labAnalysis mid = Analysis.labAnalysis a ->
            match items av, Analysis.recommendations mid with
            | _ :: _, Some r =>
                if JS.truthyStr r && negb (JS.includes r "AI Lab Follow-ups") then
                  Returned
                    {| Analysis.summary := Analysis.summary mid;
                       Analysis.findings := Analysis.findings mid;
                       Analysis.recommendations :=
                         Some (r ++ JS.nl ++ JS.nl ++ "🤖 **AI-Recommended Actions**"
                                 ++ JS.nl
                                 ++ JS.join JS.nl
                                      (map (fun item => "• " ++ JS.toStr item)
                                           (items av)));
                       Analysis.labAnalysis := Analysis.labAnalysis mid |}
                else Returned mid
            | _, _ => Returned mid
            end = Returned m ->
            Analysis.labAnalysis m = Analysis.labAnalysis a).
  { intros mid Hmid.
    destruct (items av); [intro Heq; injection Heq as <-; exact Hmid|].
    destruct (Analysis.recommendations mid) as [r|];
      [|intro Heq; injection Heq as <-; exact Hmid].
    destruct (JS.truthyStr r && negb (JS.includes r "AI Lab Follow-ups"));
      intro Heq; injection Heq as <-; exact Hmid. }
  destruct (items ev) as [|e0 es].
  - cbn [JS.bind]. apply Hlast. reflexivity.
  - destruct (JS.mapM bullet (firstn 3 (e0 :: es))) as [bs|e]; cbn [JS.bind];
      [|discriminate].
    apply Hlast. reflexivity.
Qed.

Section AnalysisWithLabs.

Context `{Host}.
Variable out : outside.
Variable analyzeExtracted : string -> string -> JS.outcome Report.t.
Variable errorString : JS.error -> string.
Variable errorStack : JS.error -> JS.value.


(** X21. A failure of the lab analysis never fails the analysis: once
    [analyzeReport] has returned, [analyzeReportWithLabs] returns, whatever
    the lab analysis, the merge and the narrative do, and it leaves the
    world as the lab analysis left it.  What it returns carries the patient
    metadata it was given and the text, file name, terms, diagnosis and
    medications of the base analysis; its [labAnalysis] is the lab result
    or an object with an [error] field. *)
Theorem analyzeReportWithLabs_never_throws :
  forall (text filename : string) (patientMeta : PatientMeta.t)
         (base : Report.t) (w : world),
    analyzeReport analyzeExtracted text filename = Returned base ->
    exists r,
      fst (analyzeReportWithLabs out analyzeExtracted errorString errorStack text filename patientMeta w) = Returned r
      /\ snd (analyzeReportWithLabs out analyzeExtracted errorString errorStack text filename patientMeta w)
         = snd (analyzeLabReport out text patientMeta w)
      /\ Report.patientMeta r = Some patientMeta
      /\ Report.originalText r = Report.originalText base
      /\ Report.filename r = Report.filename base
      /\ Report.terms r = Report.terms base
      /\ Report.diagnosis r = Report.diagnosis base
      /\ Report.medications r = Report.medications base
      /\ labOutcome (Analysis.labAnalysis (Report.sections r))
           (fst (analyzeLabReport out text patientMeta w)).
Proof.
  intros text filename pm base w Hbase.
  unfold analyzeReportWithLabs, bindM, lift, tryM, ret. rewrite Hbase.
  destruct (analyzeLabReport out text pm w) as [[lr|e] w'] eqn:Hlab;
    cbn [fst snd labOutcome].
  - destruct (JS.truthy (LabResult.result lr)) eqn:Htruthy.
    + destruct (mergeLabInsightsIntoSections _) as [merged|e] eqn:Hmerge.
      * apply merge_keeps_labAnalysis in Hmerge.
        cbn [Report.setLabAnalysis Report.setSections Report.sections
             Analysis.labAnalysis] in Hmerge.
        destruct (buildLabNarrative (LabResult.toValue lr)) as [[n|]|e].
        -- destruct (JS.truthyStr n); eexists; cbn [fst snd];
             (split; [reflexivity|]); repeat (split; [reflexivity|]);
             left; (split; [reflexivity|]); left; exact Hmerge.
        -- eexists; cbn [fst snd]; (split; [reflexivity|]);
             repeat (split; [reflexivity|]);
             left; (split; [reflexivity|]); left; exact Hmerge.
        -- eexists; cbn [fst snd]; (split; [reflexivity|]);
             repeat (split; [reflexivity|]);
             left; (split; [reflexivity|]); right; eexists; eexists; reflexivity.
      * eexists; cbn [fst snd]; (split; [reflexivity|]);
          repeat (split; [reflexivity|]);
          left; (split; [reflexivity|]); right; eexists; eexists; reflexivity.
    + eexists; cbn [fst snd]; (split; [reflexivity|]);
        repeat (split; [reflexivity|]); right; split; reflexivity.
  - eexists; (split; [reflexivity|]); repeat (split; [reflexivity|]).
    eexists; eexists; reflexivity.
Qed.

(** X22. An answer the service gives in plain text is shown nowhere: when
    the result of the lab analysis is an object with [raw_assistant] only,
    the merge changes no section and no narrative is set, so the analysis
    returned is the base analysis with the patient metadata and the lab
    result attached. *)
Theorem plain_text_answer_is_dropped :
  forall (text filename : string) (patientMeta : PatientMeta.t)
         (base : Report.t) (lr : LabResult.t) (content : JS.value)
         (w w' : world),
    analyzeReport analyzeExtracted text filename = Returned base ->
    analyzeLabReport out text patientMeta w = (Returned lr, w') ->
    LabResult.result lr = JS.Obj [("raw_assistant", content)] ->
    analyzeReportWithLabs out analyzeExtracted errorString errorStack text filename patientMeta w
    = (Returned
         (Report.setLabAnalysis (Report.setPatientMeta base patientMeta)
            (LabResult.toValue lr)), w').
Proof.
  intros text filename pm base lr content w w' Hbase Hlab Hres.
  unfold analyzeReportWithLabs, bindM, lift, tryM, ret.
  rewrite Hbase, Hlab, Hres. cbn [JS.truthy].
  unfold mergeLabInsightsIntoSections, buildLabNarrative, LabResult.toValue.
  rewrite Hres.
  cbn [Report.setLabAnalysis Report.setSections Report.sections
       Analysis.labAnalysis JS.truthy negb JS.get JS.lookup String.eqb
       Ascii.eqb Bool.eqb JS.nullish JS.bind items listSentence concat
       JS.mapM app Analysis.recommendations].
  reflexivity.
Qed.


Lemma analyzeLabReport_unconfigured (text : string) (pm : PatientMeta.t)
    (lr : LabResult.t) (w w' : world) :
  isWatsonConfigured out = false ->
  analyzeLabReport out text pm w = (Returned lr, w') ->
  localFallback (assessAll (parseLabValues text) pm) = Returned lr /\ w' = w.
Proof.
  intros Hconf. unfold analyzeLabReport, bindM, lift. rewrite Hconf.
  cbn [negb].
  destruct (createWatsonPrompt _ _) as [prompt|e]; [|discriminate].
  intro Heq. injection Heq as Hlr Hw. split; [exact Hlr|symmetry; exact Hw].
Qed.

Lemma localFallback_shape (A : list Assessment.t) (lr : LabResult.t) :
  localFallback A = Returned lr ->
  exists es,
    Forall explained es
    /\ lr = {| LabResult.assessments := A;
               LabResult.result :=
                 JS.Obj [ ("explanations", JS.Arr es);
                          ("action_items", JS.Arr (map urgent (filter isSevere A)));
                          ("questions",
                           JS.Arr [JS.Str "Please consult a doctor for next steps."]) ];
               LabResult.rawWatson := JS.Null |}.
Proof.
  unfold localFallback.
  destruct (JS.mapM localExplanation A) as [es|e] eqn:Hes; cbn [JS.bind];
    [|discriminate].
  intro Heq. injection Heq as <-. exists es. split; [|reflexivity].
  apply mapM_Forall2 in Hes. clear -Hes.
  induction Hes as [|a e A es Hae _ IH]; constructor; [|exact IH].
  exact (localExplanation_explained _ _ Hae).
Qed.

Lemma truthyStr_app_r (a b : string) :
  JS.truthyStr b = true -> JS.truthyStr (a ++ b) = true.
Proof.
  destruct a; [trivial|reflexivity].
Qed.

(** X23. Without configuration a reading assessed as severe reaches the
    recommendations: if the base analysis has recommendations that are not
    empty and do not mention [AI Lab Follow-ups], the analysis returned has
    them followed by the heading of the recommended actions and one line
    [URGENT: see a doctor for] with the key per severe reading.  The world
    is left as it was, and the narrative ends with the question of the
    fallback. *)
Theorem unconfigured_urgent_actions :
  forall (text filename : string) (patientMeta : PatientMeta.t)
         (base : Report.t) (advice : string) (lr : LabResult.t)
         (w w' : world),
    isWatsonConfigured out = false ->
    analyzeReport analyzeExtracted text filename = Returned base ->
    Analysis.recommendations (Report.sections base) = Some advice ->
    advice <> "" ->
    JS.includes advice "AI Lab Follow-ups" = false ->
    analyzeLabReport out text patientMeta w = (Returned lr, w') ->
    filter isSevere (assessAll (parseLabValues text) patientMeta) <> [] ->
    exists r lead,
      analyzeReportWithLabs out analyzeExtracted errorString errorStack
        text filename patientMeta w = (Returned r, w)
      /\ Analysis.recommendations (Report.sections r)
         = Some (advice ++ JS.nl ++ JS.nl ++ "🤖 **AI-Recommended Actions**"
                   ++ JS.nl
                   ++ JS.join JS.nl
                        (map (fun a => "• URGENT: see a doctor for "
                                       ++ Assessment.key a)
                             (filter isSevere
                                (assessAll (parseLabValues text) patientMeta))))
      /\ Report.labNarrative r
         = Some (lead ++ "Questions to discuss with your doctor: Please consult a doctor for next steps..").
Proof.
  intros text filename pm base advice lr w w' Hconf Hbase Hrec Hne Hinc Hlab Hsev.
  destruct (analyzeLabReport_unconfigured _ _ _ _ _ Hconf Hlab) as [Hfb ->].
  destruct (localFallback_narrative _ _ Hfb) as [lead Hnarr].
  destruct (localFallback_shape _ _ Hfb) as [es [Hall Hlr]].
  set (S := filter isSevere (assessAll (parseLabValues text) pm)) in *.
  destruct (merge_fallback
              (Report.sections
                 (Report.setLabAnalysis (Report.setPatientMeta base pm)
                    (LabResult.toValue lr)))
              (assessAll (parseLabValues text) pm) S es
              (JS.Arr [JS.Str "Please consult a doctor for next steps."])
              JS.Null Hall)
    as [merged [Hmerge [_ Hrecs]]].
  { rewrite Hlr. reflexivity. }
  cbn [Report.setLabAnalysis Report.setSections Report.sections
       Report.setPatientMeta Analysis.recommendations] in Hrecs.
  rewrite Hrec in Hrecs.
  assert (Htr : JS.truthyStr advice = true) by (destruct advice; [contradiction|reflexivity]).
  rewrite Htr, Hinc in Hrecs. cbn [negb andb] in Hrecs.
  destruct S as [|a S']; [contradiction|].
  unfold analyzeReportWithLabs, bindM, lift, tryM, ret.
  rewrite Hbase, Hlab.
  assert (Htruthy : JS.truthy (LabResult.result lr) = true) by (rewrite Hlr; reflexivity).
  rewrite Htruthy, Hmerge, Hnarr.
  rewrite truthyStr_app_r by reflexivity.
  eexists. exists lead. split; [reflexivity|]. split; [exact Hrecs|reflexivity].
Qed.

End AnalysisWithLabs.

(** ** Examples *)

Lemma extractTextFromFile_never_blank_witness :
  "Hemoglobin: 8.9 g/dL" <> "" /\ JS.trim "Hemoglobin: 8.9 g/dL" <> "".
Proof.
  apply (extractTextFromFile_never_blank textFiles "report.txt").
  vm_compute. reflexivity.
Defined.

Lemma extractTextFromFile_blank_text_file_witness :
  extractTextFromFile blankFiles "notes.txt"
  = Thrown (JS.newError "Unsupported file type: .txt").
Proof.
  apply (extractTextFromFile_blank_text_file blankFiles "notes.txt"
           ("  " ++ JS.nl)).
  - vm_compute. reflexivity.
  - reflexivity.
  - vm_compute. reflexivity.
Defined.

Lemma createClient_options_witness :
  exists sch rest,
    CosOptions.endpoint cosOptions = sch ++ rest
    /\ (JS.toLowerCase sch = "http://" \/ JS.toLowerCase sch = "https://").
Proof.
  refine (proj1 (createClient_options cosAccount (fun _ => None) JS.message
                   cosOptions _)).
  vm_compute. reflexivity.
Defined.

Lemma analyzeReport_failure_phrase_witness :
  analyzeReport plainAnalysis "OCR is disabled on this server" "scan.pdf"
  = Returned (extractionFailureReport "OCR is disabled on this server" "scan.pdf").
Proof.
  apply (proj1 (analyzeReport_failure_phrase plainAnalysis
                  "OCR is disabled on this server" "scan.pdf")).
  exists "", "OCR is disabled", " on this server".
  split; [reflexivity|right; reflexivity].
Defined.

Lemma fallback_has_narrative_witness :
  exists r lead,
    localFallback (H := RefHost.host)
      (assessAll (parseLabValues severeText) male) = Returned r
    /\ buildLabNarrative (H := RefHost.host) (LabResult.toValue r)
       = Returned
           (Some (lead ++ "Questions to discuss with your doctor: Please consult a doctor for next steps..")).
Proof.
  assert (Hr : exists r,
             localFallback (H := RefHost.host)
               (assessAll (parseLabValues severeText) male) = Returned r)
    by (vm_compute; eexists; reflexivity).
  destruct Hr as [r Hr].
  destruct (fallback_has_narrative (H := RefHost.host) _ r Hr) as [lead Hlead].
  exists r, lead. split; [exact Hr|exact Hlead].
Defined.

Lemma analyzeReportWithLabs_never_throws_witness :
  exists r,
    fst (analyzeReportWithLabs (H := RefHost.host) (answering brokenAnswer)
           plainAnalysis JS.message (fun _ => JS.Undefined)
           severeText "report.txt" male boot) = Returned r
    /\ Report.patientMeta r = Some male.
Proof.
  assert (Hbase : exists base,
             analyzeReport plainAnalysis severeText "report.txt" = Returned base)
    by (vm_compute; eexists; reflexivity).
  destruct Hbase as [base Hbase].
  destruct (analyzeReportWithLabs_never_throws (H := RefHost.host)
              (answering brokenAnswer) plainAnalysis JS.message
              (fun _ => JS.Undefined) severeText "report.txt" male base boot Hbase)
    as [r [Hr [_ [Hmeta _]]]].
  exists r. split; [exact Hr|exact Hmeta].
Defined.

Lemma plain_text_answer_is_dropped_witness :
  exists base lr w',
    analyzeReport plainAnalysis severeText "report.txt" = Returned base
    /\ analyzeReportWithLabs (H := RefHost.host)
         (answering (chatAnswer "All values look fine."))
         plainAnalysis JS.message (fun _ => JS.Undefined)
         severeText "report.txt" male boot
       = (Returned
            (Report.setLabAnalysis (Report.setPatientMeta base male)
               (LabResult.toValue lr)), w').
Proof.
  assert (Hbase : exists base,
             analyzeReport plainAnalysis severeText "report.txt" = Returned base)
    by (vm_compute; eexists; reflexivity).
  destruct Hbase as [base Hbase].
  assert (Hlab : exists lr w',
             analyzeLabReport (H := RefHost.host)
               (answering (chatAnswer "All values look fine."))
               severeText male boot = (Returned lr, w')
             /\ LabResult.result lr
                = JS.Obj [("raw_assistant", JS.Str "All values look fine.")])
    by (vm_compute; eexists; eexists; split; reflexivity).
  destruct Hlab as [lr [w' [Hlab Hres]]].
  exists base, lr, w'. split; [exact Hbase|].
  exact (plain_text_answer_is_dropped (H := RefHost.host) _ plainAnalysis
           JS.message (fun _ => JS.Undefined) _ _ _ _ _ _ _ _ Hbase Hlab Hres).
Defined.

Lemma unconfigured_urgent_actions_witness :
  exists r lead,
    analyzeReportWithLabs (H := RefHost.host) offline plainAnalysis JS.message
      (fun _ => JS.Undefined) severeText "report.txt" male boot
    = (Returned r, boot)
    /\ Analysis.recommendations (Report.sections r)
       = Some ("Rest." ++ JS.nl ++ JS.nl ++ "🤖 **AI-Recommended Actions**"
                 ++ JS.nl ++ "• URGENT: see a doctor for hemoglobin")
    /\ Report.labNarrative r
       = Some (lead ++ "Questions to discuss with your doctor: Please consult a doctor for next steps..").
Proof.
  assert (Hbase : exists base,
             analyzeReport plainAnalysis severeText "report.txt" = Returned base
             /\ Analysis.recommendations (Report.sections base) = Some "Rest.")
    by (vm_compute; eexists; split; reflexivity).
  destruct Hbase as [base [Hbase Hrec]].
  assert (Hlab : exists lr w',
             analyzeLabReport (H := RefHost.host) offline severeText male boot
             = (Returned lr, w'))
    by (vm_compute; eexists; eexists; reflexivity).
  destruct Hlab as [lr [w' Hlab]].
  apply (unconfigured_urgent_actions (H := RefHost.host) offline plainAnalysis
           JS.message (fun _ => JS.Undefined) severeText "report.txt" male
           base "Rest." lr boot w').
  - reflexivity.
  - exact Hbase.
  - exact Hrec.
  - discriminate.
  - reflexivity.
  - exact Hlab.
  - vm_compute. discriminate.
Defined.
